(** * growi-plugin-view-char-counter: a shallow embedding and its properties

    The plugin comes in three near-identical variants:
    - [Inline]   (src/client-entry.tsx): one counter appended under each
      content root;
    - [Anchored] (src/unnamed/part_000): one counter inserted as the first
      child of the system-version footer element;
    - [Floating] (src/unnamed/part_001): one fixed-position counter appended
      to [document.body].

    The browser DOM is modelled as a forest of rose trees whose nodes carry
    a reference (their identity); the module-level variables of the script
    ([observer], [cleanupFns], [contentRoots]) are fields of an explicit
    state that every function threads. *)

From Stdlib Require Import List String Ascii Bool Arith NArith Lia DecimalString.
Import ListNotations.
Local Open Scope list_scope.

(** ** JavaScript strings *)

(** A JavaScript string is a sequence of UTF-16 code units. *)
Definition code_unit := N.
Definition jsstring := list code_unit.

(** [s.length] *)
Definition js_length (s : jsstring) : nat := List.length s.

Definition js_of_string (s : string) : jsstring :=
  List.map N_of_ascii (list_ascii_of_string s).

(** UTF-16 encoding of one Unicode scalar value, and of a sequence. *)
Definition utf16_units (cp : N) : jsstring :=
  if (cp <? 65536)%N then [cp]
  else [ (55296 + (cp - 65536) / 1024)%N ; (56320 + (cp - 65536) mod 1024)%N ].

Definition utf16_encode (cps : list N) : jsstring := flat_map utf16_units cps.

(** [String(n)] for a non-negative integer, as used by a template literal. *)
Definition decimal (n : nat) : jsstring :=
  js_of_string (NilEmpty.string_of_uint (Nat.to_uint n)).

(** [arr.join(sep)] *)
Fixpoint js_join (sep : jsstring) (l : list jsstring) : jsstring :=
  match l with
  | [] => []
  | [x] => x
  | x :: rest => x ++ sep ++ js_join sep rest
  end.

(** The labels of the source, as code units. *)
Definition label_selected : jsstring := [36984; 25246; 20013]%N.          (* 選択中 *)
Definition label_total : jsstring := [12506; 12540; 12472; 20840; 20307]%N. (* ページ全体 *)
Definition label_chars : jsstring := [25991; 23383]%N.                     (* 文字 *)

(** ** DOM nodes *)

Definition ref := nat.

(** What the selectors of the source can see of an element. *)
Record element := mkElement {
  tagName : string;
  idAttr : string;                          (* the [id] attribute, empty when absent *)
  classList : list string;
  attributes : list (string * string)       (* other attributes, e.g. data-testid *)
}.

#[local] Unset Elimination Schemes.
Inductive node : Type :=
| Text (r : ref) (data : jsstring)
| Elem (r : ref) (e : element) (kids : list node).
#[local] Set Elimination Schemes.

Definition ref_of (t : node) : ref :=
  match t with Text r _ => r | Elem r _ _ => r end.

Definition children (t : node) : list node :=
  match t with Text _ _ => [] | Elem _ _ kids => kids end.

(** [node instanceof Element] *)
Definition isElement (t : node) : bool :=
  match t with Text _ _ => false | Elem _ _ _ => true end.

Section node_induction.
Variable P : node -> Prop.
Hypothesis P_text : forall r d, P (Text r d).
Hypothesis P_elem : forall r e kids, Forall P kids -> P (Elem r e kids).

Fixpoint node_ind' (t : node) : P t :=
  match t with
  | Text r d => P_text r d
  | Elem r e kids =>
      P_elem r e kids
        ((fix all (l : list node) : Forall P l :=
            match l with
            | [] => Forall_nil P
            | k :: l' => Forall_cons k (node_ind' k) (all l')
            end) kids)
  end.
End node_induction.

(** All subtrees of a tree, in document (pre-)order; the tree itself first. *)
Fixpoint subtrees (t : node) : list node :=
  t :: match t with
       | Text _ _ => []
       | Elem _ _ kids => flat_map subtrees kids
       end.

Definition forest_subtrees (f : list node) : list node := flat_map subtrees f.

(** The proper descendants of a node, in document order. *)
Definition descendants (t : node) : list node := flat_map subtrees (children t).

(** [node.textContent]: the concatenated data of the text descendants. *)
Fixpoint textContent (t : node) : jsstring :=
  match t with
  | Text _ d => d
  | Elem _ _ kids => flat_map textContent kids
  end.

(** Each node of a tree with its parent ([up] is the parent of the tree's
    own root), in document order. *)
Fixpoint parent_table (up : option ref) (t : node) : list (ref * option ref) :=
  (ref_of t, up) ::
  match t with
  | Text _ _ => []
  | Elem r _ kids => flat_map (parent_table (Some r)) kids
  end.

Definition forest_parents (f : list node) : list (ref * option ref) :=
  flat_map (parent_table None) f.

(** Resolving a reference in a forest. *)
Definition find_node (f : list node) (n : ref) : option node :=
  find (fun t => ref_of t =? n) (forest_subtrees f).

(** [node.parentNode] *)
Definition parentNode (f : list node) (n : ref) : option ref :=
  match find (fun p => fst p =? n) (forest_parents f) with
  | Some (_, up) => up
  | None => None
  end.

(** ** Selectors *)

(** The compound selectors that occur in the source. *)
Inductive compound :=
| SelAttr (name value : string)      (* [name="value"] *)
| SelClass (c : string)              (* .c *)
| SelTagClass (tag c : string).      (* tag.c *)

(** A selector list [a, b, c]. *)
Definition selector := list compound.

Definition mem_string (x : string) (l : list string) : bool :=
  existsb (String.eqb x) l.

Definition has_attr (name value : string) (l : list (string * string)) : bool :=
  existsb (fun p => String.eqb (fst p) name && String.eqb (snd p) value) l.

Definition matches_compound (c : compound) (e : element) : bool :=
  match c with
  | SelAttr name value => has_attr name value (attributes e)
  | SelClass c => mem_string c (classList e)
  | SelTagClass tag c => String.eqb (tagName e) tag && mem_string c (classList e)
  end.

(** [el.matches(sel)] *)
Definition node_matches (sel : selector) (t : node) : bool :=
  match t with
  | Text _ _ => false
  | Elem _ e _ => existsb (fun c => matches_compound c e) sel
  end.

(** [el.querySelectorAll(sel)]: matching proper descendants, document order. *)
Definition querySelectorAll (sel : selector) (t : node) : list ref :=
  List.map ref_of (filter (node_matches sel) (descendants t)).

(** [el.querySelector(sel)] *)
Definition querySelector (sel : selector) (t : node) : option ref :=
  hd_error (querySelectorAll sel t).

(** The document is modelled from [document.body] downwards: the tree [d] is
    the body element, and the document-level queries range over it and its
    descendants. *)
Definition document_querySelectorAll (sel : selector) (d : node) : list ref :=
  List.map ref_of (filter (node_matches sel) (subtrees d)).

Definition document_querySelector (sel : selector) (d : node) : option ref :=
  hd_error (document_querySelectorAll sel d).

Definition has_id (i : string) (t : node) : bool :=
  match t with
  | Text _ _ => false
  | Elem _ e _ => String.eqb (idAttr e) i
  end.

(** [document.getElementById(i)] *)
Definition getElementById (i : string) (d : node) : option ref :=
  option_map ref_of (find (has_id i) (subtrees d)).

(** ** Tree updates *)

(** Apply [g] to the nodes referenced by [n]. *)
Fixpoint update_at (n : ref) (g : node -> node) (t : node) : node :=
  if ref_of t =? n then g t
  else match t with
       | Text _ _ => t
       | Elem r e kids => Elem r e (List.map (update_at n g) kids)
       end.

(** Drop every child (at any depth) whose reference satisfies [p]. *)
Fixpoint prune (p : ref -> bool) (t : node) : node :=
  match t with
  | Text _ _ => t
  | Elem r e kids =>
      Elem r e (filter (fun k => negb (p (ref_of k))) (List.map (prune p) kids))
  end.

Definition remove_node (n : ref) : node -> node := prune (Nat.eqb n).

(** [parent.appendChild(k)] for a node [k] that has no parent yet. *)
Definition append_child (k : node) (t : node) : node :=
  match t with
  | Text _ _ => t
  | Elem r e kids => Elem r e (kids ++ [k])
  end.

(** [if (el.firstChild) el.insertBefore(k, el.firstChild) else el.appendChild(k)] *)
Definition insert_first (k : node) (t : node) : node :=
  match t with
  | Text _ _ => t
  | Elem r e [] => Elem r e ([] ++ [k])
  | Elem r e (first :: rest) => Elem r e (k :: first :: rest)
  end.

(** [el.textContent = str]: the children are replaced by one text node
    (referenced by [fresh]), or by nothing when [str] is empty. *)
Definition put_text (fresh : ref) (str : jsstring) (t : node) : node :=
  match t with
  | Text r _ => Text r str
  | Elem r e _ =>
      Elem r e (match str with [] => [] | _ => [Text fresh str] end)
  end.

(** ** Selection, listeners, closures *)

Record range := mkRange { commonAncestorContainer : ref }.

(** A [Selection] object: its ranges and its string form, both given by the
    browser. *)
Record selection_obj := mkSelection {
  ranges : list range;
  sel_toString : jsstring
}.

Definition rangeCount (sel : selection_obj) : nat := List.length (ranges sel).

Inductive event_target := OnDocument | OnNode (r : ref).
Inductive event_type := keyup | mouseup | selectionchange.

(** Listener functions are compared by identity: [updateCounter] is one
    module-level function, the inline variant makes one closure per
    attached counter, and the host page has handlers of its own. *)
Inductive handler :=
| HUpdateCounter
| HInlineUpdate (root counter : ref)
| HHost (k : nat).

Record listener := mkListener {
  l_target : event_target;
  l_type : event_type;
  l_handler : handler
}.

Definition target_eqb (a b : event_target) : bool :=
  match a, b with
  | OnDocument, OnDocument => true
  | OnNode x, OnNode y => x =? y
  | _, _ => false
  end.

Definition type_eqb (a b : event_type) : bool :=
  match a, b with
  | keyup, keyup | mouseup, mouseup | selectionchange, selectionchange => true
  | _, _ => false
  end.

Definition handler_eqb (a b : handler) : bool :=
  match a, b with
  | HUpdateCounter, HUpdateCounter => true
  | HInlineUpdate r c, HInlineUpdate r' c' => (r =? r') && (c =? c')
  | HHost j, HHost k => j =? k
  | _, _ => false
  end.

Definition listener_eqb (a b : listener) : bool :=
  target_eqb (l_target a) (l_target b) && type_eqb (l_type a) (l_type b)
  && handler_eqb (l_handler a) (l_handler b).

Fixpoint remove_first (x : listener) (l : list listener) : list listener :=
  match l with
  | [] => []
  | y :: rest => if listener_eqb x y then rest else y :: remove_first x rest
  end.

(** The teardown closures pushed onto [cleanupFns], defunctionalised. *)
Inductive cleanup :=
| RemoveCounter (counter : ref)        (* () => { counter?.remove(); } *)
| RemoveDocumentListeners              (* the three document listeners of updateCounter *)
| DetachInline (root counter : ref).   (* the inline variant's closure *)

(** Calls recorded for counting purposes. *)
Inductive event :=
| CallFindContentRoots
| CallRender
| CallCleanup (fn : cleanup).

(** A [MutationRecord], as far as the callbacks read it. *)
Record mutation := mkMutation { addedNodes : list ref }.

(** ** The state *)

Record state := mkState {
  has_window : bool;              (* typeof window / document are defined *)
  body_ref : ref;                 (* document.body *)
  body_el : element;
  body_kids : list node;
  detached : list node;           (* trees that are not in the document *)
  next_ref : ref;                 (* allocator of node identities *)
  selection : option selection_obj;  (* window.getSelection() *)
  listeners : list listener;
  observing : list nat;           (* MutationObservers connected to document.body *)
  next_observer : nat;
  observer : option nat;          (* let observer: MutationObserver | null *)
  cleanupFns : list cleanup;      (* const cleanupFns *)
  contentRoots : list ref;        (* let contentRoots *)
  log : list event
}.

Definition doc (s : state) : node := Elem (body_ref s) (body_el s) (body_kids s).
Definition forest (s : state) : list node := doc s :: detached s.

Definition set_dom (d : node) (det : list node) (s : state) : state :=
  match d with
  | Text _ _ => s
  | Elem r e kids =>
      mkState (has_window s) r e kids det (next_ref s) (selection s)
        (listeners s) (observing s) (next_observer s) (observer s)
        (cleanupFns s) (contentRoots s) (log s)
  end.

Definition set_next_ref (n : ref) (s : state) : state :=
  mkState (has_window s) (body_ref s) (body_el s) (body_kids s) (detached s) n
    (selection s) (listeners s) (observing s) (next_observer s) (observer s)
    (cleanupFns s) (contentRoots s) (log s).

Definition set_listeners (l : list listener) (s : state) : state :=
  mkState (has_window s) (body_ref s) (body_el s) (body_kids s) (detached s)
    (next_ref s) (selection s) l (observing s) (next_observer s) (observer s)
    (cleanupFns s) (contentRoots s) (log s).

Definition set_observing (o : list nat) (nxt : nat) (s : state) : state :=
  mkState (has_window s) (body_ref s) (body_el s) (body_kids s) (detached s)
    (next_ref s) (selection s) (listeners s) o nxt (observer s)
    (cleanupFns s) (contentRoots s) (log s).

Definition set_observer (o : option nat) (s : state) : state :=
  mkState (has_window s) (body_ref s) (body_el s) (body_kids s) (detached s)
    (next_ref s) (selection s) (listeners s) (observing s) (next_observer s) o
    (cleanupFns s) (contentRoots s) (log s).

Definition set_cleanupFns (c : list cleanup) (s : state) : state :=
  mkState (has_window s) (body_ref s) (body_el s) (body_kids s) (detached s)
    (next_ref s) (selection s) (listeners s) (observing s) (next_observer s)
    (observer s) c (contentRoots s) (log s).

Definition set_contentRoots (r : list ref) (s : state) : state :=
  mkState (has_window s) (body_ref s) (body_el s) (body_kids s) (detached s)
    (next_ref s) (selection s) (listeners s) (observing s) (next_observer s)
    (observer s) (cleanupFns s) r (log s).

Definition record (ev : event) (s : state) : state :=
  mkState (has_window s) (body_ref s) (body_el s) (body_kids s) (detached s)
    (next_ref s) (selection s) (listeners s) (observing s) (next_observer s)
    (observer s) (cleanupFns s) (contentRoots s) (log s ++ [ev]).

(** ** DOM operations on the state *)

Definition dom_update (n : ref) (g : node -> node) (s : state) : state :=
  set_dom (update_at n g (doc s)) (List.map (update_at n g) (detached s)) s.

(** [document.body.appendChild(k)] *)
Definition body_appendChild (k : node) (s : state) : state :=
  set_dom (append_child k (doc s)) (detached s) s.

(** [el.textContent = str] *)
Definition dom_setTextContent (n : ref) (str : jsstring) (s : state) : state :=
  dom_update n (put_text (next_ref s) str) (set_next_ref (S (next_ref s)) s).

(** [el.remove()]: nothing happens to a node without a parent; otherwise the
    node leaves its tree and lives on as a detached tree. *)
Definition dom_remove (n : ref) (s : state) : state :=
  let gone :=
    match parentNode (forest s) n, find_node (forest s) n with
    | Some _, Some t => [t]
    | _, _ => []
    end in
  set_dom (remove_node n (doc s))
          (List.map (remove_node n) (detached s) ++ gone) s.

(** [node.textContent] through a reference. *)
Definition text_of (s : state) (n : ref) : jsstring :=
  match find_node (forest s) n with
  | Some t => textContent t
  | None => []
  end.

(** [target.addEventListener(type, h)]: a listener already registered is
    not registered twice. *)
Definition addEventListener (tg : event_target) (ty : event_type) (h : handler)
    (s : state) : state :=
  let l := mkListener tg ty h in
  if existsb (listener_eqb l) (listeners s) then s
  else set_listeners (listeners s ++ [l]) s.

(** [target.removeEventListener(type, h)] *)
Definition removeEventListener (tg : event_target) (ty : event_type) (h : handler)
    (s : state) : state :=
  set_listeners (remove_first (mkListener tg ty h) (listeners s)) s.

(** [new MutationObserver(cb)] followed by [observe(document.body, ...)] *)
Definition observe_body (s : state) : nat * state :=
  let o := next_observer s in
  (o, set_observing (observing s ++ [o]) (S o) s).

(** [observer.disconnect()] *)
Definition disconnect (o : nat) (s : state) : state :=
  set_observing (filter (fun x => negb (x =? o)) (observing s)) (next_observer s) s.

(** ** Code shared by the three variants *)

(** [const countChars = (s: string) => s.length;] *)
Definition countChars (s : jsstring) : nat := js_length s.

(** The two template literals and the literal of the empty case. *)
Definition msg_selected (n m : nat) : jsstring :=
  label_selected ++ js_of_string ": " ++ decimal n ++ js_of_string " "
  ++ label_chars ++ js_of_string " / " ++ label_total ++ js_of_string ": "
  ++ decimal m ++ js_of_string " " ++ label_chars.

Definition msg_total (m : nat) : jsstring :=
  label_total ++ js_of_string ": " ++ decimal m ++ js_of_string " " ++ label_chars.

Definition msg_zero : jsstring :=
  label_total ++ js_of_string ": 0 " ++ label_chars.

Definition newline : jsstring := [10%N].

(** The selectors of the source. *)
Definition sel_testid : selector := [SelAttr "data-testid" "page-content"].
Definition sel_wiki : selector := [SelClass "wiki"].
Definition sel_page_content : selector := [SelClass "page-content"].
Definition sel_content_main : selector := [SelClass "content-main"].

Definition root_selectors : list selector :=
  [sel_testid; sel_wiki; sel_page_content; sel_content_main].

(** '[data-testid="page-content"], .wiki, .page-content, .content-main' *)
Definition content_group : selector :=
  [SelAttr "data-testid" "page-content"; SelClass "wiki";
   SelClass "page-content"; SelClass "content-main"].

(** The loop of [isNodeInside]; the parent chain of a node is shorter than
    the table of all nodes, which bounds the number of iterations. *)
Fixpoint isNodeInside_loop (fuel : nat) (f : list node) (parent : ref)
    (cur : option ref) : bool :=
  match fuel with
  | 0 => false
  | S fuel' =>
      match cur with
      | None => false
      | Some c =>
          if c =? parent then true
          else isNodeInside_loop fuel' f parent (parentNode f c)
      end
  end.

Definition isNodeInside (f : list node) (parent : ref) (n : option ref) : bool :=
  match n with
  | None => false
  | Some _ => isNodeInside_loop (S (List.length (forest_parents f))) f parent n
  end.

(** The [for (const sel of selectors)] loop of [findContentRoots]. *)
Fixpoint first_match (sels : list selector) (d : node) : list ref :=
  match sels with
  | [] => []
  | sel :: rest =>
      let nodes := document_querySelectorAll sel d in
      if 0 <? List.length nodes then nodes else first_match rest d
  end.

Definition findContentRoots (d : node) : list ref := first_match root_selectors d.

(** A call of [findContentRoots()], counted in the log. *)
Definition call_findContentRoots (s : state) : list ref * state :=
  (findContentRoots (doc s), record CallFindContentRoots s).

(** [if (contentRoots.length === 0) { contentRoots = findContentRoots(); }] *)
Definition refresh_roots (s : state) : state :=
  if List.length (contentRoots s) =? 0 then
    let (r, s1) := call_findContentRoots s in set_contentRoots r s1
  else s.

Definition push_cleanup (fn : cleanup) (s : state) : state :=
  set_cleanupFns (cleanupFns s ++ [fn]) s.

(** The selection part of the render routines: the string that is counted
    as selected, given the test that decides whether a node is inside. *)
Definition selected_text (inside : ref -> bool) (s : state) : jsstring :=
  match selection s with
  | None => []
  | Some sel =>
      if 0 <? rangeCount sel then
        match ranges sel with
        | [] => []
        | rg :: _ =>
            if inside (commonAncestorContainer rg) then sel_toString sel else []
        end
      else []
  end.

(** Running one teardown closure. *)
Definition run_cleanup (fn : cleanup) (s : state) : state :=
  match fn with
  | RemoveCounter c => dom_remove c s
  | RemoveDocumentListeners =>
      removeEventListener OnDocument selectionchange HUpdateCounter
        (removeEventListener OnDocument mouseup HUpdateCounter
           (removeEventListener OnDocument keyup HUpdateCounter s))
  | DetachInline root c =>
      dom_remove c
        (removeEventListener OnDocument selectionchange (HInlineUpdate root c)
           (removeEventListener (OnNode root) mouseup (HInlineUpdate root c)
              (removeEventListener (OnNode root) keyup (HInlineUpdate root c) s)))
  end.

(** [deactivate], the same in the three files. *)
Definition deactivate (s : state) : state :=
  let s1 :=
    match observer s with
    | Some o => set_observer None (disconnect o s)
    | None => s
    end in
  let fns := cleanupFns s1 in                 (* cleanupFns.splice(0) *)
  let s2 := set_cleanupFns [] s1 in
  fold_left (fun st fn => run_cleanup fn (record (CallCleanup fn) st)) fns s2.

(** The accumulation of the flag in the batched observer callbacks. *)
Definition batch_flag (qualifies : ref -> bool) (mutations : list mutation) : bool :=
  fold_left
    (fun flag m =>
       fold_left (fun flag n => if qualifies n then true else flag)
                 (addedNodes m) flag)
    mutations false.

(** ** The floating variant (src/unnamed/part_001) *)

Module Floating.

Definition COUNTER_ID : string := "growi-view-char-counter-floating".

Definition ensureFloatingCounter (s : state) : ref * state :=
  match getElementById COUNTER_ID (doc s) with
  | Some counter => (counter, s)
  | None =>
      let c := next_ref s in
      let counter := Elem c (mkElement "div" COUNTER_ID [] []) [] in
      let s1 := set_next_ref (S c) s in
      let s2 := body_appendChild counter s1 in
      (c, push_cleanup (RemoveCounter c) s2)
  end.

Definition updateCounter (s : state) : state :=
  let s := record CallRender s in
  let (counter, s) := ensureFloatingCounter s in
  let s := refresh_roots s in
  if List.length (contentRoots s) =? 0 then
    dom_setTextContent counter msg_zero s
  else
    let fullText := js_join newline (List.map (text_of s) (contentRoots s)) in
    let selected :=
      selected_text
        (fun cac => existsb (fun root => isNodeInside (forest s) root (Some cac))
                            (contentRoots s)) s in
    if 0 <? js_length selected then
      dom_setTextContent counter
        (msg_selected (countChars selected) (countChars fullText)) s
    else
      dom_setTextContent counter (msg_total (countChars fullText)) s.

Definition qualifies (s : state) (n : ref) : bool :=
  match find_node (forest s) n with
  | Some t =>
      if isElement t then
        node_matches content_group t
        || match querySelector content_group t with Some _ => true | None => false end
      else false
  | None => false
  end.

Definition observerCallback (mutations : list mutation) (s : state) : state :=
  let shouldUpdateRoots := batch_flag (qualifies s) mutations in
  if shouldUpdateRoots then
    let (r, s1) := call_findContentRoots s in
    updateCounter (set_contentRoots r s1)
  else s.

Definition startObserveView (s : state) : state :=
  let (r, s) := call_findContentRoots s in
  let s := updateCounter (set_contentRoots r s) in
  let (o, s) := observe_body s in
  let s := set_observer (Some o) s in
  let s := addEventListener OnDocument keyup HUpdateCounter s in
  let s := addEventListener OnDocument mouseup HUpdateCounter s in
  let s := addEventListener OnDocument selectionchange HUpdateCounter s in
  push_cleanup RemoveDocumentListeners s.

Definition activate (s : state) : state :=
  if negb (has_window s) then s else startObserveView s.

End Floating.

(** ** The anchored variant (src/unnamed/part_000) *)

Module Anchored.

Definition COUNTER_ID : string := "growi-view-char-counter".

Definition version_selectors : list selector :=
  [ [SelTagClass "div" "SystemVersion_system-version__ygB5P"];
    [SelClass "SystemVersion_system-version__ygB5P"] ].

Fixpoint first_element (sels : list selector) (d : node) : option ref :=
  match sels with
  | [] => None
  | sel :: rest =>
      match document_querySelector sel d with
      | Some el => Some el
      | None => first_element rest d
      end
  end.

Definition findSystemVersionElement (d : node) : option ref :=
  first_element version_selectors d.

(** [versionEl.parentElement] is not null: the parent of [document.body]
    is the html element, any other node has its parent in the forest. *)
Definition has_parentElement (s : state) (n : ref) : bool :=
  (n =? body_ref s)
  || match parentNode (forest s) n with Some _ => true | None => false end.

Definition ensureCounterElement (s : state) : option ref * state :=
  match getElementById COUNTER_ID (doc s) with
  | Some counter => (Some counter, s)
  | None =>
      match findSystemVersionElement (doc s) with
      | None => (None, s)
      | Some versionEl =>
          if negb (has_parentElement s versionEl) then (None, s)
          else
            let c := next_ref s in
            let counter := Elem c (mkElement "span" COUNTER_ID [] []) [] in
            let s1 := set_next_ref (S c) s in
            let s2 := dom_update versionEl (insert_first counter) s1 in
            (Some c, push_cleanup (RemoveCounter c) s2)
      end
  end.

Definition updateCounter (s : state) : state :=
  let s := record CallRender s in
  let s := refresh_roots s in
  match ensureCounterElement s with
  | (None, s) => s
  | (Some counter, s) =>
      if List.length (contentRoots s) =? 0 then
        dom_setTextContent counter msg_zero s
      else
        let fullText := js_join newline (List.map (text_of s) (contentRoots s)) in
        let selected :=
          selected_text
            (fun cac => existsb (fun root => isNodeInside (forest s) root (Some cac))
                                (contentRoots s)) s in
        if 0 <? js_length selected then
          dom_setTextContent counter
            (msg_selected (countChars selected) (countChars fullText)) s
        else
          dom_setTextContent counter (msg_total (countChars fullText)) s
  end.

Definition version_anchor : selector :=
  [SelTagClass "div" "SystemVersion_system-version__ygB5P"].

Definition qualifies (s : state) (n : ref) : bool :=
  match find_node (forest s) n with
  | Some t =>
      if isElement t then
        node_matches content_group t
        || match querySelector content_group t with Some _ => true | None => false end
        || node_matches version_anchor t
        || match querySelector version_anchor t with Some _ => true | None => false end
      else false
  | None => false
  end.

Definition observerCallback (mutations : list mutation) (s : state) : state :=
  let shouldUpdate := batch_flag (qualifies s) mutations in
  if shouldUpdate then
    let (r, s1) := call_findContentRoots s in
    updateCounter (set_contentRoots r s1)
  else s.

Definition startObserveView (s : state) : state :=
  let (r, s) := call_findContentRoots s in
  let s := updateCounter (set_contentRoots r s) in
  let (o, s) := observe_body s in
  let s := set_observer (Some o) s in
  let s := addEventListener OnDocument keyup HUpdateCounter s in
  let s := addEventListener OnDocument mouseup HUpdateCounter s in
  let s := addEventListener OnDocument selectionchange HUpdateCounter s in
  push_cleanup RemoveDocumentListeners s.

Definition activate (s : state) : state :=
  if negb (has_window s) then s else startObserveView s.

End Anchored.

(** ** The inline variant (src/client-entry.tsx) *)

Module Inline.

Definition COUNTER_CLASS : string := "growi-view-char-counter".

Definition counter_selector : selector := [SelClass COUNTER_CLASS].

(** The closure [update] of one attached counter. *)
Definition update (contentRoot counter : ref) (s : state) : state :=
  let s := record CallRender s in
  let fullText := text_of s contentRoot in
  let selected :=
    selected_text (fun cac => isNodeInside (forest s) contentRoot (Some cac)) s in
  if 0 <? js_length selected then
    dom_setTextContent counter
      (msg_selected (countChars selected) (countChars fullText)) s
  else
    dom_setTextContent counter (msg_total (countChars fullText)) s.

Definition attachCharCounterToView (contentRoot : ref) (s : state) : state :=
  match find_node (forest s) contentRoot with
  | None => s
  | Some t =>
      match querySelector counter_selector t with
      | Some _ => s
      | None =>
          let c := next_ref s in
          let counter := Elem c (mkElement "div" "" [COUNTER_CLASS] []) [] in
          let s := set_next_ref (S c) s in
          let s := dom_update contentRoot (append_child counter) s in
          let handler := HInlineUpdate contentRoot c in
          let s := addEventListener (OnNode contentRoot) keyup handler s in
          let s := addEventListener (OnNode contentRoot) mouseup handler s in
          let s := addEventListener OnDocument selectionchange handler s in
          let s := update contentRoot c s in
          push_cleanup (DetachInline contentRoot c) s
      end
  end.

(** The body of [m.addedNodes.forEach] in the observer callback. *)
Definition on_added (n : ref) (s : state) : state :=
  match find_node (forest s) n with
  | Some t =>
      if isElement t then
        let s := if node_matches content_group t
                 then attachCharCounterToView n s else s in
        match find_node (forest s) n with
        | Some t' =>
            fold_left (fun st el => attachCharCounterToView el st)
                      (querySelectorAll content_group t') s
        | None => s
        end
      else s
  | None => s
  end.

Definition observerCallback (mutations : list mutation) (s : state) : state :=
  fold_left
    (fun st m => fold_left (fun st n => on_added n st) (addedNodes m) st)
    mutations s.

Definition startObserveView (s : state) : state :=
  let roots := findContentRoots (doc s) in
  let s := record CallFindContentRoots s in
  let s := fold_left (fun st root => attachCharCounterToView root st) roots s in
  let (o, s) := observe_body s in
  set_observer (Some o) s.

Definition activate (s : state) : state :=
  if negb (has_window s) then s else startObserveView s.

End Inline.

(** ** Notions used to state the properties *)

(** [inside f a n]: node [n] is [a] or a descendant of [a], that is, [a] is
    reached from [n] by following [parentNode]. *)
Inductive inside (f : list node) (a : ref) : ref -> Prop :=
| inside_self : inside f a a
| inside_up : forall n p, parentNode f n = Some p -> inside f a p -> inside f a n.

(** The string of the selection that counts for a set of roots: the
    selection's string when its first range's common ancestor container is
    inside some root, the empty string otherwise. *)
Inductive qualifying_selection (f : list node) (roots : list ref)
    (sel : option selection_obj) : jsstring -> Prop :=
| QS_null : sel = None -> qualifying_selection f roots sel []
| QS_no_range : forall so,
    sel = Some so -> ranges so = [] -> qualifying_selection f roots sel []
| QS_outside : forall so rg rest,
    sel = Some so -> ranges so = rg :: rest ->
    (forall r, In r roots -> ~ inside f r (commonAncestorContainer rg)) ->
    qualifying_selection f roots sel []
| QS_inside : forall so rg rest r,
    sel = Some so -> ranges so = rg :: rest ->
    In r roots -> inside f r (commonAncestorContainer rg) ->
    qualifying_selection f roots sel (sel_toString so).

(** The concatenated text of a set of roots. *)
Definition full_text (s : state) (roots : list ref) : jsstring :=
  js_join newline (List.map (text_of s) roots).

Definition set_selection (sel : option selection_obj) (s : state) : state :=
  mkState (has_window s) (body_ref s) (body_el s) (body_kids s) (detached s)
    (next_ref s) sel (listeners s) (observing s) (next_observer s) (observer s)
    (cleanupFns s) (contentRoots s) (log s).

(** The state in which the floating render routine reads the roots, their
    text and the selection: after the surface has been ensured and an empty
    root set has been re-derived. *)
Definition floating_measured (s : state) : ref * state :=
  let (c, s1) := Floating.ensureFloatingCounter (record CallRender s) in
  (c, refresh_roots s1).

(** The number of nodes of a tree. *)
Definition node_count (t : node) : nat := List.length (subtrees t).

Definition count_event (ev : event) (l : list event) : nat :=
  List.length (filter (fun x =>
    match ev, x with
    | CallFindContentRoots, CallFindContentRoots => true
    | CallRender, CallRender => true
    | _, _ => false
    end) l).

(** The wording of the output in the specification, to compare with. *)
Definition spec_msg_selected (n m : nat) : jsstring :=
  js_of_string "Selected: " ++ decimal n ++ js_of_string " characters / Document total: "
  ++ decimal m ++ js_of_string " characters".

Definition spec_msg_total (m : nat) : jsstring :=
  js_of_string "Document total: " ++ decimal m ++ js_of_string " characters".

(** One step of the drain loop of [deactivate]. *)
Definition drain_step (st : state) (fn : cleanup) : state :=
  run_cleanup fn (record (CallCleanup fn) st).

(** Some subtree of [t] is an element referenced by [v]. *)
Definition has_element (v : ref) (t : node) : bool :=
  existsb (fun x => isElement x && (ref_of x =? v)) (subtrees t).

(** The position of the first entry for [n] in a parent table. *)
Fixpoint index_of (n : ref) (l : list (ref * option ref)) : nat :=
  match l with
  | [] => 0
  | (x, _) :: l' => if x =? n then 0 else S (index_of n l')
  end.

(** In a parent table read from the left, every parent has been seen before
    its child. *)
Fixpoint parents_first (seen : list ref) (l : list (ref * option ref)) : Prop :=
  match l with
  | [] => True
  | (x, up) :: l' =>
      match up with Some p => In p seen | None => True end
      /\ parents_first (x :: seen) l'
  end.

(** The text of the render routines, for a counted selection string [S]
    and a full text [T]: as the source writes it, and as the specification
    words it. *)
Definition rendered (S T : jsstring) : jsstring :=
  if 0 <? js_length S then msg_selected (js_length S) (js_length T)
  else msg_total (js_length T).

Definition spec_rendered (S T : jsstring) : jsstring :=
  if 0 <? js_length S then spec_msg_selected (js_length S) (js_length T)
  else spec_msg_total (js_length T).

(** Example pages: a body with one content root holding "hello world" and
    a menu next to it. *)
Definition div (cls : list string) : element := mkElement "div" "" cls [].
Definition ex_body : element := mkElement "body" "" [] [].

Definition ex_page (sel : option selection_obj) : state :=
  mkState true 0 ex_body
    [Elem 1 (div ["wiki"%string]) [Text 2 (js_of_string "hello world")];
     Elem 3 (div ["menu"%string]) [Text 4 (js_of_string "menu")]]
    [] 5 sel [] [] 0 None [] [] [].

(** "hello" selected inside the root, and "menu" selected outside of it. *)
Definition ex_sel_inside : selection_obj := mkSelection [mkRange 2] (js_of_string "hello").
Definition ex_sel_outside : selection_obj := mkSelection [mkRange 4] (js_of_string "menu").

(** A node matches a selector or contains a descendant that does. *)
Definition matches_or_contains (sel : selector) (t : node) : Prop :=
  node_matches sel t = true
  \/ exists d, In d (descendants t) /\ node_matches sel d = true.

(** Some added element node of the batch matches, or contains a match of,
    one of the watched selectors. *)
Definition batch_has_match (watched : list selector) (s : state)
    (batch : list mutation) : Prop :=
  exists m n t sel,
    In m batch /\ In n (addedNodes m)
    /\ find_node (forest s) n = Some t /\ isElement t = true
    /\ In sel watched /\ matches_or_contains sel t.

(** A page without any content root whose footer (node 1) has just been
    inserted, watched by the anchored variant. *)
Definition ex_footer_page : state :=
  mkState true 0 ex_body
    [Elem 1 (div ["SystemVersion_system-version__ygB5P"%string]) []]
    [] 5 None [] [0] 1 (Some 0) [RemoveDocumentListeners] [] [].

(** A page into which two content roots (nodes 1 and 3) have just been
    inserted, watched by the inline variant. *)
Definition ex_two_roots : state :=
  mkState true 0 ex_body
    [Elem 1 (div ["wiki"%string]) [Text 2 (js_of_string "one")];
     Elem 3 (div ["wiki"%string]) [Text 4 (js_of_string "two")]]
    [] 5 None [] [0] 1 (Some 0) [] [] [].

(** A content root (node 1) that was inserted and taken out again before the
    observer callback ran, watched by the floating variant. *)
Definition ex_removed_root : state :=
  mkState true 0 ex_body []
    [Elem 1 (div ["wiki"%string]) [Text 2 (js_of_string "gone")]]
    5 None [] [0] 1 (Some 0) [RemoveDocumentListeners] [] [].

(** The node that carries the floating counter once it has been ensured:
    the element that already has the id, or the next node to be created. *)
Definition floating_surface (s : state) : ref :=
  match getElementById Floating.COUNTER_ID (doc s) with
  | Some c => c
  | None => next_ref s
  end.

(** A page on which no root selector matches. *)
Definition ex_plain_page : state :=
  mkState true 0 ex_body
    [Elem 3 (div ["menu"%string]) [Text 4 (js_of_string "menu")]]
    [] 5 None [] [] 0 None [] [] [].

(** The floating variant is activated on the example page; then the host
    takes the content root out of the document, and the observer is told of
    a batch that adds nothing. *)
Definition ex_stale_roots : state :=
  Floating.observerCallback [mkMutation []]
    (dom_remove 1 (Floating.activate (ex_page None))).

(** A page whose footer holds a span and then a div, both with the
    system-version class. *)
Definition ex_span_before_div : state :=
  mkState true 0 ex_body
    [Elem 1 (mkElement "span" "" ["SystemVersion_system-version__ygB5P"%string] []) [];
     Elem 2 (div ["SystemVersion_system-version__ygB5P"%string])
       [Text 3 (js_of_string "v7")]]
    [] 5 None [] [] 0 None [] [] [].

(** A page that already holds an empty element with the floating counter's
    id, and nothing else. *)
Definition ex_leftover_counter : state :=
  mkState true 0 ex_body
    [Elem 1 (mkElement "div" Floating.COUNTER_ID [] []) []]
    [] 5 None [] [] 0 None [] [] [].

(** An attachment made by the inline variant: the root, the reference of
    the counter created for it, and the counter's children. *)
Definition attachment := (ref * ref * list node)%type.

Definition att_root (a : attachment) : ref := fst (fst a).
Definition att_counter (a : attachment) : ref := snd (fst a).

Definition counter_node (a : attachment) : node :=
  Elem (att_counter a) (mkElement "div" "" [Inline.COUNTER_CLASS] []) (snd a).

Definition attachment_listeners (a : attachment) : list listener :=
  let h := HInlineUpdate (att_root a) (att_counter a) in
  [mkListener (OnNode (att_root a)) keyup h;
   mkListener (OnNode (att_root a)) mouseup h;
   mkListener OnDocument selectionchange h].

Definition attachment_cleanup (a : attachment) : cleanup :=
  DetachInline (att_root a) (att_counter a).

(** The document after a series of attachments, and after the removal of
    their counters. *)
Definition attach_all (l : list attachment) (d : node) : node :=
  fold_left (fun t a => update_at (att_root a) (append_child (counter_node a)) t) l d.

Definition remove_all (l : list attachment) (d : node) : node :=
  fold_left (fun t a => remove_node (att_counter a) t) l d.

Definition remove_listeners (l : list attachment) (L : list listener) : list listener :=
  fold_left (fun L a => fold_left (fun L x => remove_first x L)
                                  (attachment_listeners a) L) l L.

(** The counters of a series of attachments were allocated one after the
    other between [lo] and [hi]: each counter takes its own reference and
    the next one for its text node. *)
Fixpoint spaced (lo : nat) (l : list attachment) (hi : nat) : Prop :=
  match l with
  | [] => lo <= hi
  | a :: l' =>
      lo <= att_counter a
      /\ (forall x, In x (flat_map subtrees (snd a)) -> ref_of x = S (att_counter a))
      /\ spaced (S (S (att_counter a))) l' hi
  end.

(** A page with a content root nested in another one, both without
    counter, before any activation. *)
Definition ex_two_pages : state :=
  mkState true 0 ex_body
    [Elem 1 (div ["wiki"%string])
       [Text 2 (js_of_string "outer");
        Elem 3 (div ["wiki"%string]) [Text 4 (js_of_string "inner")]]]
    [] 5 None [] [] 0 None [] [] [].

(** ** Registration with the host *)

(** [{ activate, deactivate }] *)
Record activators := mkActivators {
  act_activate : state -> state;
  act_deactivate : state -> state
}.






Definition anchored_plugin : activators := mkActivators Anchored.activate deactivate.

(** [attach_run s s']: [s'] is reached from [s] by a series of calls of
    [attachCharCounterToView]. *)
Inductive attach_run : state -> state -> Prop :=
| run_done : forall s, attach_run s s
| run_step : forall s root s',
    attach_run (Inline.attachCharCounterToView root s) s' -> attach_run s s'.

(** The number of elements of a tree that carry the id [i]. *)
Definition id_count (i : string) (d : node) : nat :=
  List.length (filter (has_id i) (subtrees d)).

(** All references of a forest. *)
Definition refs (f : list node) : list ref := List.map ref_of (forest_subtrees f).

Definition handler_refs (h : handler) : list ref :=
  match h with
  | HInlineUpdate r c => [r; c]
  | _ => []
  end.

(** Well-formed allocation: the allocators are ahead of everything that is
    already in use. *)
Definition fresh_state (s : state) : Prop :=
  (forall r, In r (refs (forest s)) -> r < next_ref s)
  /\ (forall l r, In l (listeners s) -> In r (handler_refs (l_handler l)) -> r < next_ref s)
  /\ (forall o, In o (observing s) -> o < next_observer s).

(** The plugin is not active: the module variables have their initial
    values and [updateCounter] is not registered on the document. *)
Definition idle (s : state) : Prop :=
  observer s = None /\ cleanupFns s = []
  /\ (forall l, In l (listeners s) -> l_handler l <> HUpdateCounter).

(** * Properties *)

(** ** Frame lemmas: what the DOM operations leave alone *)

Section set_dom_frame.
Variables (d : node) (det : list node) (s : state).

Lemma has_window_set_dom : has_window (set_dom d det s) = has_window s.
Proof. destruct d; reflexivity. Qed.
Lemma next_ref_set_dom : next_ref (set_dom d det s) = next_ref s.
Proof. destruct d; reflexivity. Qed.
Lemma selection_set_dom : selection (set_dom d det s) = selection s.
Proof. destruct d; reflexivity. Qed.
Lemma listeners_set_dom : listeners (set_dom d det s) = listeners s.
Proof. destruct d; reflexivity. Qed.
Lemma observing_set_dom : observing (set_dom d det s) = observing s.
Proof. destruct d; reflexivity. Qed.
Lemma next_observer_set_dom : next_observer (set_dom d det s) = next_observer s.
Proof. destruct d; reflexivity. Qed.
Lemma observer_set_dom : observer (set_dom d det s) = observer s.
Proof. destruct d; reflexivity. Qed.
Lemma cleanupFns_set_dom : cleanupFns (set_dom d det s) = cleanupFns s.
Proof. destruct d; reflexivity. Qed.
Lemma contentRoots_set_dom : contentRoots (set_dom d det s) = contentRoots s.
Proof. destruct d; reflexivity. Qed.
Lemma log_set_dom : log (set_dom d det s) = log s.
Proof. destruct d; reflexivity. Qed.
End set_dom_frame.

Create Rewrite HintDb frame.
#[local] Hint Rewrite has_window_set_dom next_ref_set_dom selection_set_dom
  listeners_set_dom observing_set_dom next_observer_set_dom observer_set_dom
  cleanupFns_set_dom contentRoots_set_dom log_set_dom : frame.

Ltac frame :=
  unfold dom_setTextContent, dom_update, dom_remove, body_appendChild,
    removeEventListener, push_cleanup, disconnect;
  autorewrite with frame; simpl; autorewrite with frame; try reflexivity.

Lemma set_dom_elem r e kids det s :
  doc (set_dom (Elem r e kids) det s) = Elem r e kids
  /\ detached (set_dom (Elem r e kids) det s) = det.
Proof. split; reflexivity. Qed.

Lemma isElement_update_at n g t :
  (forall x, isElement (g x) = isElement x) ->
  isElement (update_at n g t) = isElement t.
Proof.
  intros Hg. destruct t as [r d|r e kids]; simpl.
  - destruct (r =? n); [apply Hg | reflexivity].
  - destruct (r =? n); [apply Hg | reflexivity].
Qed.

Lemma set_dom_doc d det s :
  isElement d = true -> doc (set_dom d det s) = d /\ detached (set_dom d det s) = det.
Proof. destruct d; [discriminate | intros _; split; reflexivity]. Qed.

Lemma isElement_put_text fresh str x : isElement (put_text fresh str x) = isElement x.
Proof. destruct x; reflexivity. Qed.

Lemma isElement_append_child k x : isElement (append_child k x) = isElement x.
Proof. destruct x; reflexivity. Qed.

Lemma isElement_insert_first k x : isElement (insert_first k x) = isElement x.
Proof. destruct x as [|r e [|]]; reflexivity. Qed.

Lemma doc_dom_update n g s :
  (forall x, isElement (g x) = isElement x) ->
  doc (dom_update n g s) = update_at n g (doc s)
  /\ detached (dom_update n g s) = List.map (update_at n g) (detached s).
Proof.
  intros Hg. unfold dom_update. apply set_dom_doc.
  rewrite isElement_update_at by exact Hg. reflexivity.
Qed.

Lemma forest_dom_update n g s :
  (forall x, isElement (g x) = isElement x) ->
  forest (dom_update n g s) = List.map (update_at n g) (forest s).
Proof.
  intros Hg. destruct (doc_dom_update n g s Hg) as [Hd Hdet].
  unfold forest at 1. rewrite Hd, Hdet. reflexivity.
Qed.

(** ** C9: character length *)

Lemma length_utf16_units cp :
  List.length (utf16_units cp) = if (cp <? 65536)%N then 1 else 2.
Proof. unfold utf16_units. destruct (cp <? 65536)%N; reflexivity. Qed.

(** C9. For every input string, [countChars], which measures both the
    selection and the document total, returns the number of UTF-16 code units
    of the string: one per code point of the basic plane and two per code
    point beyond it, hence neither the code-point nor the grapheme count
    (U+1F600 alone counts 2). *)
Theorem countChars_counts_code_units :
  (forall s : jsstring, countChars s = List.length s)
  /\ (forall cps : list N,
        countChars (utf16_encode cps)
        = List.length cps
          + List.length (filter (fun cp => negb (cp <? 65536)%N) cps))
  /\ (countChars (utf16_encode [128512%N]) = 2
      /\ List.length [128512%N] = 1).
Proof.
  split; [reflexivity | split; [ | split; reflexivity]].
  induction cps as [|cp cps IH]; [reflexivity|].
  unfold countChars, js_length, utf16_encode in *. simpl.
  rewrite length_app, IH, length_utf16_units.
  destruct (cp <? 65536)%N; simpl; lia.
Qed.

(** ** C4: the root locator *)

Lemma first_match_skip pre rest d :
  (forall x, In x pre -> document_querySelectorAll x d = []) ->
  first_match (pre ++ rest) d = first_match rest d.
Proof.
  induction pre as [|x pre IH]; intros H; [reflexivity|].
  simpl. rewrite (H x) by (left; reflexivity). simpl.
  apply IH. intros y Hy. apply H. right. exact Hy.
Qed.

Lemma first_match_here sel rest d :
  document_querySelectorAll sel d <> [] ->
  first_match (sel :: rest) d = document_querySelectorAll sel d.
Proof.
  intros H. simpl. destruct (document_querySelectorAll sel d) as [|a l].
  - contradiction.
  - reflexivity.
Qed.

(** C4. The root locator returns the full match set of the first selector of
    its fixed list that matches at least one element, the empty list when no
    selector matches, and a call changes nothing but the call log. *)
Theorem findContentRoots_first_match (s : state) :
  (forall pre sel post,
      root_selectors = pre ++ sel :: post ->
      (forall x, In x pre -> document_querySelectorAll x (doc s) = []) ->
      document_querySelectorAll sel (doc s) <> [] ->
      fst (call_findContentRoots s) = document_querySelectorAll sel (doc s))
  /\ ((forall sel, In sel root_selectors ->
                   document_querySelectorAll sel (doc s) = []) ->
      fst (call_findContentRoots s) = [])
  /\ (let s' := snd (call_findContentRoots s) in
      forest s' = forest s /\ listeners s' = listeners s
      /\ observing s' = observing s /\ observer s' = observer s
      /\ cleanupFns s' = cleanupFns s /\ contentRoots s' = contentRoots s
      /\ selection s' = selection s /\ next_ref s' = next_ref s).
Proof.
  split; [|split].
  - intros pre sel post Hsplit Hpre Hsel. simpl. unfold findContentRoots.
    rewrite Hsplit, first_match_skip by exact Hpre.
    apply first_match_here. exact Hsel.
  - intros Hnone. simpl. unfold findContentRoots.
    rewrite <- (app_nil_r root_selectors).
    rewrite first_match_skip by exact Hnone. reflexivity.
  - simpl. repeat split.
Qed.

(** ** C7: deactivation *)

Lemma observer_run_cleanup fn s : observer (run_cleanup fn s) = observer s.
Proof. destruct fn; simpl; frame. Qed.

Lemma cleanupFns_run_cleanup fn s : cleanupFns (run_cleanup fn s) = cleanupFns s.
Proof. destruct fn; simpl; frame. Qed.

Lemma observing_run_cleanup fn s : observing (run_cleanup fn s) = observing s.
Proof. destruct fn; simpl; frame. Qed.

Lemma log_run_cleanup fn s : log (run_cleanup fn s) = log s.
Proof. destruct fn; simpl; frame. Qed.

Lemma drain_frame fns : forall s,
  let s' := fold_left drain_step fns s in
  observer s' = observer s /\ cleanupFns s' = cleanupFns s
  /\ observing s' = observing s
  /\ log s' = log s ++ List.map CallCleanup fns.
Proof.
  induction fns as [|fn fns IH]; intros s; simpl.
  - rewrite app_nil_r. repeat split.
  - destruct (IH (drain_step s fn)) as (Ho & Hc & Hg & Hl).
    unfold drain_step in *.
    rewrite Ho, Hc, Hg, Hl.
    rewrite observer_run_cleanup, cleanupFns_run_cleanup,
      observing_run_cleanup, log_run_cleanup.
    simpl. rewrite <- app_assoc. repeat split.
Qed.

(** The DOM and the listener table after a teardown action depend on the
    DOM and the listener table before it, and on nothing else. *)
Lemma forest_doc_detached a b :
  forest a = forest b -> doc a = doc b /\ detached a = detached b.
Proof.
  unfold forest. intros H.
  split; [exact (f_equal (hd (doc a)) H) | exact (f_equal (@tl node) H)].
Qed.

Lemma forest_dom_remove n s :
  forest (dom_remove n s)
  = remove_node n (doc s)
    :: List.map (remove_node n) (detached s)
       ++ match parentNode (forest s) n, find_node (forest s) n with
          | Some _, Some t => [t]
          | _, _ => []
          end.
Proof. reflexivity. Qed.

Lemma forest_removeEventListener tg ty h s :
  forest (removeEventListener tg ty h s) = forest s.
Proof. reflexivity. Qed.

Lemma listeners_dom_remove n s : listeners (dom_remove n s) = listeners s.
Proof. reflexivity. Qed.

Lemma dom_remove_page n a b :
  forest a = forest b -> listeners a = listeners b ->
  forest (dom_remove n a) = forest (dom_remove n b)
  /\ listeners (dom_remove n a) = listeners (dom_remove n b).
Proof.
  intros Hf Hl. destruct (forest_doc_detached a b Hf) as [Hd Ht].
  rewrite !forest_dom_remove, !listeners_dom_remove, Hf, Hd, Ht, Hl.
  split; reflexivity.
Qed.

Lemma removeEventListener_page tg ty h a b :
  forest a = forest b -> listeners a = listeners b ->
  forest (removeEventListener tg ty h a) = forest (removeEventListener tg ty h b)
  /\ listeners (removeEventListener tg ty h a)
     = listeners (removeEventListener tg ty h b).
Proof.
  intros Hf Hl. rewrite !forest_removeEventListener. split; [exact Hf|].
  unfold removeEventListener. cbn [listeners set_listeners]. rewrite Hl. reflexivity.
Qed.

Lemma run_cleanup_page fn a b :
  forest a = forest b -> listeners a = listeners b ->
  forest (run_cleanup fn a) = forest (run_cleanup fn b)
  /\ listeners (run_cleanup fn a) = listeners (run_cleanup fn b).
Proof.
  intros Hf Hl. destruct fn as [c| |root c]; cbn [run_cleanup].
  - apply dom_remove_page; assumption.
  - repeat (apply removeEventListener_page; try assumption);
      apply (removeEventListener_page _ _ _ _ _ Hf Hl).
  - apply dom_remove_page;
      repeat (apply removeEventListener_page; try assumption);
      apply (removeEventListener_page _ _ _ _ _ Hf Hl).
Qed.

Lemma drain_page fns : forall a b,
  forest a = forest b -> listeners a = listeners b ->
  forest (fold_left drain_step fns a)
  = forest (fold_left (fun st fn => run_cleanup fn st) fns b)
  /\ listeners (fold_left drain_step fns a)
     = listeners (fold_left (fun st fn => run_cleanup fn st) fns b).
Proof.
  induction fns as [|fn fns IH]; intros a b Hf Hl; cbn [fold_left].
  - split; assumption.
  - unfold drain_step at 2 4.
    destruct (run_cleanup_page fn (record (CallCleanup fn) a) b Hf Hl) as [Hf' Hl'].
    apply IH; assumption.
Qed.

(** C7. [deactivate] disconnects the observer if there is one and sets the
    variable back to null, then empties the cleanup registry and invokes
    every teardown action once, in registration order: the call log gains
    one entry per registered action, in that order, and the DOM and the
    listener table are those obtained by running the registered actions one
    after the other on the state of before; a second call right after
    changes nothing. *)
Theorem deactivate_drains_once (s : state) :
  let s' := deactivate s in
  let ran := fold_left (fun st fn => run_cleanup fn st) (cleanupFns s) s in
  observer s' = None
  /\ (forall o, observer s = Some o -> ~ In o (observing s'))
  /\ cleanupFns s' = []
  /\ log s' = log s ++ List.map CallCleanup (cleanupFns s)
  /\ forest s' = forest ran
  /\ listeners s' = listeners ran
  /\ deactivate s' = s'.
Proof.
  set (s1 := match observer s with
             | Some o => set_observer None (disconnect o s)
             | None => s
             end).
  assert (H1 : observer s1 = None /\ cleanupFns s1 = cleanupFns s
               /\ log s1 = log s
               /\ forest s1 = forest s /\ listeners s1 = listeners s
               /\ forall o, observer s = Some o -> ~ In o (observing s1)).
  { unfold s1. destruct (observer s) as [o|] eqn:Ho.
    - repeat split; try reflexivity.
      intros o' Heq. injection Heq as <-. simpl.
      rewrite filter_In. intros [_ Hneq]. rewrite Nat.eqb_refl in Hneq. discriminate.
    - repeat split; try assumption; try reflexivity. discriminate. }
  destruct H1 as (Hobs & Hfns & Hlog & Hfor & Hlis & Hdis).
  assert (Hd : deactivate s = fold_left drain_step (cleanupFns s1) (set_cleanupFns [] s1))
    by reflexivity.
  destruct (drain_frame (cleanupFns s1) (set_cleanupFns [] s1)) as (Ho & Hc & Hg & Hl).
  destruct (drain_page (cleanupFns s1) (set_cleanupFns [] s1) s Hfor Hlis) as (Hpf & Hpl).
  simpl in Ho, Hc, Hg, Hl. cbv zeta. rewrite Hd.
  assert (Hobs' : observer (fold_left drain_step (cleanupFns s1) (set_cleanupFns [] s1)) = None)
    by (rewrite Ho; exact Hobs).
  split; [exact Hobs'|]. split.
  { intros o Heq. rewrite Hg. apply Hdis. exact Heq. }
  split; [exact Hc|]. split.
  { rewrite Hl, Hlog, Hfns. reflexivity. }
  split; [rewrite Hpf, Hfns; reflexivity|].
  split; [rewrite Hpl, Hfns; reflexivity|].
  unfold deactivate. rewrite Hobs'. rewrite Hc. simpl.
  destruct (fold_left drain_step (cleanupFns s1) (set_cleanupFns [] s1)) eqn:E.
  simpl in Hc. subst. reflexivity.
Qed.

(** ** Searching the document *)

Lemma find_app_none {A} (p : A -> bool) l1 l2 :
  find p l1 = None -> find p (l1 ++ l2) = find p l2.
Proof.
  induction l1 as [|a l1 IH]; simpl; [reflexivity|].
  destruct (p a); [discriminate | exact IH].
Qed.

Lemma find_app_some {A} (p : A -> bool) l1 l2 x :
  find p l1 = Some x -> find p (l1 ++ l2) = Some x.
Proof.
  induction l1 as [|a l1 IH]; simpl; [discriminate|].
  destruct (p a); [trivial | exact IH].
Qed.

Lemma find_none_iff {A} (p : A -> bool) l :
  find p l = None <-> forall x, In x l -> p x = false.
Proof.
  split.
  - intros H x Hx. exact (find_none p l H x Hx).
  - induction l as [|a l IH]; intros H; simpl; [reflexivity|].
    rewrite (H a) by (left; reflexivity). apply IH.
    intros x Hx. apply H. right. exact Hx.
Qed.

Lemma find_flat_map_none {A B} (p : B -> bool) (g : A -> list B) l :
  (forall a, In a l -> find p (g a) = None) -> find p (flat_map g l) = None.
Proof.
  induction l as [|a l IH]; intros H; simpl; [reflexivity|].
  rewrite find_app_none by (apply H; left; reflexivity).
  apply IH. intros b Hb. apply H. right. exact Hb.
Qed.

Lemma subtrees_elem r e kids :
  subtrees (Elem r e kids) = Elem r e kids :: flat_map subtrees kids.
Proof. reflexivity. Qed.

Lemma subtrees_head t : exists l, subtrees t = t :: l.
Proof. destruct t; simpl; eexists; reflexivity. Qed.

Lemma has_id_same_element i r e kids kids' :
  has_id i (Elem r e kids) = has_id i (Elem r e kids').
Proof. reflexivity. Qed.

(** ** C5: the surface is created once *)

Lemma getElementById_appended i r e kids k :
  getElementById i (Elem r e kids) = None ->
  has_id i k = true ->
  getElementById i (Elem r e (kids ++ [k])) = Some (ref_of k).
Proof.
  unfold getElementById. intros Hnone Hk.
  destruct (find (has_id i) (subtrees (Elem r e kids))) eqn:E; [discriminate|].
  rewrite subtrees_elem in E. simpl in E.
  rewrite subtrees_elem. simpl.
  destruct (String.eqb (idAttr e) i); [discriminate|].
  rewrite flat_map_app. rewrite find_app_none by exact E.
  simpl. rewrite app_nil_r.
  destruct (subtrees_head k) as [l ->]. simpl. rewrite Hk. reflexivity.
Qed.

Lemma find_id_inserted i v k t :
  has_id i k = true ->
  find (has_id i) (subtrees t) = None ->
  find (has_id i) (subtrees (update_at v (insert_first k) t))
  = if has_element v t then Some k else None.
Proof.
  intros Hk. induction t as [r d|r e kids IH] using node_ind'; intros Hnone.
  - unfold has_element. simpl. destruct (r =? v); reflexivity.
  - unfold has_element. rewrite subtrees_elem in Hnone.
    cbn [find] in Hnone.
    destruct (has_id i (Elem r e kids)) eqn:Hroot; [discriminate|].
    rewrite subtrees_elem.
    cbn [update_at ref_of existsb isElement andb].
    destruct (r =? v) eqn:Hrv.
    + cbn [orb].
      assert (Hins : exists l, subtrees (insert_first k (Elem r e kids))
                               = Elem r e (children (insert_first k (Elem r e kids)))
                                 :: k :: l).
      { destruct (subtrees_head k) as [l Hl].
        destruct kids as [|first rest]; simpl; rewrite Hl; eexists; reflexivity. }
      destruct Hins as [l ->]. cbn [find].
      rewrite (has_id_same_element i r e _ kids), Hroot, Hk. reflexivity.
    + rewrite subtrees_elem.
      cbn [find]. rewrite (has_id_same_element i r e _ kids), Hroot.
      cbn [orb]. clear Hroot.
      induction kids as [|c kids IHk]; [reflexivity|].
      simpl in Hnone. inversion IH as [|? ? Hc Hrest]; subst.
      destruct (find (has_id i) (subtrees c)) eqn:Ec.
      { rewrite (find_app_some _ _ _ _ Ec) in Hnone. discriminate. }
      rewrite find_app_none in Hnone by exact Ec.
      simpl. rewrite existsb_app.
      specialize (Hc eq_refl). unfold has_element in Hc.
      destruct (existsb (fun x => isElement x && (ref_of x =? v)) (subtrees c)).
      * rewrite (find_app_some _ _ _ _ Hc). reflexivity.
      * rewrite find_app_none by exact Hc. simpl. apply IHk; assumption.
Qed.

Lemma query_has_element sel d v :
  document_querySelector sel d = Some v -> has_element v d = true.
Proof.
  unfold document_querySelector, document_querySelectorAll, has_element.
  intros H.
  destruct (filter (node_matches sel) (subtrees d)) as [|x l] eqn:E; [discriminate|].
  simpl in H. injection H as <-.
  assert (Hx : In x (filter (node_matches sel) (subtrees d)))
    by (rewrite E; left; reflexivity).
  apply filter_In in Hx. destruct Hx as [Hin Hm].
  apply existsb_exists. exists x. split; [exact Hin|].
  rewrite Nat.eqb_refl, andb_true_r.
  destruct x; [discriminate | reflexivity].
Qed.

Lemma first_element_has_element sels d v :
  Anchored.first_element sels d = Some v -> has_element v d = true.
Proof.
  induction sels as [|sel sels IH]; simpl; [discriminate|].
  destruct (document_querySelector sel d) eqn:E.
  - intros H. injection H as <-. exact (query_has_element _ _ _ E).
  - exact IH.
Qed.

Lemma floating_ensure_twice (s : state) :
  let '(c, s1) := Floating.ensureFloatingCounter s in
  Floating.ensureFloatingCounter s1 = (c, s1)
  /\ getElementById Floating.COUNTER_ID (doc s1) = Some c.
Proof.
  unfold Floating.ensureFloatingCounter.
  destruct (getElementById Floating.COUNTER_ID (doc s)) as [c|] eqn:E.
  - rewrite E. split; reflexivity.
  - assert (H : getElementById Floating.COUNTER_ID
             (doc (push_cleanup (RemoveCounter (next_ref s))
                (body_appendChild
                   (Elem (next_ref s) (mkElement "div" Floating.COUNTER_ID [] []) [])
                   (set_next_ref (S (next_ref s)) s)))) = Some (next_ref s)).
    { unfold doc at 1. simpl.
      apply (getElementById_appended Floating.COUNTER_ID (body_ref s) (body_el s)
               (body_kids s) (Elem (next_ref s) _ [])); [exact E | reflexivity]. }
    rewrite H. split; reflexivity.
Qed.

Lemma anchored_ensure_twice (s : state) :
  let '(c, s1) := Anchored.ensureCounterElement s in
  Anchored.ensureCounterElement s1 = (c, s1)
  /\ (forall r, c = Some r -> getElementById Anchored.COUNTER_ID (doc s1) = Some r).
Proof.
  unfold Anchored.ensureCounterElement.
  destruct (getElementById Anchored.COUNTER_ID (doc s)) as [c|] eqn:E.
  - rewrite E. split; [reflexivity|]. intros r Hr. injection Hr as <-. reflexivity.
  - destruct (Anchored.findSystemVersionElement (doc s)) as [v|] eqn:Ev.
    + destruct (negb (Anchored.has_parentElement s v)) eqn:Hp.
      * rewrite E, Ev, Hp. split; [reflexivity | discriminate].
      * set (counter := Elem (next_ref s) (mkElement "span" Anchored.COUNTER_ID [] []) []).
        assert (H : getElementById Anchored.COUNTER_ID
                  (doc (push_cleanup (RemoveCounter (next_ref s))
                     (dom_update v (insert_first counter)
                        (set_next_ref (S (next_ref s)) s)))) = Some (next_ref s)).
        { assert (Hdoc : doc (push_cleanup (RemoveCounter (next_ref s))
                     (dom_update v (insert_first counter)
                        (set_next_ref (S (next_ref s)) s)))
                   = update_at v (insert_first counter) (doc s)).
          { change (doc (dom_update v (insert_first counter)
                        (set_next_ref (S (next_ref s)) s))
                    = update_at v (insert_first counter) (doc s)).
            apply (doc_dom_update v (insert_first counter)
                     (set_next_ref (S (next_ref s)) s)).
            apply isElement_insert_first. }
          rewrite Hdoc. unfold getElementById in *.
          rewrite (find_id_inserted Anchored.COUNTER_ID v counter (doc s)).
          - rewrite (first_element_has_element _ _ _ Ev). reflexivity.
          - reflexivity.
          - destruct (find (has_id Anchored.COUNTER_ID) (subtrees (doc s)));
              [discriminate | reflexivity]. }
        rewrite H. split; [reflexivity|]. intros r Hr. injection Hr as <-. reflexivity.
    + rewrite E, Ev. split; [reflexivity | discriminate].
Qed.

(** ** The containment test *)

Lemma parents_first_mono l : forall seen seen',
  (forall x, In x seen -> In x seen') ->
  parents_first seen l -> parents_first seen' l.
Proof.
  induction l as [|[x up] l IH]; intros seen seen' Hsub H; simpl in *; [exact I|].
  destruct H as [Hup Hrest]. split.
  - destruct up; [apply Hsub; exact Hup | exact I].
  - apply (IH (x :: seen)); [|exact Hrest].
    intros y [Hy|Hy]; [left; exact Hy | right; apply Hsub; exact Hy].
Qed.

Lemma parents_first_app l1 : forall seen l2,
  parents_first seen l1 ->
  parents_first (List.map fst l1 ++ seen) l2 ->
  parents_first seen (l1 ++ l2).
Proof.
  induction l1 as [|[x up] l1 IH]; intros seen l2 H1 H2; simpl in *; [exact H2|].
  destruct H1 as [Hup Hrest]. split; [exact Hup|].
  apply IH; [exact Hrest|].
  apply (parents_first_mono l2 (x :: List.map fst l1 ++ seen)); [|exact H2].
  intros y [Hy|Hy].
  - apply in_or_app. right. left. exact Hy.
  - apply in_app_or in Hy. apply in_or_app.
    destruct Hy as [Hy|Hy]; [left; exact Hy | right; right; exact Hy].
Qed.

Lemma parents_first_table t : forall up seen,
  (forall p, up = Some p -> In p seen) ->
  parents_first seen (parent_table up t).
Proof.
  induction t as [r d|r e kids IH] using node_ind'; intros up seen Hup.
  - simpl. split; [|exact I]. destruct up as [p|]; [apply Hup; reflexivity | exact I].
  - simpl. split; [destruct up as [p|]; [apply Hup; reflexivity | exact I]|].
    assert (Hall : forall seen', In r seen' ->
              parents_first seen' (flat_map (parent_table (Some r)) kids)).
    { induction kids as [|k kids IHk]; intros seen' Hr; simpl; [exact I|].
      inversion IH as [|? ? Hk Hrest]; subst.
      apply parents_first_app.
      - apply Hk. intros p Hp. injection Hp as <-. exact Hr.
      - apply IHk; [exact Hrest|]. apply in_or_app. right. exact Hr. }
    apply Hall. left. reflexivity.
Qed.

Lemma parents_first_forest f : forall seen, parents_first seen (forest_parents f).
Proof.
  induction f as [|t f IH]; intros seen; simpl; [exact I|].
  apply parents_first_app.
  - apply parents_first_table. discriminate.
  - apply IH.
Qed.

Lemma parent_is_earlier l : forall seen n x p,
  parents_first seen l ->
  find (fun e => fst e =? n) l = Some (x, Some p) ->
  In p seen \/ index_of p l < index_of n l.
Proof.
  induction l as [|[y up] l IH]; intros seen n x p Hc Hf; simpl in *; [discriminate|].
  destruct Hc as [Hup Hrest].
  destruct (y =? n) eqn:Hyn.
  - injection Hf as _ ->. left. exact Hup.
  - destruct (IH (y :: seen) n x p Hrest Hf) as [[Hy|Hs]|Hlt].
    + subst y. rewrite Nat.eqb_refl. right. lia.
    + left. exact Hs.
    + right. destruct (y =? p); lia.
Qed.

Lemma index_of_le n l : index_of n l <= List.length l.
Proof.
  induction l as [|[x up] l IH]; simpl; [lia|]. destruct (x =? n); lia.
Qed.

Lemma parentNode_rank f n p :
  parentNode f n = Some p ->
  index_of p (forest_parents f) < index_of n (forest_parents f).
Proof.
  unfold parentNode. intros H.
  destruct (find (fun e => fst e =? n) (forest_parents f)) as [[x up]|] eqn:E;
    [|discriminate].
  subst up.
  destruct (parent_is_earlier _ [] n x p (parents_first_forest f []) E) as [[]|Hlt].
  exact Hlt.
Qed.

Lemma isNodeInside_loop_sound f a : forall fuel cur,
  isNodeInside_loop fuel f a cur = true -> exists n, cur = Some n /\ inside f a n.
Proof.
  induction fuel as [|fuel IH]; intros cur H; simpl in H; [discriminate|].
  destruct cur as [c|]; [|discriminate].
  exists c. split; [reflexivity|].
  destruct (c =? a) eqn:Hca.
  - apply Nat.eqb_eq in Hca. subst. constructor.
  - destruct (IH _ H) as (p & Hp & Hin). econstructor; eassumption.
Qed.

Lemma isNodeInside_loop_complete f a n :
  inside f a n ->
  forall fuel, index_of n (forest_parents f) < fuel ->
  isNodeInside_loop fuel f a (Some n) = true.
Proof.
  induction 1 as [|n p Hp Hin IH]; intros fuel Hfuel.
  - destruct fuel; [lia|]. simpl. rewrite Nat.eqb_refl. reflexivity.
  - destruct fuel; [lia|]. simpl.
    destruct (n =? a); [reflexivity|].
    rewrite Hp. apply IH. pose proof (parentNode_rank f n p Hp). lia.
Qed.

(** The loop of [isNodeInside] decides containment. *)
Lemma isNodeInside_spec f a n :
  isNodeInside f a (Some n) = true <-> inside f a n.
Proof.
  split.
  - unfold isNodeInside. intros H.
    destruct (isNodeInside_loop_sound _ _ _ _ H) as (m & Hm & Hin).
    injection Hm as <-. exact Hin.
  - intros H. unfold isNodeInside.
    apply isNodeInside_loop_complete; [exact H|].
    pose proof (index_of_le n (forest_parents f)). lia.
Qed.

Lemma inside_any_spec f roots n :
  existsb (fun root => isNodeInside f root (Some n)) roots = true
  <-> exists r, In r roots /\ inside f r n.
Proof.
  rewrite existsb_exists. split; intros (r & Hr & H); exists r; split; trivial;
    apply isNodeInside_spec; exact H.
Qed.

Lemma selected_text_of_qualifying s f roots S :
  qualifying_selection f roots (selection s) S ->
  selected_text
    (fun cac => existsb (fun root => isNodeInside f root (Some cac)) roots) s = S.
Proof.
  intros H. unfold selected_text, rangeCount.
  destruct H as [Hn | so Hs Hr | so rg rest Hs Hr Hout | so rg rest r Hs Hr Hin Hins].
  - rewrite Hn. reflexivity.
  - rewrite Hs, Hr. reflexivity.
  - rewrite Hs, Hr. cbn [List.length Nat.ltb Nat.leb].
    destruct (existsb _ roots) eqn:E; [|reflexivity].
    apply inside_any_spec in E. destruct E as (r & Hr' & Hi).
    exfalso. exact (Hout r Hr' Hi).
  - rewrite Hs, Hr. cbn [List.length Nat.ltb Nat.leb].
    assert (E : existsb (fun root => isNodeInside f root
                           (Some (commonAncestorContainer rg))) roots = true)
      by (apply inside_any_spec; exists r; split; assumption).
    rewrite E. reflexivity.
Qed.

Lemma selected_text_ext inside1 inside2 s :
  (forall n, inside1 n = inside2 n) ->
  selected_text inside1 s = selected_text inside2 s.
Proof.
  intros H. unfold selected_text. destruct (selection s) as [so|]; [|reflexivity].
  destruct (0 <? rangeCount so); [|reflexivity].
  destruct (ranges so); [reflexivity|]. rewrite H. reflexivity.
Qed.

(** ** Reading a text back *)

Lemma find_subtrees_update n g t :
  (forall x, ref_of (g x) = ref_of x) ->
  find (fun x => ref_of x =? n) (subtrees (update_at n g t))
  = option_map g (find (fun x => ref_of x =? n) (subtrees t)).
Proof.
  intros Hg. induction t as [r d|r e kids IH] using node_ind'.
  - simpl. destruct (r =? n) eqn:E.
    + destruct (subtrees_head (g (Text r d))) as [l ->]. simpl.
      rewrite Hg. simpl. rewrite E. reflexivity.
    + simpl. rewrite E. reflexivity.
  - cbn [update_at ref_of]. destruct (r =? n) eqn:E.
    + destruct (subtrees_head (g (Elem r e kids))) as [l ->].
      rewrite subtrees_elem. simpl. rewrite Hg. simpl. rewrite E. reflexivity.
    + rewrite !subtrees_elem. simpl. rewrite E.
      induction kids as [|k kids IHk]; [reflexivity|].
      inversion IH as [|? ? Hk Hrest]; subst. simpl.
      destruct (find (fun x => ref_of x =? n) (subtrees k)) as [x|] eqn:Ek.
      * rewrite (find_app_some _ _ _ _ Ek).
        simpl in Hk. rewrite (find_app_some _ _ _ _ Hk). reflexivity.
      * rewrite (find_app_none _ _ _ Ek).
        simpl in Hk. rewrite (find_app_none _ _ _ Hk). apply IHk. exact Hrest.
Qed.

Lemma find_node_update n g f :
  (forall x, ref_of (g x) = ref_of x) ->
  find_node (List.map (update_at n g) f) n = option_map g (find_node f n).
Proof.
  intros Hg. unfold find_node, forest_subtrees.
  induction f as [|t f IH]; [reflexivity|]. simpl.
  pose proof (find_subtrees_update n g t Hg) as Ht.
  destruct (find (fun x => ref_of x =? n) (subtrees t)) as [x|] eqn:Et.
  - rewrite (find_app_some _ _ _ _ Et), (find_app_some _ _ _ _ Ht). reflexivity.
  - rewrite (find_app_none _ _ _ Et), (find_app_none _ _ _ Ht). exact IH.
Qed.

Lemma ref_of_put_text fresh str x : ref_of (put_text fresh str x) = ref_of x.
Proof. destruct x; reflexivity. Qed.

Lemma textContent_put_text fresh str x : textContent (put_text fresh str x) = str.
Proof.
  destruct x as [r d|r e kids]; simpl; [reflexivity|].
  destruct str; [reflexivity|]. simpl. rewrite app_nil_r. reflexivity.
Qed.

Lemma forest_setTextContent c str s :
  forest (dom_setTextContent c str s)
  = List.map (update_at c (put_text (next_ref s) str)) (forest s).
Proof.
  unfold dom_setTextContent. rewrite forest_dom_update; [reflexivity|].
  intros x. apply isElement_put_text.
Qed.

Lemma text_of_setTextContent s c str :
  find_node (forest s) c <> None ->
  text_of (dom_setTextContent c str s) c = str.
Proof.
  intros Hc. unfold text_of. rewrite forest_setTextContent.
  rewrite find_node_update by (intros x; apply ref_of_put_text).
  destruct (find_node (forest s) c) as [t|]; [|contradiction].
  simpl. apply textContent_put_text.
Qed.

Lemma getElementById_found i d det c :
  getElementById i d = Some c -> find_node (d :: det) c <> None.
Proof.
  unfold getElementById, find_node, forest_subtrees. intros H. simpl.
  destruct (find (has_id i) (subtrees d)) as [x|] eqn:E; [|discriminate].
  simpl in H. injection H as <-.
  apply find_some in E. destruct E as [Hin _].
  destruct (find (fun t => ref_of t =? ref_of x) (subtrees d)) as [y|] eqn:F.
  - rewrite (find_app_some _ _ _ _ F). discriminate.
  - pose proof (find_none _ _ F x Hin) as Hx. simpl in Hx.
    rewrite Nat.eqb_refl in Hx. discriminate.
Qed.

Lemma forest_refresh_roots s : forest (refresh_roots s) = forest s.
Proof. unfold refresh_roots. destruct (_ =? 0); reflexivity. Qed.

Lemma selection_refresh_roots s : selection (refresh_roots s) = selection s.
Proof. unfold refresh_roots. destruct (_ =? 0); reflexivity. Qed.

Lemma floating_counter_present s :
  find_node (forest (snd (floating_measured s))) (fst (floating_measured s)) <> None.
Proof.
  unfold floating_measured.
  pose proof (floating_ensure_twice (record CallRender s)) as H.
  destruct (Floating.ensureFloatingCounter (record CallRender s)) as [c s1].
  destruct H as [_ H]. simpl. rewrite forest_refresh_roots.
  apply (getElementById_found _ _ _ _ H).
Qed.

(** [updateCounter], seen from the state in which it measures. *)
Lemma floating_updateCounter_measured s :
  Floating.updateCounter s =
  let c := fst (floating_measured s) in
  let s2 := snd (floating_measured s) in
  if List.length (contentRoots s2) =? 0 then dom_setTextContent c msg_zero s2
  else
    dom_setTextContent c
      (rendered
         (selected_text
            (fun cac => existsb (fun root => isNodeInside (forest s2) root (Some cac))
                                (contentRoots s2)) s2)
         (full_text s2 (contentRoots s2))) s2.
Proof.
  unfold Floating.updateCounter, floating_measured.
  destruct (Floating.ensureFloatingCounter (record CallRender s)) as [c s1].
  cbv zeta. cbn [fst snd].
  destruct (List.length (contentRoots (refresh_roots s1)) =? 0); [reflexivity|].
  unfold rendered, full_text, countChars.
  destruct (0 <? js_length _); reflexivity.
Qed.

Lemma msg_zero_total : msg_zero = msg_total 0.
Proof. reflexivity. Qed.

Lemma qualifying_no_roots f sel S : qualifying_selection f [] sel S -> S = [].
Proof.
  intros H. destruct H as [| | |so rg rest r _ _ Hin _]; try reflexivity.
  destruct Hin.
Qed.

Lemma floating_render_text s S :
  let c := fst (floating_measured s) in
  let s2 := snd (floating_measured s) in
  qualifying_selection (forest s2) (contentRoots s2) (selection s2) S ->
  text_of (Floating.updateCounter s) c = rendered S (full_text s2 (contentRoots s2)).
Proof.
  intros c s2 HS. rewrite floating_updateCounter_measured. cbv zeta.
  fold c s2. pose proof (floating_counter_present s) as Hc. fold c s2 in Hc.
  destruct (List.length (contentRoots s2) =? 0) eqn:E.
  - rewrite text_of_setTextContent by exact Hc.
    apply Nat.eqb_eq in E. apply length_zero_iff_nil in E.
    rewrite E in HS |- *. rewrite (qualifying_no_roots _ _ _ HS). reflexivity.
  - rewrite text_of_setTextContent by exact Hc.
    rewrite (selected_text_of_qualifying _ _ _ _ HS). reflexivity.
Qed.

Lemma inline_render_text s root counter S :
  find_node (forest s) counter <> None ->
  qualifying_selection (forest s) [root] (selection s) S ->
  text_of (Inline.update root counter s) counter = rendered S (text_of s root).
Proof.
  intros Hc HS.
  assert (Hsel : selected_text
             (fun cac => isNodeInside (forest s) root (Some cac)) s = S).
  { rewrite <- (selected_text_of_qualifying s (forest s) [root] S HS).
    apply selected_text_ext. intros n. simpl. rewrite orb_false_r. reflexivity. }
  unfold Inline.update. cbv zeta.
  change (selected_text
            (fun cac => isNodeInside (forest (record CallRender s)) root (Some cac))
            (record CallRender s))
    with (selected_text (fun cac => isNodeInside (forest s) root (Some cac)) s).
  rewrite Hsel.
  change (text_of (record CallRender s) root) with (text_of s root).
  unfold rendered, countChars.
  destruct (0 <? js_length S);
    apply (text_of_setTextContent (record CallRender s)); exact Hc.
Qed.

(** ** C1: the rendered text *)

(** C1 (as amended). For every root set with concatenated text [T] and
    counted selection string [S], the render routine sets the counter's text
    to "選択中: len(S) 文字 / ページ全体: len(T) 文字" when [S] is not empty
    and to "ページ全体: len(T) 文字" when it is: in the floating variant for
    the cached root set joined by newlines, in the inline variant for the
    one root of the counter. *)
Theorem render_text_of_source :
  (forall s S,
      let c := fst (floating_measured s) in
      let s2 := snd (floating_measured s) in
      qualifying_selection (forest s2) (contentRoots s2) (selection s2) S ->
      text_of (Floating.updateCounter s) c
      = rendered S (full_text s2 (contentRoots s2)))
  /\ (forall s root counter S,
        find_node (forest s) counter <> None ->
        qualifying_selection (forest s) [root] (selection s) S ->
        text_of (Inline.update root counter s) counter
        = rendered S (text_of s root)).
Proof.
  split.
  - exact floating_render_text.
  - exact inline_render_text.
Qed.

Lemma ex_inside_qualifies :
  qualifying_selection
    (forest (snd (floating_measured (ex_page (Some ex_sel_inside)))))
    (contentRoots (snd (floating_measured (ex_page (Some ex_sel_inside)))))
    (selection (snd (floating_measured (ex_page (Some ex_sel_inside)))))
    (js_of_string "hello").
Proof.
  apply (QS_inside _ _ _ ex_sel_inside (mkRange 2) [] 1); try reflexivity.
  - left. reflexivity.
  - apply (inside_up _ _ 2 1); [reflexivity | apply inside_self].
Defined.

Lemma render_text_of_source_witness :
  text_of (Floating.updateCounter (ex_page (Some ex_sel_inside))) 5
  = msg_selected 5 11.
Proof.
  exact (proj1 render_text_of_source (ex_page (Some ex_sel_inside))
           (js_of_string "hello") ex_inside_qualifies).
Defined.

(** C1 fails as worded: on the example page the counter reads
    "ページ全体: 11 文字", not "Document total: 11 characters", and with
    "hello" selected it reads "選択中: 5 文字 / ページ全体: 11 文字", not
    "Selected: 5 characters / Document total: 11 characters". *)
Lemma render_text_not_spec_wording :
  (let s := ex_page None in
   let c := fst (floating_measured s) in
   let s2 := snd (floating_measured s) in
   qualifying_selection (forest s2) (contentRoots s2) (selection s2) []
   /\ full_text s2 (contentRoots s2) = js_of_string "hello world"
   /\ text_of (Floating.updateCounter s) c = msg_total 11
   /\ text_of (Floating.updateCounter s) c
      <> spec_rendered [] (js_of_string "hello world"))
  /\ (let s := ex_page (Some ex_sel_inside) in
      let c := fst (floating_measured s) in
      let s2 := snd (floating_measured s) in
      qualifying_selection (forest s2) (contentRoots s2) (selection s2)
        (js_of_string "hello")
      /\ text_of (Floating.updateCounter s) c = msg_selected 5 11
      /\ text_of (Floating.updateCounter s) c
         <> spec_rendered (js_of_string "hello") (js_of_string "hello world")).
Proof.
  split.
  - cbv zeta. split; [apply QS_null; reflexivity|].
    split; [reflexivity|]. split; [reflexivity|].
    vm_compute. discriminate.
  - cbv zeta. split; [exact ex_inside_qualifies|].
    split; [reflexivity|]. vm_compute. discriminate.
Qed.

(** ** C3: a selection outside the roots *)

Lemma ensure_set_selection x s :
  Floating.ensureFloatingCounter (set_selection x s)
  = (fst (Floating.ensureFloatingCounter s),
     set_selection x (snd (Floating.ensureFloatingCounter s))).
Proof.
  unfold Floating.ensureFloatingCounter.
  change (doc (set_selection x s)) with (doc s).
  destruct (getElementById Floating.COUNTER_ID (doc s)); reflexivity.
Qed.

Lemma refresh_set_selection x s :
  refresh_roots (set_selection x s) = set_selection x (refresh_roots s).
Proof.
  unfold refresh_roots.
  change (contentRoots (set_selection x s)) with (contentRoots s).
  destruct (List.length (contentRoots s) =? 0); reflexivity.
Qed.

Lemma measured_set_selection x s :
  floating_measured (set_selection x s)
  = (fst (floating_measured s), set_selection x (snd (floating_measured s))).
Proof.
  unfold floating_measured.
  change (record CallRender (set_selection x s))
    with (set_selection x (record CallRender s)).
  rewrite ensure_set_selection.
  destruct (Floating.ensureFloatingCounter (record CallRender s)) as [c s1].
  simpl. rewrite refresh_set_selection. reflexivity.
Qed.

Lemma setTextContent_set_selection c str x s :
  dom_setTextContent c str (set_selection x s)
  = set_selection x (dom_setTextContent c str s).
Proof.
  unfold dom_setTextContent, dom_update, doc. simpl.
  destruct (body_ref s =? c); [|reflexivity].
  reflexivity.
Qed.

(** C3. When the common ancestor container of the selection's first range
    is inside none of the roots, the render routine writes the no-selection
    text, whatever the selection's string is, and the run is the run without
    any selection. *)
Theorem outside_selection_not_counted (s : state) (so : selection_obj)
    (rg : range) (rest : list range) :
  let c := fst (floating_measured s) in
  let s2 := snd (floating_measured s) in
  selection s = Some so ->
  ranges so = rg :: rest ->
  (forall r, In r (contentRoots s2) ->
             ~ inside (forest s2) r (commonAncestorContainer rg)) ->
  text_of (Floating.updateCounter s) c
  = msg_total (js_length (full_text s2 (contentRoots s2)))
  /\ Floating.updateCounter (set_selection None s)
     = set_selection None (Floating.updateCounter s).
Proof.
  intros c s2 Hsel Hrg Hout.
  assert (Hsel2 : selection s2 = Some so).
  { unfold s2, floating_measured.
    pose proof (ensure_set_selection (selection s) (record CallRender s)) as E.
    destruct (Floating.ensureFloatingCounter (record CallRender s)) as [c1 s1] eqn:E1.
    simpl. rewrite selection_refresh_roots.
    unfold Floating.ensureFloatingCounter in E1.
    destruct (getElementById Floating.COUNTER_ID (doc (record CallRender s)));
      injection E1 as <- <-; exact Hsel. }
  assert (HS : qualifying_selection (forest s2) (contentRoots s2) (selection s2) [])
    by (apply (QS_outside _ _ _ so rg rest); assumption).
  split.
  - exact (floating_render_text s [] HS).
  - rewrite !floating_updateCounter_measured. cbv zeta.
    rewrite measured_set_selection. cbn [fst snd]. fold c s2.
    change (contentRoots (set_selection None s2)) with (contentRoots s2).
    rewrite (selected_text_of_qualifying _ _ _ _ HS).
    destruct (List.length (contentRoots s2) =? 0);
      rewrite setTextContent_set_selection; reflexivity.
Qed.

Lemma outside_selection_not_counted_witness :
  text_of (Floating.updateCounter (ex_page (Some ex_sel_outside))) 5 = msg_total 11
  /\ Floating.updateCounter (set_selection None (ex_page (Some ex_sel_outside)))
     = set_selection None (Floating.updateCounter (ex_page (Some ex_sel_outside))).
Proof.
  apply (outside_selection_not_counted (ex_page (Some ex_sel_outside))
           ex_sel_outside (mkRange 4) []); try reflexivity.
  intros r [<-|[]] Hin.
  apply isNodeInside_spec in Hin. vm_compute in Hin. discriminate.
Defined.

Lemma findContentRoots_first_match_witness :
  fst (call_findContentRoots (ex_page None)) = [1].
Proof.
  apply (proj1 (findContentRoots_first_match (ex_page None))
           [sel_testid] sel_wiki [sel_page_content; sel_content_main]).
  - reflexivity.
  - intros x [<-|[]]. reflexivity.
  - vm_compute. discriminate.
Defined.

Lemma deactivate_drains_once_witness :
  let s := Floating.activate (ex_page None) in
  observer s = Some 0
  /\ ~ In 0 (observing (deactivate s))
  /\ log (deactivate s) = log s ++ [CallCleanup (RemoveCounter 5);
                                    CallCleanup RemoveDocumentListeners]
  /\ doc s <> doc (ex_page None) /\ listeners s <> []
  /\ doc (deactivate s) = doc (ex_page None)
  /\ listeners (deactivate s) = [].
Proof.
  cbv zeta.
  pose proof (deactivate_drains_once (Floating.activate (ex_page None)))
    as (_ & Hobs & _ & Hlog & Hfor & Hlis & _).
  split; [reflexivity|]. split; [apply Hobs; reflexivity|].
  split; [exact Hlog|].
  split; [vm_compute; discriminate|]. split; [vm_compute; discriminate|].
  split.
  - destruct (forest_doc_detached _ _ Hfor) as [Hd _]. rewrite Hd.
    vm_compute. reflexivity.
  - rewrite Hlis. vm_compute. reflexivity.
Defined.

(** ** C2: one refresh per batch *)

Lemma fold_flag (q : ref -> bool) l : forall acc : bool,
  fold_left (fun (flag : bool) (n : ref) => if q n then true else flag) l acc
  = acc || existsb q l.
Proof.
  induction l as [|n l IH]; intros acc; simpl.
  - rewrite orb_false_r. reflexivity.
  - rewrite IH. destruct (q n), acc; reflexivity.
Qed.

Lemma batch_flag_spec (q : ref -> bool) batch :
  batch_flag q batch = true
  <-> exists m n, In m batch /\ In n (addedNodes m) /\ q n = true.
Proof.
  unfold batch_flag.
  assert (H : forall acc : bool,
    fold_left (fun flag m =>
      fold_left (fun (flag : bool) (n : ref) => if q n then true else flag)
        (addedNodes m) flag) batch acc
    = acc || existsb (fun m => existsb q (addedNodes m)) batch).
  { induction batch as [|m batch IH]; intros acc; simpl.
    - rewrite orb_false_r. reflexivity.
    - rewrite IH, fold_flag, orb_assoc. reflexivity. }
  rewrite H. simpl. rewrite existsb_exists. split.
  - intros (m & Hm & Hex). apply existsb_exists in Hex.
    destruct Hex as (n & Hn & Hq). exists m, n. auto.
  - intros (m & n & Hm & Hn & Hq). exists m. split; [exact Hm|].
    apply existsb_exists. exists n. auto.
Qed.

Lemma querySelector_spec sel t :
  (exists r, querySelector sel t = Some r)
  <-> exists d, In d (descendants t) /\ node_matches sel d = true.
Proof.
  unfold querySelector, querySelectorAll. split.
  - intros [r H].
    destruct (filter (node_matches sel) (descendants t)) as [|d l] eqn:E;
      [discriminate|].
    assert (Hd : In d (filter (node_matches sel) (descendants t)))
      by (rewrite E; left; reflexivity).
    apply filter_In in Hd. exists d. exact Hd.
  - intros (d & Hin & Hm).
    assert (Hd : In d (filter (node_matches sel) (descendants t)))
      by (apply filter_In; split; assumption).
    destruct (filter (node_matches sel) (descendants t)) as [|x l]; [destruct Hd|].
    exists (ref_of x). reflexivity.
Qed.

Lemma has_match_spec sel t :
  node_matches sel t
  || match querySelector sel t with Some _ => true | None => false end = true
  <-> matches_or_contains sel t.
Proof.
  unfold matches_or_contains. rewrite orb_true_iff, <- querySelector_spec.
  split; (intros [H|H]; [left; exact H | right]).
  - destruct (querySelector sel t) as [r|]; [exists r; reflexivity | discriminate].
  - destruct H as [r ->]. reflexivity.
Qed.

Lemma floating_qualifies_spec s batch :
  batch_flag (Floating.qualifies s) batch = true
  <-> batch_has_match [content_group] s batch.
Proof.
  rewrite batch_flag_spec. unfold batch_has_match, Floating.qualifies. split.
  - intros (m & n & Hm & Hn & Hq).
    destruct (find_node (forest s) n) as [t|] eqn:Et; [|discriminate].
    destruct (isElement t) eqn:El; [|discriminate].
    exists m, n, t, content_group. repeat split; trivial.
    + left. reflexivity.
    + apply has_match_spec. exact Hq.
  - intros (m & n & t & sel & Hm & Hn & Ht & El & [<-|[]] & Hmc).
    exists m, n. repeat split; trivial. rewrite Ht, El.
    apply has_match_spec. exact Hmc.
Qed.

Lemma anchored_qualifies_spec s batch :
  batch_flag (Anchored.qualifies s) batch = true
  <-> batch_has_match [content_group; Anchored.version_anchor] s batch.
Proof.
  rewrite batch_flag_spec. unfold batch_has_match, Anchored.qualifies. split.
  - intros (m & n & Hm & Hn & Hq).
    destruct (find_node (forest s) n) as [t|] eqn:Et; [|discriminate].
    destruct (isElement t) eqn:El; [|discriminate].
    rewrite <- !orb_assoc in Hq. rewrite orb_assoc in Hq.
    apply orb_true_iff in Hq. destruct Hq as [Hq|Hq].
    + exists m, n, t, content_group. repeat split; trivial.
      * left. reflexivity.
      * apply has_match_spec. exact Hq.
    + exists m, n, t, Anchored.version_anchor. repeat split; trivial.
      * right. left. reflexivity.
      * apply has_match_spec. exact Hq.
  - intros (m & n & t & sel & Hm & Hn & Ht & El & Hsel & Hmc).
    exists m, n. repeat split; trivial. rewrite Ht, El.
    apply has_match_spec in Hmc.
    rewrite <- !orb_assoc. rewrite orb_assoc. apply orb_true_iff.
    destruct Hsel as [<-|[<-|[]]]; [left | right]; exact Hmc.
Qed.

Lemma log_refresh_roots s :
  log (refresh_roots s)
  = log s ++ (if List.length (contentRoots s) =? 0 then [CallFindContentRoots] else []).
Proof.
  unfold refresh_roots. destruct (_ =? 0); simpl; [reflexivity|].
  rewrite app_nil_r. reflexivity.
Qed.

Lemma floating_ensure_frame s :
  let s1 := snd (Floating.ensureFloatingCounter s) in
  log s1 = log s /\ contentRoots s1 = contentRoots s /\ selection s1 = selection s
  /\ listeners s1 = listeners s /\ observing s1 = observing s
  /\ observer s1 = observer s /\ next_observer s1 = next_observer s
  /\ has_window s1 = has_window s.
Proof.
  unfold Floating.ensureFloatingCounter.
  destruct (getElementById Floating.COUNTER_ID (doc s)); simpl; repeat split.
Qed.

Lemma floating_log_updateCounter s :
  log (Floating.updateCounter s)
  = log s ++ CallRender
      :: (if List.length (contentRoots s) =? 0 then [CallFindContentRoots] else []).
Proof.
  rewrite floating_updateCounter_measured. cbv zeta.
  assert (H : log (snd (floating_measured s))
              = log s ++ CallRender
                  :: (if List.length (contentRoots s) =? 0
                      then [CallFindContentRoots] else [])).
  { unfold floating_measured.
    pose proof (floating_ensure_frame (record CallRender s)) as F.
    destruct (Floating.ensureFloatingCounter (record CallRender s)) as [c s1].
    simpl in F. destruct F as (Hl & Hr & _). cbn [snd].
    rewrite log_refresh_roots, Hl, Hr. simpl. rewrite <- app_assoc. reflexivity. }
  destruct (List.length (contentRoots (snd (floating_measured s))) =? 0);
    (etransitivity; [|exact H]); frame.
Qed.

Lemma anchored_ensure_frame s :
  let s1 := snd (Anchored.ensureCounterElement s) in
  log s1 = log s /\ contentRoots s1 = contentRoots s.
Proof.
  unfold Anchored.ensureCounterElement.
  destruct (getElementById Anchored.COUNTER_ID (doc s)); [split; reflexivity|].
  destruct (Anchored.findSystemVersionElement (doc s)); [|split; reflexivity].
  destruct (negb (Anchored.has_parentElement s r)); [split; reflexivity|].
  cbn [snd]. split; frame.
Qed.

Lemma anchored_log_updateCounter s :
  log (Anchored.updateCounter s)
  = log s ++ CallRender
      :: (if List.length (contentRoots s) =? 0 then [CallFindContentRoots] else []).
Proof.
  unfold Anchored.updateCounter.
  pose proof (anchored_ensure_frame (refresh_roots (record CallRender s))) as F.
  destruct (Anchored.ensureCounterElement (refresh_roots (record CallRender s)))
    as [[c|] s1]; cbn [snd] in F; destruct F as [Hl Hr].
  - assert (H : log s1 = log s ++ CallRender
                  :: (if List.length (contentRoots s) =? 0
                      then [CallFindContentRoots] else [])).
    { rewrite Hl, log_refresh_roots. simpl. rewrite <- app_assoc. reflexivity. }
    destruct (List.length (contentRoots s1) =? 0);
      [|destruct (0 <? js_length _)]; (etransitivity; [|exact H]); frame.
  - rewrite Hl, log_refresh_roots. simpl. rewrite <- app_assoc. reflexivity.
Qed.

(** C2 (as amended). In the floating and the anchored variant, a batch in
    which some added element matches a watched selector, or contains a
    match, makes the callback assign the root set from the locator once and
    call the render routine once, however many records and nodes match; the
    render routine queries the locator a second time exactly when that
    assignment found no root.  A batch without such a node changes nothing. *)
Theorem observer_batch_refreshes_once (batch : list mutation) (s : state) :
  (batch_has_match [content_group] s batch ->
     log (Floating.observerCallback batch s)
     = log s ++ CallFindContentRoots :: CallRender
         :: (if List.length (findContentRoots (doc s)) =? 0
             then [CallFindContentRoots] else []))
  /\ (~ batch_has_match [content_group] s batch ->
      Floating.observerCallback batch s = s)
  /\ (batch_has_match [content_group; Anchored.version_anchor] s batch ->
      log (Anchored.observerCallback batch s)
      = log s ++ CallFindContentRoots :: CallRender
          :: (if List.length (findContentRoots (doc s)) =? 0
              then [CallFindContentRoots] else []))
  /\ (~ batch_has_match [content_group; Anchored.version_anchor] s batch ->
      Anchored.observerCallback batch s = s).
Proof.
  split; [|split; [|split]].
  - intros H. apply floating_qualifies_spec in H.
    unfold Floating.observerCallback. rewrite H. simpl.
    rewrite floating_log_updateCounter. simpl. rewrite <- app_assoc. reflexivity.
  - intros H. unfold Floating.observerCallback.
    destruct (batch_flag (Floating.qualifies s) batch) eqn:E; [|reflexivity].
    apply floating_qualifies_spec in E. contradiction.
  - intros H. apply anchored_qualifies_spec in H.
    unfold Anchored.observerCallback. rewrite H. simpl.
    rewrite anchored_log_updateCounter. simpl. rewrite <- app_assoc. reflexivity.
  - intros H. unfold Anchored.observerCallback.
    destruct (batch_flag (Anchored.qualifies s) batch) eqn:E; [|reflexivity].
    apply anchored_qualifies_spec in E. contradiction.
Qed.

Lemma observer_batch_refreshes_once_witness :
  let s := Floating.activate (ex_page None) in
  log (Floating.observerCallback [mkMutation [1; 3]; mkMutation [1]] s)
  = log s ++ [CallFindContentRoots; CallRender].
Proof.
  apply (proj1 (observer_batch_refreshes_once [mkMutation [1; 3]; mkMutation [1]]
                  (Floating.activate (ex_page None)))).
  exists (mkMutation [1; 3]), 1,
    (Elem 1 (div ["wiki"%string]) [Text 2 (js_of_string "hello world")]),
    content_group.
  repeat split; try reflexivity; try (left; reflexivity).
Defined.

(** C2 fails as worded.  Anchored variant: the footer is inserted into a
    page without content root, and the locator runs twice for the batch.
    Floating variant: a root that was inserted and removed again before the
    callback ran gives the same.  Inline variant: two inserted roots give two
    renders and no query of the locator at all. *)
Lemma observer_batch_not_always_once :
  (batch_has_match [content_group; Anchored.version_anchor] ex_footer_page
     [mkMutation [1]]
   /\ log ex_footer_page = []
   /\ count_event CallFindContentRoots
        (log (Anchored.observerCallback [mkMutation [1]] ex_footer_page)) = 2)
  /\ (batch_has_match [content_group] ex_removed_root [mkMutation [1]]
      /\ log ex_removed_root = []
      /\ count_event CallFindContentRoots
           (log (Floating.observerCallback [mkMutation [1]] ex_removed_root)) = 2)
  /\ (batch_has_match [content_group] ex_two_roots [mkMutation [1]; mkMutation [3]]
      /\ log (Inline.observerCallback [mkMutation [1]; mkMutation [3]] ex_two_roots)
         = [CallRender; CallRender]).
Proof.
  split; [|split].
  - split; [|split; reflexivity].
    exists (mkMutation [1]), 1,
      (Elem 1 (div ["SystemVersion_system-version__ygB5P"%string]) []),
      Anchored.version_anchor.
    repeat split; try reflexivity; try (left; reflexivity).
    right. left. reflexivity.
  - split; [|split; reflexivity].
    exists (mkMutation [1]), 1,
      (Elem 1 (div ["wiki"%string]) [Text 2 (js_of_string "gone")]), content_group.
    repeat split; try reflexivity; try (left; reflexivity).
  - split; [|reflexivity].
    exists (mkMutation [1]), 1,
      (Elem 1 (div ["wiki"%string]) [Text 2 (js_of_string "one")]), content_group.
    repeat split; try reflexivity; try (left; reflexivity).
Qed.

(** ** C8: no content root *)

Lemma floating_measured_surface s : fst (floating_measured s) = floating_surface s.
Proof.
  unfold floating_measured, floating_surface, Floating.ensureFloatingCounter.
  change (doc (record CallRender s)) with (doc s).
  destruct (getElementById Floating.COUNTER_ID (doc s)); reflexivity.
Qed.

Lemma qsa_appended sel r e kids k :
  document_querySelectorAll sel (Elem r e (kids ++ [k]))
  = document_querySelectorAll sel (Elem r e kids)
    ++ List.map ref_of (filter (node_matches sel) (subtrees k)).
Proof.
  unfold document_querySelectorAll. rewrite !subtrees_elem.
  rewrite flat_map_app. cbn [flat_map]. rewrite app_nil_r. cbn [filter].
  change (node_matches sel (Elem r e (kids ++ [k])))
    with (node_matches sel (Elem r e kids)).
  destruct (node_matches sel (Elem r e kids));
    rewrite filter_app; cbn [List.map]; rewrite map_app; reflexivity.
Qed.

Lemma first_match_none sels d :
  (forall sel, In sel sels -> document_querySelectorAll sel d = []) ->
  first_match sels d = [].
Proof.
  intros H. rewrite <- (app_nil_r sels).
  rewrite first_match_skip by exact H. reflexivity.
Qed.

Lemma no_root_after_ensure s :
  (forall sel, In sel root_selectors -> document_querySelectorAll sel (doc s) = []) ->
  findContentRoots (doc (snd (Floating.ensureFloatingCounter s))) = [].
Proof.
  intros H. unfold findContentRoots. apply first_match_none.
  unfold Floating.ensureFloatingCounter.
  destruct (getElementById Floating.COUNTER_ID (doc s)); [exact H|].
  intros sel Hsel. cbn [snd].
  change (doc (push_cleanup (RemoveCounter (next_ref s))
            (body_appendChild
               (Elem (next_ref s) (mkElement "div" Floating.COUNTER_ID [] []) [])
               (set_next_ref (S (next_ref s)) s))))
    with (Elem (body_ref s) (body_el s)
            (body_kids s
             ++ [Elem (next_ref s) (mkElement "div" Floating.COUNTER_ID [] []) []])).
  rewrite qsa_appended. fold (doc s). rewrite (H sel Hsel).
  destruct Hsel as [<-|[<-|[<-|[<-|[]]]]]; reflexivity.
Qed.

Lemma floating_zero_when_empty s :
  (forall sel, In sel root_selectors -> document_querySelectorAll sel (doc s) = []) ->
  contentRoots s = [] ->
  text_of (Floating.updateCounter s) (floating_surface s) = msg_zero.
Proof.
  intros Hno Hempty. rewrite <- floating_measured_surface.
  rewrite floating_updateCounter_measured. cbv zeta.
  pose proof (floating_counter_present s) as Hc.
  assert (Hroots : contentRoots (snd (floating_measured s)) = []).
  { unfold floating_measured.
    pose proof (floating_ensure_frame (record CallRender s)) as F.
    pose proof (no_root_after_ensure (record CallRender s) Hno) as N.
    destruct (Floating.ensureFloatingCounter (record CallRender s)) as [c s1].
    cbn [snd] in *. destruct F as (_ & Hr & _).
    unfold refresh_roots. rewrite Hr. simpl. rewrite Hempty. simpl. exact N. }
  rewrite Hroots. simpl. apply text_of_setTextContent. exact Hc.
Qed.

Lemma forest_addEventListener tg ty h s : forest (addEventListener tg ty h s) = forest s.
Proof.
  unfold addEventListener.
  destruct (existsb _ (listeners s)); reflexivity.
Qed.

Lemma forest_push_cleanup fn s : forest (push_cleanup fn s) = forest s.
Proof. reflexivity. Qed.

Lemma forest_set_observer o s : forest (set_observer o s) = forest s.
Proof. reflexivity. Qed.

Lemma forest_set_observing o nxt s : forest (set_observing o nxt s) = forest s.
Proof. reflexivity. Qed.

Lemma floating_startObserveView_forest s :
  forest (Floating.startObserveView s)
  = forest (Floating.updateCounter
              (set_contentRoots (findContentRoots (doc s))
                 (record CallFindContentRoots s))).
Proof.
  unfold Floating.startObserveView, call_findContentRoots, observe_body.
  cbv beta iota zeta.
  rewrite forest_push_cleanup, !forest_addEventListener, forest_set_observer,
    forest_set_observing.
  reflexivity.
Qed.

Lemma text_of_forest s s' c : forest s = forest s' -> text_of s c = text_of s' c.
Proof. unfold text_of. intros ->. reflexivity. Qed.

(** C8 (as amended). In the floating variant, when no root selector matches
    any element of the document, a render that starts from an empty cached
    root set writes the zero total "ページ全体: 0 文字"; so do the first
    render of [activate] and the render of a batch that the observer callback
    takes up, which re-derive the root set first. *)
Theorem no_root_zero_total (s : state) :
  (forall sel, In sel root_selectors -> document_querySelectorAll sel (doc s) = []) ->
  (contentRoots s = [] ->
     text_of (Floating.updateCounter s) (floating_surface s) = msg_zero)
  /\ (has_window s = true ->
      text_of (Floating.activate s) (floating_surface s) = msg_zero)
  /\ (forall batch, batch_has_match [content_group] s batch ->
      text_of (Floating.observerCallback batch s) (floating_surface s) = msg_zero)
  /\ msg_zero = msg_total 0.
Proof.
  intros Hno.
  assert (Hre : text_of (Floating.updateCounter
                  (set_contentRoots (findContentRoots (doc s))
                     (record CallFindContentRoots s))) (floating_surface s)
                = msg_zero).
  { apply (floating_zero_when_empty
             (set_contentRoots (findContentRoots (doc s))
                (record CallFindContentRoots s))).
    - exact Hno.
    - simpl. unfold findContentRoots. apply first_match_none. exact Hno. }
  split; [|split; [|split]].
  - apply floating_zero_when_empty. exact Hno.
  - intros Hw. unfold Floating.activate. rewrite Hw. simpl.
    rewrite (text_of_forest _ _ _ (floating_startObserveView_forest s)).
    exact Hre.
  - intros batch Hb. apply floating_qualifies_spec in Hb.
    unfold Floating.observerCallback. rewrite Hb. exact Hre.
  - reflexivity.
Qed.

Lemma no_root_zero_total_witness :
  text_of (Floating.activate ex_plain_page) 5 = msg_total 0.
Proof.
  refine (proj1 (proj2 (no_root_zero_total ex_plain_page _)) eq_refl).
  intros sel [<-|[<-|[<-|[<-|[]]]]]; reflexivity.
Defined.

(** C8 fails as worded.  No root selector matches in the document of
    [ex_stale_roots], yet the floating render shows the total of the root
    that was removed; and the inline variant, activated on a page without
    content root, creates no counter at all. *)
Lemma no_root_not_always_zero :
  ((forall sel, In sel root_selectors ->
      document_querySelectorAll sel (doc ex_stale_roots) = [])
   /\ text_of (Floating.updateCounter ex_stale_roots) (floating_surface ex_stale_roots)
      = msg_total 11
   /\ msg_total 11 <> msg_zero)
  /\ ((forall sel, In sel root_selectors ->
         document_querySelectorAll sel (doc ex_plain_page) = [])
      /\ doc (Inline.activate ex_plain_page) = doc ex_plain_page
      /\ document_querySelectorAll Inline.counter_selector
           (doc (Inline.activate ex_plain_page)) = []).
Proof.
  split; split.
  - intros sel [<-|[<-|[<-|[<-|[]]]]]; reflexivity.
  - split; [reflexivity|]. vm_compute. discriminate.
  - intros sel [<-|[<-|[<-|[<-|[]]]]]; reflexivity.
  - split; reflexivity.
Qed.

(** * Further properties of the code *)

(** ** Freshness of allocated references *)

Lemma update_at_fresh n g t :
  (forall x, In x (subtrees t) -> ref_of x <> n) -> update_at n g t = t.
Proof.
  induction t as [r d|r e kids IH] using node_ind'; intros H.
  - simpl. destruct (r =? n) eqn:E; [|reflexivity].
    apply Nat.eqb_eq in E. exfalso. apply (H (Text r d)); [left; reflexivity | exact E].
  - cbn [update_at ref_of]. destruct (r =? n) eqn:E.
    + apply Nat.eqb_eq in E. exfalso.
      apply (H (Elem r e kids)); [left; reflexivity | exact E].
    + f_equal. rewrite subtrees_elem in H.
      assert (H' : forall x, In x (flat_map subtrees kids) -> ref_of x <> n)
        by (intros x Hx; apply H; right; exact Hx).
      clear H. induction kids as [|k kids IHk]; [reflexivity|].
      inversion IH as [|? ? Hk Hrest]; subst. simpl. f_equal.
      * apply Hk. intros x Hx. apply H'. simpl. apply in_or_app. left. exact Hx.
      * apply IHk; [exact Hrest|]. intros x Hx.
        apply H'. simpl. apply in_or_app. right. exact Hx.
Qed.

Lemma prune_fresh p t :
  (forall x, In x (subtrees t) -> p (ref_of x) = false) -> prune p t = t.
Proof.
  induction t as [r d|r e kids IH] using node_ind'; intros H; [reflexivity|].
  simpl. f_equal. rewrite subtrees_elem in H.
  assert (H' : forall x, In x (flat_map subtrees kids) -> p (ref_of x) = false)
    by (intros x Hx; apply H; right; exact Hx).
  clear H. induction kids as [|k kids IHk]; [reflexivity|].
  inversion IH as [|? ? Hk Hrest]; subst. simpl.
  assert (Ek : prune p k = k).
  { apply Hk. intros x Hx. apply H'. simpl. apply in_or_app. left. exact Hx. }
  rewrite Ek.
  assert (Hpk : p (ref_of k) = false).
  { apply H'. simpl. apply in_or_app. left.
    destruct (subtrees_head k) as [l ->]. left. reflexivity. }
  rewrite Hpk. simpl. f_equal.
  apply IHk; [exact Hrest|]. intros x Hx.
  apply H'. simpl. apply in_or_app. right. exact Hx.
Qed.

Lemma map_update_fresh n g kids :
  (forall x, In x (flat_map subtrees kids) -> ref_of x <> n) ->
  List.map (update_at n g) kids = kids.
Proof.
  induction kids as [|k kids IH]; intros H; [reflexivity|]. simpl. f_equal.
  - apply update_at_fresh. intros x Hx. apply H. simpl. apply in_or_app. left. exact Hx.
  - apply IH. intros x Hx. apply H. simpl. apply in_or_app. right. exact Hx.
Qed.


Lemma prune_kids_fresh p kids :
  (forall x, In x (flat_map subtrees kids) -> p (ref_of x) = false) ->
  filter (fun k => negb (p (ref_of k))) (List.map (prune p) kids) = kids.
Proof.
  induction kids as [|k kids IH]; intros H; [reflexivity|]. simpl.
  rewrite prune_fresh
    by (intros x Hx; apply H; simpl; apply in_or_app; left; exact Hx).
  assert (Hpk : p (ref_of k) = false).
  { apply H. simpl. apply in_or_app. left.
    destruct (subtrees_head k) as [l ->]. left. reflexivity. }
  rewrite Hpk. simpl. f_equal.
  apply IH. intros x Hx. apply H. simpl. apply in_or_app. right. exact Hx.
Qed.


Lemma fresh_doc s x :
  fresh_state s -> In x (subtrees (doc s)) -> ref_of x <> next_ref s.
Proof.
  intros (Hf & _) Hx.
  assert (H : ref_of x < next_ref s).
  { apply Hf. unfold refs, forest, forest_subtrees. apply in_map.
    cbn [flat_map]. apply in_or_app. left. exact Hx. }
  lia.
Qed.

Lemma fresh_detached s x :
  fresh_state s -> In x (flat_map subtrees (detached s)) -> ref_of x <> next_ref s.
Proof.
  intros (Hf & _) Hx.
  assert (H : ref_of x < next_ref s).
  { apply Hf. unfold refs, forest, forest_subtrees. apply in_map.
    cbn [flat_map]. apply in_or_app. right. exact Hx. }
  lia.
Qed.

Lemma floating_updateCounter_creates s :
  fresh_state s ->
  getElementById Floating.COUNTER_ID (doc s) = None ->
  exists txt roots lg,
    Floating.updateCounter s
    = mkState (has_window s) (body_ref s) (body_el s)
        (body_kids s
         ++ [Elem (next_ref s) (mkElement "div" Floating.COUNTER_ID [] []) txt])
        (detached s) (S (S (next_ref s))) (selection s) (listeners s)
        (observing s) (next_observer s) (observer s)
        (cleanupFns s ++ [RemoveCounter (next_ref s)]) roots lg.
Proof.
  intros Hf Hid.
  assert (Hb : (body_ref s =? next_ref s) = false).
  { apply Nat.eqb_neq. apply (fresh_doc s (doc s) Hf). left. reflexivity. }
  assert (Hk : forall g, List.map (update_at (next_ref s) g) (body_kids s) = body_kids s).
  { intros g. apply map_update_fresh. intros x Hx. apply (fresh_doc s x Hf).
    right. exact Hx. }
  assert (Hd : forall g, List.map (update_at (next_ref s) g) (detached s) = detached s).
  { intros g. apply map_update_fresh. intros x Hx. apply (fresh_detached s x Hf Hx). }
  rewrite floating_updateCounter_measured. cbv zeta.
  unfold floating_measured, Floating.ensureFloatingCounter.
  change (doc (record CallRender s)) with (doc s). rewrite Hid. cbn [fst snd].
  set (s1 := push_cleanup _ _).
  assert (Hs2 : exists roots lg,
    refresh_roots s1
    = mkState (has_window s) (body_ref s) (body_el s)
        (body_kids s
         ++ [Elem (next_ref s) (mkElement "div" Floating.COUNTER_ID [] []) []])
        (detached s) (S (next_ref s)) (selection s) (listeners s)
        (observing s) (next_observer s) (observer s)
        (cleanupFns s ++ [RemoveCounter (next_ref s)]) roots lg).
  { unfold refresh_roots. destruct (List.length (contentRoots s1) =? 0);
      eexists; eexists; reflexivity. }
  destruct Hs2 as (roots & lg & ->).
  set (X := if _ =? 0 then _ else _).
  assert (Hset : forall str, exists txt,
    dom_setTextContent (next_ref s) str
      (mkState (has_window s) (body_ref s) (body_el s)
        (body_kids s
         ++ [Elem (next_ref s) (mkElement "div" Floating.COUNTER_ID [] []) []])
        (detached s) (S (next_ref s)) (selection s) (listeners s)
        (observing s) (next_observer s) (observer s)
        (cleanupFns s ++ [RemoveCounter (next_ref s)]) roots lg)
    = mkState (has_window s) (body_ref s) (body_el s)
        (body_kids s
         ++ [Elem (next_ref s) (mkElement "div" Floating.COUNTER_ID [] []) txt])
        (detached s) (S (S (next_ref s))) (selection s) (listeners s)
        (observing s) (next_observer s) (observer s)
        (cleanupFns s ++ [RemoveCounter (next_ref s)]) roots lg).
  { intros str. unfold dom_setTextContent, dom_update, doc.
    cbn [body_ref body_el body_kids detached set_next_ref next_ref update_at ref_of].
    rewrite Hb, map_app, Hk, Hd. cbn [List.map update_at ref_of].
    rewrite Nat.eqb_refl. cbn [put_text set_dom]. eexists. reflexivity. }
  subst X. destruct (_ =? 0).
  - destruct (Hset msg_zero) as [txt E]. exists txt, roots, lg.
    rewrite <- E. reflexivity.
  - match goal with |- context [dom_setTextContent _ ?str _] =>
      destruct (Hset str) as [txt E] end.
    exists txt, roots, lg. rewrite <- E. reflexivity.
Qed.

(** ** Activation followed by deactivation (floating variant) *)

Lemma listener_eqb_refl x : listener_eqb x x = true.
Proof.
  destruct x as [tg ty h]. unfold listener_eqb. simpl.
  assert (Ht : target_eqb tg tg = true)
    by (destruct tg; simpl; [reflexivity | apply Nat.eqb_refl]).
  assert (Hy : type_eqb ty ty = true) by (destruct ty; reflexivity).
  assert (Hh : handler_eqb h h = true).
  { destruct h; simpl;
      [reflexivity | rewrite !Nat.eqb_refl; reflexivity | apply Nat.eqb_refl]. }
  rewrite Ht, Hy, Hh. reflexivity.
Qed.

Lemma handler_eqb_eq a b : handler_eqb a b = true -> a = b.
Proof.
  destruct a, b; simpl; try discriminate; intros H.
  - reflexivity.
  - apply andb_true_iff in H. destruct H as [H1 H2].
    apply Nat.eqb_eq in H1, H2. subst. reflexivity.
  - apply Nat.eqb_eq in H. subst. reflexivity.
Qed.

Lemma existsb_other_handler l L :
  (forall y, In y L -> l_handler y <> l_handler l) ->
  existsb (listener_eqb l) L = false.
Proof.
  intros H. destruct (existsb (listener_eqb l) L) eqn:E; [|reflexivity].
  apply existsb_exists in E. destruct E as (y & Hy & Heq).
  unfold listener_eqb in Heq. apply andb_true_iff in Heq. destruct Heq as [_ Hh].
  apply handler_eqb_eq in Hh. exfalso. apply (H y Hy). symmetry. exact Hh.
Qed.

Lemma remove_first_app x L R :
  existsb (listener_eqb x) L = false ->
  remove_first x (L ++ x :: R) = L ++ R.
Proof.
  induction L as [|y L IH]; simpl; intros H.
  - rewrite listener_eqb_refl. reflexivity.
  - apply orb_false_iff in H. destruct H as [Hy HL].
    rewrite Hy. f_equal. apply IH. exact HL.
Qed.

Lemma filter_fresh_observer obs o :
  (forall x, In x obs -> x < o) ->
  filter (fun x => negb (x =? o)) (obs ++ [o]) = obs.
Proof.
  intros H. rewrite filter_app. simpl. rewrite Nat.eqb_refl. simpl.
  rewrite app_nil_r. induction obs as [|x obs IH]; [reflexivity|]. simpl.
  assert (Hx : (x =? o) = false).
  { apply Nat.eqb_neq. pose proof (H x (or_introl eq_refl)). lia. }
  rewrite Hx. simpl. f_equal. apply IH. intros y Hy. apply H. right. exact Hy.
Qed.

(** The state operations on a state given by its fields. *)
Section on_fields.
Variables (w : bool) (b : ref) (e : element) (k det : list node) (nr : ref)
  (sl : option selection_obj) (L : list listener) (obs : list nat) (no : nat)
  (ov : option nat) (fns : list cleanup) (cr : list ref) (lg : list event).

Lemma set_observing_mk o n :
  set_observing o n (mkState w b e k det nr sl L obs no ov fns cr lg)
  = mkState w b e k det nr sl L o n ov fns cr lg.
Proof. reflexivity. Qed.

Lemma set_observer_mk o :
  set_observer o (mkState w b e k det nr sl L obs no ov fns cr lg)
  = mkState w b e k det nr sl L obs no o fns cr lg.
Proof. reflexivity. Qed.

Lemma set_cleanupFns_mk c :
  set_cleanupFns c (mkState w b e k det nr sl L obs no ov fns cr lg)
  = mkState w b e k det nr sl L obs no ov c cr lg.
Proof. reflexivity. Qed.

Lemma set_contentRoots_mk r :
  set_contentRoots r (mkState w b e k det nr sl L obs no ov fns cr lg)
  = mkState w b e k det nr sl L obs no ov fns r lg.
Proof. reflexivity. Qed.

Lemma push_cleanup_mk fn :
  push_cleanup fn (mkState w b e k det nr sl L obs no ov fns cr lg)
  = mkState w b e k det nr sl L obs no ov (fns ++ [fn]) cr lg.
Proof. reflexivity. Qed.

Lemma record_mk ev :
  record ev (mkState w b e k det nr sl L obs no ov fns cr lg)
  = mkState w b e k det nr sl L obs no ov fns cr (lg ++ [ev]).
Proof. reflexivity. Qed.

Lemma disconnect_mk o :
  disconnect o (mkState w b e k det nr sl L obs no ov fns cr lg)
  = mkState w b e k det nr sl L (filter (fun x => negb (x =? o)) obs) no ov fns cr lg.
Proof. reflexivity. Qed.

Lemma observe_body_mk :
  observe_body (mkState w b e k det nr sl L obs no ov fns cr lg)
  = (no, mkState w b e k det nr sl L (obs ++ [no]) (S no) ov fns cr lg).
Proof. reflexivity. Qed.

Lemma addEventListener_mk tg ty h :
  existsb (listener_eqb (mkListener tg ty h)) L = false ->
  addEventListener tg ty h (mkState w b e k det nr sl L obs no ov fns cr lg)
  = mkState w b e k det nr sl (L ++ [mkListener tg ty h]) obs no ov fns cr lg.
Proof. intros H. unfold addEventListener. cbn [listeners]. rewrite H. reflexivity. Qed.

Lemma removeEventListener_mk tg ty h :
  removeEventListener tg ty h (mkState w b e k det nr sl L obs no ov fns cr lg)
  = mkState w b e k det nr sl (remove_first (mkListener tg ty h) L) obs no ov fns cr lg.
Proof. reflexivity. Qed.

Lemma dom_remove_mk n :
  exists gone,
    dom_remove n (mkState w b e k det nr sl L obs no ov fns cr lg)
    = mkState w b e
        (filter (fun x => negb (n =? ref_of x)) (List.map (remove_node n) k))
        (List.map (remove_node n) det ++ gone) nr sl L obs no ov fns cr lg.
Proof. eexists. reflexivity. Qed.
End on_fields.

Lemma filter_removed_last n kids c :
  (forall x, In x (flat_map subtrees kids) -> ref_of x <> n) ->
  ref_of c = n ->
  filter (fun x => negb (n =? ref_of x)) (List.map (remove_node n) (kids ++ [c]))
  = kids.
Proof.
  intros Hk Hc. rewrite map_app, filter_app.
  unfold remove_node at 1.
  rewrite (prune_kids_fresh (Nat.eqb n) kids).
  - simpl. assert (E : ref_of (remove_node n c) = n) by (destruct c; exact Hc).
    rewrite E, Nat.eqb_refl. simpl. apply app_nil_r.
  - intros x Hx. apply Nat.eqb_neq. intros E. apply (Hk x Hx). symmetry. exact E.
Qed.

Lemma floating_round_trip s :
  has_window s = true -> fresh_state s -> idle s ->
  getElementById Floating.COUNTER_ID (doc s) = None ->
  let s' := deactivate (Floating.activate s) in
  doc s' = doc s /\ listeners s' = listeners s /\ observing s' = observing s
  /\ observer s' = None /\ cleanupFns s' = [].
Proof.
  intros Hw Hf (Ho & Hc & Hl) Hid.
  assert (E0 : forall ty, existsb (listener_eqb (mkListener OnDocument ty HUpdateCounter))
                            (listeners s) = false).
  { intros ty. apply existsb_other_handler. exact Hl. }
  unfold Floating.activate. rewrite Hw. cbn [negb].
  unfold Floating.startObserveView, call_findContentRoots.
  destruct (floating_updateCounter_creates
              (set_contentRoots (findContentRoots (doc s))
                 (record CallFindContentRoots s)) Hf Hid)
    as (txt & roots & lg & HU).
  cbn [has_window body_ref body_el body_kids detached next_ref selection listeners
       observing next_observer observer cleanupFns set_contentRoots record] in HU.
  rewrite HU, Ho, Hc. clear HU.
  rewrite observe_body_mk, set_observer_mk.
  rewrite addEventListener_mk by apply E0.
  rewrite addEventListener_mk
    by (rewrite existsb_app, E0; reflexivity).
  rewrite addEventListener_mk
    by (rewrite !existsb_app, E0; reflexivity).
  rewrite push_cleanup_mk.
  unfold deactivate. cbn [observer].
  rewrite disconnect_mk, set_observer_mk. cbv zeta. cbn [cleanupFns].
  rewrite set_cleanupFns_mk.
  cbn [app fold_left run_cleanup].
  rewrite record_mk.
  destruct (dom_remove_mk (has_window s) (body_ref s) (body_el s)
              (body_kids s ++ [Elem (next_ref s)
                                 (mkElement "div" Floating.COUNTER_ID [] []) txt])
              (detached s) (S (S (next_ref s))) (selection s)
              (((listeners s ++ [mkListener OnDocument keyup HUpdateCounter])
                ++ [mkListener OnDocument mouseup HUpdateCounter])
               ++ [mkListener OnDocument selectionchange HUpdateCounter])
              (filter (fun x => negb (x =? next_observer s))
                 (observing s ++ [next_observer s]))
              (S (next_observer s)) None [] roots
              (lg ++ [CallCleanup (RemoveCounter (next_ref s))]) (next_ref s))
    as [gone ->].
  rewrite record_mk, !removeEventListener_mk.
  cbn [doc body_ref body_el body_kids listeners observing observer cleanupFns].
  rewrite filter_removed_last.
  2:{ intros x Hx. apply (fresh_doc s x Hf). right. exact Hx. }
  2:{ reflexivity. }
  rewrite filter_fresh_observer by (apply Hf).
  rewrite <- !app_assoc. cbn [app].
  rewrite remove_first_app by apply E0.
  rewrite remove_first_app by apply E0.
  rewrite (remove_first_app _ (listeners s) []) by apply E0.
  rewrite app_nil_r. repeat split.
Qed.

Lemma ex_page_fresh sel : fresh_state (ex_page sel).
Proof.
  split; [|split].
  - intros r Hr. vm_compute in Hr.
    repeat (destruct Hr as [<-|Hr]; [simpl; lia|]). destruct Hr.
  - intros l r [].
  - intros o [].
Qed.

Lemma ex_page_idle sel : idle (ex_page sel).
Proof. split; [reflexivity | split; [reflexivity | intros l []]]. Qed.

(** X1. In a browser, on a page that has no element with the floating
    counter's id, and with the plugin idle, [activate] followed by
    [deactivate] gives back the document tree, the listener table and the
    set of connected observers of before, and leaves the plugin idle. *)
Theorem floating_activate_deactivate_restores (s : state) :
  has_window s = true -> fresh_state s -> idle s ->
  getElementById Floating.COUNTER_ID (doc s) = None ->
  let s' := deactivate (Floating.activate s) in
  doc s' = doc s /\ node_count (doc s') = node_count (doc s)
  /\ listeners s' = listeners s /\ observing s' = observing s
  /\ observer s' = None /\ cleanupFns s' = [].
Proof.
  intros Hw Hf Hi Hid.
  destruct (floating_round_trip s Hw Hf Hi Hid) as (Hd & Hl & Hg & Ho & Hc).
  cbv zeta. rewrite Hd. repeat split; assumption.
Qed.

Lemma floating_activate_deactivate_restores_witness :
  doc (deactivate (Floating.activate (ex_page None))) = doc (ex_page None)
  /\ listeners (deactivate (Floating.activate (ex_page None))) = [].
Proof.
  destruct (floating_activate_deactivate_restores (ex_page None) eq_refl
              (ex_page_fresh None) (ex_page_idle None) eq_refl)
    as (Hd & _ & Hl & _).
  split; [exact Hd | exact Hl].
Defined.

(** ** The containment test, the cache of roots and the observer callback *)

(** X2. [isNodeInside(parent, node)] returns true exactly when [node] is
    [parent] or one of its descendants along [parentNode], and false for a
    null node: the walk up the parent chain always ends. *)
Theorem isNodeInside_decides_containment (f : list node) (a n : ref) :
  (isNodeInside f a (Some n) = true <-> inside f a n)
  /\ isNodeInside f a None = false.
Proof.
  split; [|reflexivity]. split.
  - unfold isNodeInside. intros H.
    destruct (isNodeInside_loop_sound _ _ _ _ H) as (m & Hm & Hin).
    injection Hm as <-. exact Hin.
  - intros H. unfold isNodeInside.
    apply isNodeInside_loop_complete; [exact H|].
    pose proof (index_of_le n (forest_parents f)). lia.
Qed.

Lemma isNodeInside_decides_containment_witness :
  isNodeInside (forest (ex_page None)) 1 (Some 2) = true.
Proof.
  apply (proj2 (proj1 (isNodeInside_decides_containment (forest (ex_page None)) 1 2))).
  apply (inside_up _ _ 2 1); [reflexivity | apply inside_self].
Defined.

Lemma floating_updateCounter_frame s :
  let s' := Floating.updateCounter s in
  listeners s' = listeners s /\ observing s' = observing s
  /\ observer s' = observer s /\ next_observer s' = next_observer s
  /\ has_window s' = has_window s /\ selection s' = selection s
  /\ contentRoots s' = contentRoots (snd (floating_measured s)).
Proof.
  rewrite floating_updateCounter_measured. cbv zeta.
  assert (H : let s2 := snd (floating_measured s) in
              listeners s2 = listeners s /\ observing s2 = observing s
              /\ observer s2 = observer s /\ next_observer s2 = next_observer s
              /\ has_window s2 = has_window s /\ selection s2 = selection s).
  { unfold floating_measured.
    pose proof (floating_ensure_frame (record CallRender s)) as F.
    destruct (Floating.ensureFloatingCounter (record CallRender s)) as [c s1].
    cbn [snd] in *. destruct F as (_ & _ & Hs & Hl & Hg & Ho & Hn & Hw).
    unfold refresh_roots. destruct (_ =? 0); cbn; repeat split; assumption. }
  cbv zeta in H. destruct H as (Hl & Hg & Ho & Hn & Hw & Hs).
  destruct (List.length (contentRoots (snd (floating_measured s))) =? 0);
    unfold dom_setTextContent, dom_update; autorewrite with frame; cbn;
    repeat split; assumption.
Qed.

Lemma floating_measured_roots s :
  contentRoots (snd (floating_measured s))
  = if List.length (contentRoots s) =? 0
    then findContentRoots (doc (snd (Floating.ensureFloatingCounter (record CallRender s))))
    else contentRoots s.
Proof.
  unfold floating_measured.
  pose proof (floating_ensure_frame (record CallRender s)) as F.
  destruct (Floating.ensureFloatingCounter (record CallRender s)) as [c s1].
  cbn [snd] in *. destruct F as (_ & Hr & _).
  unfold refresh_roots. rewrite Hr. cbn [contentRoots record].
  destruct (List.length (contentRoots s) =? 0); [reflexivity | exact Hr].
Qed.

Lemma floating_cached_roots_kept (s : state) :
  contentRoots s <> [] ->
  contentRoots (Floating.updateCounter s) = contentRoots s
  /\ log (Floating.updateCounter s) = log s ++ [CallRender].
Proof.
  intros Hne.
  assert (E : (List.length (contentRoots s) =? 0) = false).
  { destruct (contentRoots s); [contradiction | reflexivity]. }
  split.
  - destruct (floating_updateCounter_frame s) as (_ & _ & _ & _ & _ & _ & Hr).
    rewrite Hr, floating_measured_roots, E. reflexivity.
  - rewrite floating_log_updateCounter, E. reflexivity.
Qed.

(** X3. A render of the floating variant that finds its cached root set
    non-empty keeps that set and does not query the root locator, whatever
    the document now contains; only an empty cached set is re-derived. *)
Theorem floating_render_keeps_cached_roots (s : state) :
  contentRoots s <> [] ->
  contentRoots (Floating.updateCounter s) = contentRoots s
  /\ log (Floating.updateCounter s) = log s ++ [CallRender].
Proof.
  intros Hne.
  assert (E : (List.length (contentRoots s) =? 0) = false).
  { destruct (contentRoots s); [contradiction | reflexivity]. }
  split.
  - destruct (floating_updateCounter_frame s) as (_ & _ & _ & _ & _ & _ & Hr).
    rewrite Hr, floating_measured_roots, E. reflexivity.
  - rewrite floating_log_updateCounter, E. reflexivity.
Qed.

Lemma floating_render_keeps_cached_roots_witness :
  contentRoots (Floating.updateCounter ex_stale_roots) = [1]
  /\ document_querySelectorAll sel_wiki (doc ex_stale_roots) = [].
Proof.
  split; [|reflexivity].
  refine (proj1 (floating_render_keeps_cached_roots ex_stale_roots _)).
  discriminate.
Defined.

(** X4. The observer callback of the floating variant ignores a batch in
    which no added element matches or contains a match of the content
    selectors; otherwise it queries the locator and renders once for the
    whole batch, after which the cached root set is the locator's result
    (the render queries the locator once more when that result is empty). *)
Theorem floating_callback_batches (batch : list mutation) (s : state) :
  (batch_has_match [content_group] s batch ->
     log (Floating.observerCallback batch s)
     = log s ++ CallFindContentRoots :: CallRender
         :: (if List.length (findContentRoots (doc s)) =? 0
             then [CallFindContentRoots] else [])
     /\ (findContentRoots (doc s) <> [] ->
         contentRoots (Floating.observerCallback batch s)
         = findContentRoots (doc s)))
  /\ (~ batch_has_match [content_group] s batch ->
      Floating.observerCallback batch s = s).
Proof.
  split.
  - intros H. apply floating_qualifies_spec in H.
    unfold Floating.observerCallback. rewrite H. cbn [call_findContentRoots].
    split.
    + rewrite floating_log_updateCounter. cbn [log record contentRoots set_contentRoots].
      rewrite <- app_assoc. reflexivity.
    + intros Hne.
      apply (proj1 (floating_cached_roots_kept
                      (set_contentRoots (findContentRoots (doc s))
                         (record CallFindContentRoots s)) Hne)).
  - intros H. unfold Floating.observerCallback.
    destruct (batch_flag (Floating.qualifies s) batch) eqn:E; [|reflexivity].
    apply floating_qualifies_spec in E. contradiction.
Qed.

Lemma floating_callback_batches_witness :
  let s := Floating.activate (ex_page None) in
  log (Floating.observerCallback [mkMutation [3; 1]; mkMutation [1]] s)
  = log s ++ [CallFindContentRoots; CallRender].
Proof.
  apply (proj1 (floating_callback_batches [mkMutation [3; 1]; mkMutation [1]]
                  (Floating.activate (ex_page None)))).
  exists (mkMutation [3; 1]), 1,
    (Elem 1 (div ["wiki"%string]) [Text 2 (js_of_string "hello world")]),
    content_group.
  repeat split; try reflexivity; try (left; reflexivity).
  right. left. reflexivity.
Defined.

(** X5. On a page where no root selector matches, a floating render that
    starts from an empty cached root set writes the zero total, and so does
    the first render of [activate]. *)
Theorem floating_empty_page_shows_zero (s : state) :
  (forall sel, In sel root_selectors -> document_querySelectorAll sel (doc s) = []) ->
  (contentRoots s = [] ->
     text_of (Floating.updateCounter s) (floating_surface s) = msg_total 0)
  /\ (has_window s = true ->
      text_of (Floating.activate s) (floating_surface s) = msg_total 0).
Proof.
  intros Hno. split.
  - intros Hempty. rewrite <- msg_zero_total.
    apply floating_zero_when_empty; assumption.
  - intros Hw. unfold Floating.activate. rewrite Hw. cbn [negb].
    rewrite (text_of_forest _ _ _ (floating_startObserveView_forest s)).
    rewrite <- msg_zero_total.
    apply (floating_zero_when_empty
             (set_contentRoots (findContentRoots (doc s))
                (record CallFindContentRoots s))).
    + exact Hno.
    + cbn [contentRoots set_contentRoots]. unfold findContentRoots.
      apply first_match_none. exact Hno.
Qed.

Lemma floating_empty_page_shows_zero_witness :
  text_of (Floating.activate ex_plain_page) 5 = msg_total 0.
Proof.
  refine (proj2 (floating_empty_page_shows_zero ex_plain_page _) eq_refl).
  intros sel [<-|[<-|[<-|[<-|[]]]]]; reflexivity.
Defined.

(** ** Activating twice *)

Lemma addEventListener_frame tg ty h s :
  let s' := addEventListener tg ty h s in
  observing s' = observing s /\ next_observer s' = next_observer s
  /\ observer s' = observer s /\ has_window s' = has_window s
  /\ cleanupFns s' = cleanupFns s.
Proof.
  unfold addEventListener. destruct (existsb _ (listeners s)); repeat split.
Qed.

Lemma addEventListener_registered tg ty h s :
  existsb (listener_eqb (mkListener tg ty h))
    (listeners (addEventListener tg ty h s)) = true.
Proof.
  unfold addEventListener.
  destruct (existsb (listener_eqb (mkListener tg ty h)) (listeners s)) eqn:E;
    [exact E|].
  cbn [listeners set_listeners]. rewrite existsb_app. simpl.
  rewrite listener_eqb_refl, orb_true_r. reflexivity.
Qed.

Lemma addEventListener_keeps x tg ty h s :
  existsb (listener_eqb x) (listeners s) = true ->
  existsb (listener_eqb x) (listeners (addEventListener tg ty h s)) = true.
Proof.
  intros H. unfold addEventListener.
  destruct (existsb (listener_eqb (mkListener tg ty h)) (listeners s)); [exact H|].
  cbn [listeners set_listeners]. rewrite existsb_app, H. reflexivity.
Qed.

Lemma addEventListener_present tg ty h s :
  existsb (listener_eqb (mkListener tg ty h)) (listeners s) = true ->
  addEventListener tg ty h s = s.
Proof. intros H. unfold addEventListener. rewrite H. reflexivity. Qed.

(** The state in which [startObserveView] starts to add its listeners. *)
Lemma floating_activate_unfold s :
  has_window s = true ->
  exists v,
    Floating.activate s
    = push_cleanup RemoveDocumentListeners
        (addEventListener OnDocument selectionchange HUpdateCounter
           (addEventListener OnDocument mouseup HUpdateCounter
              (addEventListener OnDocument keyup HUpdateCounter v)))
    /\ listeners v = listeners s
    /\ observing v = observing s ++ [next_observer s]
    /\ next_observer v = S (next_observer s)
    /\ observer v = Some (next_observer s)
    /\ has_window v = has_window s.
Proof.
  intros Hw. unfold Floating.activate. rewrite Hw. cbn [negb].
  unfold Floating.startObserveView, call_findContentRoots, observe_body.
  cbv beta iota zeta.
  set (u := Floating.updateCounter _).
  exists (set_observer (Some (next_observer u))
            (set_observing (observing u ++ [next_observer u]) (S (next_observer u)) u)).
  split; [reflexivity|].
  destruct (floating_updateCounter_frame
              (set_contentRoots (findContentRoots (doc s))
                 (record CallFindContentRoots s)))
    as (Hl & Hg & Ho & Hn & Hw' & _).
  fold u in Hl, Hg, Ho, Hn, Hw'.
  cbn [listeners observing next_observer observer has_window set_contentRoots
       record] in Hl, Hg, Ho, Hn, Hw'.
  cbn [listeners observing next_observer observer has_window set_observer
       set_observing].
  rewrite Hl, Hg, Hn, Hw'. repeat split; auto.
Qed.

Lemma observer_deactivate s : observer (deactivate s) = None.
Proof.
  unfold deactivate.
  set (s1 := match observer s with
             | Some o => set_observer None (disconnect o s)
             | None => s
             end).
  destruct (drain_frame (cleanupFns s1) (set_cleanupFns [] s1)) as (Ho & _).
  cbv zeta in Ho. unfold drain_step in Ho. rewrite Ho.
  unfold s1. destruct (observer s) eqn:E; [reflexivity | exact E].
Qed.

Lemma observing_deactivate s :
  observing (deactivate s)
  = match observer s with
    | Some o => filter (fun x => negb (x =? o)) (observing s)
    | None => observing s
    end.
Proof.
  unfold deactivate.
  set (s1 := match observer s with
             | Some o => set_observer None (disconnect o s)
             | None => s
             end).
  destruct (drain_frame (cleanupFns s1) (set_cleanupFns [] s1)) as (_ & _ & Hg & _).
  cbv zeta in Hg. unfold drain_step in Hg. rewrite Hg.
  unfold s1. destruct (observer s); reflexivity.
Qed.

Lemma floating_activate_twice s :
  has_window s = true ->
  let s1 := Floating.activate s in
  let s2 := Floating.activate s1 in
  listeners s2 = listeners s1
  /\ observing s2 = observing s ++ [next_observer s; S (next_observer s)]
  /\ observer s2 = Some (S (next_observer s)).
Proof.
  intros Hw. cbv zeta.
  destruct (floating_activate_unfold s Hw) as (v & E1 & Hl & Hg & Hn & Ho & Hwv).
  set (s1 := Floating.activate s) in *.
  assert (F1 : observing s1 = observing s ++ [next_observer s]
               /\ next_observer s1 = S (next_observer s)
               /\ has_window s1 = true).
  { rewrite E1.
    set (a1 := addEventListener OnDocument keyup HUpdateCounter v).
    set (a2 := addEventListener OnDocument mouseup HUpdateCounter a1).
    destruct (addEventListener_frame OnDocument keyup HUpdateCounter v)
      as (G1 & N1 & _ & W1 & _).
    destruct (addEventListener_frame OnDocument mouseup HUpdateCounter a1)
      as (G2 & N2 & _ & W2 & _).
    destruct (addEventListener_frame OnDocument selectionchange HUpdateCounter a2)
      as (G3 & N3 & _ & W3 & _).
    fold a1 in G1, N1, W1, G2, N2, W2. fold a2 in G2, N2, W2, G3, N3, W3.
    cbn [observing next_observer has_window push_cleanup set_cleanupFns].
    rewrite G3, G2, G1, N3, N2, N1, W3, W2, W1, Hg, Hn, Hwv. auto. }
  destruct F1 as (Hg1 & Hn1 & Hw1).
  assert (P : forall ty, existsb (listener_eqb (mkListener OnDocument ty HUpdateCounter))
                           (listeners s1) = true).
  { intros ty. rewrite E1. cbn [listeners push_cleanup set_cleanupFns].
    destruct ty.
    - do 2 apply addEventListener_keeps. apply addEventListener_registered.
    - apply addEventListener_keeps. apply addEventListener_registered.
    - apply addEventListener_registered. }
  destruct (floating_activate_unfold s1 Hw1) as (v' & E2 & Hl' & Hg' & Hn' & Ho' & _).
  rewrite E2.
  rewrite (addEventListener_present OnDocument keyup HUpdateCounter v')
    by (rewrite Hl'; apply P).
  rewrite (addEventListener_present OnDocument mouseup HUpdateCounter v')
    by (rewrite Hl'; apply P).
  rewrite (addEventListener_present OnDocument selectionchange HUpdateCounter v')
    by (rewrite Hl'; apply P).
  cbn [listeners observing observer push_cleanup set_cleanupFns].
  rewrite Hl', Hg', Ho', Hg1, Hn1, <- app_assoc. repeat split.
Qed.

(** X6. A second [activate] without a [deactivate] in between registers no
    further listener ([updateCounter] is already registered) but connects a
    second observer; the next [deactivate] disconnects only that one, so the
    observer of the first activation stays connected. *)
Theorem floating_second_activate_leaves_observer (s : state) :
  has_window s = true ->
  (forall o, In o (observing s) -> o < next_observer s) ->
  let s1 := Floating.activate s in
  let s2 := Floating.activate s1 in
  listeners s2 = listeners s1
  /\ observing s2 = observing s ++ [next_observer s; S (next_observer s)]
  /\ observer (deactivate s2) = None
  /\ observing (deactivate s2) = observing s ++ [next_observer s].
Proof.
  intros Hw Hfresh. cbv zeta.
  destruct (floating_activate_twice s Hw) as (Hl & Hg & Ho).
  split; [exact Hl|]. split; [exact Hg|]. split.
  - apply observer_deactivate.
  - rewrite observing_deactivate, Ho, Hg.
    change [next_observer s; S (next_observer s)]
      with ([next_observer s] ++ [S (next_observer s)]).
    rewrite app_assoc. apply filter_fresh_observer.
    intros x Hx. apply in_app_or in Hx. destruct Hx as [Hx|[<-|[]]].
    + pose proof (Hfresh x Hx). lia.
    + lia.
Qed.

Lemma floating_second_activate_leaves_observer_witness :
  observing (deactivate (Floating.activate (Floating.activate (ex_page None)))) = [0].
Proof.
  refine (proj2 (proj2 (proj2
            (floating_second_activate_leaves_observer (ex_page None) eq_refl _)))).
  intros o [].
Defined.

(** ** The anchored variant *)

Lemma query_none_iff sel d :
  document_querySelector sel d = None
  <-> forall x, In x (subtrees d) -> node_matches sel x = false.
Proof.
  unfold document_querySelector, document_querySelectorAll. split.
  - intros H x Hx. destruct (node_matches sel x) eqn:E; [|reflexivity].
    assert (Hf : In x (filter (node_matches sel) (subtrees d)))
      by (apply filter_In; split; assumption).
    destruct (filter (node_matches sel) (subtrees d)); [destruct Hf | discriminate].
  - intros H.
    destruct (filter (node_matches sel) (subtrees d)) as [|x l] eqn:E; [reflexivity|].
    assert (Hx : In x (filter (node_matches sel) (subtrees d)))
      by (rewrite E; left; reflexivity).
    apply filter_In in Hx. destruct Hx as [Hin Hm].
    rewrite (H x Hin) in Hm. discriminate.
Qed.

Lemma query_some_matches sel d v :
  document_querySelector sel d = Some v ->
  exists x, In x (subtrees d) /\ ref_of x = v /\ node_matches sel x = true.
Proof.
  unfold document_querySelector, document_querySelectorAll. intros H.
  destruct (filter (node_matches sel) (subtrees d)) as [|x l] eqn:E; [discriminate|].
  injection H as <-.
  assert (Hx : In x (filter (node_matches sel) (subtrees d)))
    by (rewrite E; left; reflexivity).
  apply filter_In in Hx. exists x. tauto.
Qed.

Lemma div_class_is_class c x :
  node_matches [SelTagClass "div" c] x = true -> node_matches [SelClass c] x = true.
Proof.
  destruct x as [r d|r e kids]; simpl; [discriminate|].
  rewrite !orb_false_r. intros H. apply andb_true_iff in H. tauto.
Qed.

(** X7. [findSystemVersionElement] finds nothing exactly when no element of
    the document has the system-version class; what it finds has the class;
    and a [div] with the class is preferred to any other element with it,
    wherever they stand in the document. *)
Theorem findSystemVersionElement_finds_class (d : node) :
  let cls := "SystemVersion_system-version__ygB5P"%string in
  (Anchored.findSystemVersionElement d = None
   <-> forall x, In x (subtrees d) -> node_matches [SelClass cls] x = false)
  /\ (forall v, Anchored.findSystemVersionElement d = Some v ->
        exists x, In x (subtrees d) /\ ref_of x = v
                  /\ node_matches [SelClass cls] x = true)
  /\ (forall v, document_querySelector [SelTagClass "div" cls] d = Some v ->
        Anchored.findSystemVersionElement d = Some v).
Proof.
  cbv zeta. unfold Anchored.findSystemVersionElement, Anchored.version_selectors.
  cbn [Anchored.first_element].
  split; [|split].
  - split.
    + intros H.
      destruct (document_querySelector
                  [SelTagClass "div" "SystemVersion_system-version__ygB5P"] d);
        [discriminate|].
      destruct (document_querySelector
                  [SelClass "SystemVersion_system-version__ygB5P"] d) eqn:E;
        [discriminate|].
      apply query_none_iff. exact E.
    + intros H.
      destruct (document_querySelector
                  [SelTagClass "div" "SystemVersion_system-version__ygB5P"] d)
        as [v|] eqn:E.
      * destruct (query_some_matches _ _ _ E) as (x & Hin & _ & Hm).
        apply div_class_is_class in Hm. rewrite (H x Hin) in Hm. discriminate.
      * apply query_none_iff in H. rewrite H. reflexivity.
  - intros v H.
    destruct (document_querySelector
                [SelTagClass "div" "SystemVersion_system-version__ygB5P"] d)
      as [v'|] eqn:E.
    + injection H as <-.
      destruct (query_some_matches _ _ _ E) as (x & Hin & Hr & Hm).
      exists x. repeat split; trivial. apply div_class_is_class. exact Hm.
    + destruct (document_querySelector
                  [SelClass "SystemVersion_system-version__ygB5P"] d) as [v'|] eqn:E';
        [|discriminate].
      injection H as <-. exact (query_some_matches _ _ _ E').
  - intros v H. rewrite H. reflexivity.
Qed.

Lemma findSystemVersionElement_finds_class_witness :
  Anchored.findSystemVersionElement (doc ex_span_before_div) = Some 2.
Proof.
  apply (proj2 (proj2 (findSystemVersionElement_finds_class (doc ex_span_before_div)))).
  reflexivity.
Defined.

Lemma anchored_refresh_frame s :
  let s' := refresh_roots s in
  forest s' = forest s /\ cleanupFns s' = cleanupFns s
  /\ listeners s' = listeners s /\ next_ref s' = next_ref s
  /\ observing s' = observing s /\ observer s' = observer s.
Proof. unfold refresh_roots. destruct (_ =? 0); repeat split. Qed.

(** X8. While the document has neither an element with the counter's id
    nor a system-version element, the anchored render is skipped: it creates
    no node, writes no text and registers nothing. *)
Theorem anchored_render_skipped_without_anchor (s : state) :
  getElementById Anchored.COUNTER_ID (doc s) = None ->
  Anchored.findSystemVersionElement (doc s) = None ->
  fst (Anchored.ensureCounterElement s) = None
  /\ (let s' := Anchored.updateCounter s in
      forest s' = forest s /\ next_ref s' = next_ref s
      /\ cleanupFns s' = cleanupFns s /\ listeners s' = listeners s).
Proof.
  intros Hid Hv. split.
  - unfold Anchored.ensureCounterElement. rewrite Hid, Hv. reflexivity.
  - cbv zeta. unfold Anchored.updateCounter.
    destruct (anchored_refresh_frame (record CallRender s)) as (Hf & Hc & Hl & Hn & _).
    set (s1 := refresh_roots (record CallRender s)) in *.
    assert (Hd : doc s1 = doc s).
    { change (doc s1) with (hd (doc s1) (forest s1)). rewrite Hf. reflexivity. }
    unfold Anchored.ensureCounterElement. rewrite Hd, Hid, Hv.
    rewrite Hf, Hc, Hl, Hn. repeat split.
Qed.

Lemma anchored_render_skipped_without_anchor_witness :
  forest (Anchored.updateCounter (ex_page None)) = forest (ex_page None).
Proof.
  exact (proj1 (proj2 (anchored_render_skipped_without_anchor (ex_page None)
                         eq_refl eq_refl))).
Defined.

Lemma ref_of_insert_first k x : ref_of (insert_first k x) = ref_of x.
Proof. destruct x as [|r e [|]]; reflexivity. Qed.

(** X9. When the document has no element with the counter's id but has a
    system-version element with a parent, [ensureCounterElement] creates one
    span with that id, puts it in front of the element's children, registers
    one teardown for it and returns it. *)
Theorem anchored_counter_inserted_first (s : state) (v r : ref) (e : element)
    (kids : list node) :
  getElementById Anchored.COUNTER_ID (doc s) = None ->
  Anchored.findSystemVersionElement (doc s) = Some v ->
  Anchored.has_parentElement s v = true ->
  find_node (forest s) v = Some (Elem r e kids) ->
  let c := next_ref s in
  let s1 := snd (Anchored.ensureCounterElement s) in
  fst (Anchored.ensureCounterElement s) = Some c
  /\ find_node (forest s1) v
     = Some (Elem r e (Elem c (mkElement "span" Anchored.COUNTER_ID [] []) [] :: kids))
  /\ getElementById Anchored.COUNTER_ID (doc s1) = Some c
  /\ cleanupFns s1 = cleanupFns s ++ [RemoveCounter c].
Proof.
  intros Hid Hv Hp Hfind. cbv zeta.
  pose proof (anchored_ensure_twice s) as Htwice.
  unfold Anchored.ensureCounterElement in *. rewrite Hid, Hv, Hp in *.
  cbn [negb fst snd] in *.
  split; [reflexivity|]. split; [|split].
  - set (counter := Elem (next_ref s) (mkElement "span" Anchored.COUNTER_ID [] []) []).
    assert (Hforest : forest (push_cleanup (RemoveCounter (next_ref s))
                        (dom_update v (insert_first counter)
                           (set_next_ref (S (next_ref s)) s)))
                      = List.map (update_at v (insert_first counter)) (forest s)).
    { exact (forest_dom_update v (insert_first counter)
               (set_next_ref (S (next_ref s)) s) (isElement_insert_first counter)). }
    rewrite Hforest, find_node_update by (apply ref_of_insert_first).
    rewrite Hfind. destruct kids; reflexivity.
  - apply (proj2 Htwice). reflexivity.
  - unfold push_cleanup. cbn [cleanupFns set_cleanupFns].
    unfold dom_update. autorewrite with frame. reflexivity.
Qed.

Lemma anchored_counter_inserted_first_witness :
  find_node (forest (snd (Anchored.ensureCounterElement ex_span_before_div))) 2
  = Some (Elem 2 (div ["SystemVersion_system-version__ygB5P"%string])
            [Elem 5 (mkElement "span" Anchored.COUNTER_ID [] []) [];
             Text 3 (js_of_string "v7")]).
Proof.
  exact (proj1 (proj2 (anchored_counter_inserted_first ex_span_before_div 2 2
                         (div ["SystemVersion_system-version__ygB5P"%string])
                         [Text 3 (js_of_string "v7")]
                         eq_refl eq_refl eq_refl eq_refl))).
Defined.

Lemma anchored_cached_roots_kept (s : state) :
  contentRoots s <> [] ->
  contentRoots (Anchored.updateCounter s) = contentRoots s.
Proof.
  intros Hne.
  assert (E : (List.length (contentRoots s) =? 0) = false).
  { destruct (contentRoots s); [contradiction | reflexivity]. }
  unfold Anchored.updateCounter.
  assert (Hr : refresh_roots (record CallRender s) = record CallRender s).
  { unfold refresh_roots. cbn [contentRoots record]. rewrite E. reflexivity. }
  rewrite Hr.
  pose proof (anchored_ensure_frame (record CallRender s)) as F.
  destruct (Anchored.ensureCounterElement (record CallRender s)) as [[c|] s1];
    cbn [snd] in F; destruct F as [_ Hc]; cbn [contentRoots record] in Hc.
  - destruct (List.length (contentRoots s1) =? 0);
      [|destruct (0 <? js_length _)];
      unfold dom_setTextContent, dom_update; autorewrite with frame; exact Hc.
  - exact Hc.
Qed.

(** X10. The observer callback of the anchored variant ignores a batch in
    which no added element matches or contains a match of the content
    selectors or of the system-version anchor; otherwise it queries the
    locator and renders once for the whole batch, and a non-empty result of
    the locator becomes the cached root set. *)
Theorem anchored_callback_batches (batch : list mutation) (s : state) :
  (batch_has_match [content_group; Anchored.version_anchor] s batch ->
     log (Anchored.observerCallback batch s)
     = log s ++ CallFindContentRoots :: CallRender
         :: (if List.length (findContentRoots (doc s)) =? 0
             then [CallFindContentRoots] else [])
     /\ (findContentRoots (doc s) <> [] ->
         contentRoots (Anchored.observerCallback batch s)
         = findContentRoots (doc s)))
  /\ (~ batch_has_match [content_group; Anchored.version_anchor] s batch ->
      Anchored.observerCallback batch s = s).
Proof.
  split.
  - intros H. apply anchored_qualifies_spec in H.
    unfold Anchored.observerCallback. rewrite H. cbn [call_findContentRoots].
    split.
    + rewrite anchored_log_updateCounter.
      cbn [log record contentRoots set_contentRoots].
      rewrite <- app_assoc. reflexivity.
    + intros Hne.
      apply (anchored_cached_roots_kept
               (set_contentRoots (findContentRoots (doc s))
                  (record CallFindContentRoots s)) Hne).
  - intros H. unfold Anchored.observerCallback.
    destruct (batch_flag (Anchored.qualifies s) batch) eqn:E; [|reflexivity].
    apply anchored_qualifies_spec in E. contradiction.
Qed.

Lemma anchored_callback_batches_witness :
  log (Anchored.observerCallback [mkMutation [1]] ex_footer_page)
  = [CallFindContentRoots; CallRender; CallFindContentRoots].
Proof.
  apply (proj1 (proj1 (anchored_callback_batches [mkMutation [1]] ex_footer_page)
                  (ex_intro _ (mkMutation [1]) (ex_intro _ 1 (ex_intro _
                     (Elem 1 (div ["SystemVersion_system-version__ygB5P"%string]) [])
                     (ex_intro _ Anchored.version_anchor
                        (conj (or_introl eq_refl) (conj (or_introl eq_refl)
                           (conj eq_refl (conj eq_refl
                              (conj (or_intror (or_introl eq_refl))
                                 (or_introl eq_refl)))))))))))).
Defined.

(** ** The inline variant: one counter under a root *)

Lemma update_at_here c g k : ref_of k = c -> update_at c g k = g k.
Proof. intros H. destruct k; simpl in *; rewrite H, Nat.eqb_refl; reflexivity. Qed.

Lemma update_fresh_after_append c g root k t :
  (forall x, In x (subtrees t) -> ref_of x <> c) ->
  ref_of k = c ->
  update_at c g (update_at root (append_child k) t)
  = update_at root (append_child (g k)) t.
Proof.
  intros Hfresh Hk.
  induction t as [r d|r e kids IH] using node_ind'.
  - assert (Hr : (r =? c) = false).
    { apply Nat.eqb_neq. apply (Hfresh (Text r d)). left. reflexivity. }
    simpl. destruct (r =? root); simpl; rewrite Hr; reflexivity.
  - assert (Hr : (r =? c) = false).
    { apply Nat.eqb_neq. apply (Hfresh (Elem r e kids)). left. reflexivity. }
    assert (Hkids : forall x, In x (flat_map subtrees kids) -> ref_of x <> c).
    { intros x Hx. apply Hfresh. rewrite subtrees_elem. right. exact Hx. }
    cbn [update_at ref_of]. destruct (r =? root).
    + cbn [append_child update_at ref_of]. rewrite Hr. f_equal.
      rewrite map_app, (map_update_fresh c g kids Hkids).
      cbn [List.map]. rewrite (update_at_here c g k Hk). reflexivity.
    + cbn [update_at ref_of]. rewrite Hr. f_equal. rewrite map_map.
      clear Hfresh Hr. induction kids as [|x kids IHk]; [reflexivity|].
      apply Forall_cons_iff in IH; destruct IH as [Hx Hrest]. cbn [List.map]. f_equal.
      * apply Hx. intros y Hy. apply Hkids. simpl. apply in_or_app. left. exact Hy.
      * apply IHk; [exact Hrest|]. intros y Hy. apply Hkids.
        simpl. apply in_or_app. right. exact Hy.
Qed.

Lemma map_update_fresh_after_append c g root k f :
  (forall x, In x (forest_subtrees f) -> ref_of x <> c) ->
  ref_of k = c ->
  List.map (update_at c g) (List.map (update_at root (append_child k)) f)
  = List.map (update_at root (append_child (g k))) f.
Proof.
  intros Hfresh Hk. rewrite map_map.
  induction f as [|t f IH]; [reflexivity|]. cbn [List.map]. f_equal.
  - apply update_fresh_after_append; [|exact Hk].
    intros x Hx. apply Hfresh. unfold forest_subtrees. simpl.
    apply in_or_app. left. exact Hx.
  - apply IH. intros x Hx. apply Hfresh. unfold forest_subtrees. simpl.
    apply in_or_app. right. exact Hx.
Qed.

Lemma prune_after_append c root k t :
  (forall x, In x (subtrees t) -> ref_of x <> c) ->
  ref_of k = c ->
  remove_node c (update_at root (append_child k) t) = t.
Proof.
  intros Hfresh Hk.
  induction t as [r d|r e kids IH] using node_ind'.
  - simpl. destruct (r =? root); reflexivity.
  - assert (Hkids : forall x, In x (flat_map subtrees kids) -> ref_of x <> c).
    { intros x Hx. apply Hfresh. rewrite subtrees_elem. right. exact Hx. }
    cbn [update_at ref_of]. destruct (r =? root).
    + cbn [append_child remove_node prune]. f_equal.
      apply (filter_removed_last c kids k Hkids Hk).
    + cbn [remove_node prune]. f_equal. clear Hfresh.
      induction kids as [|x kids IHk]; [reflexivity|].
      apply Forall_cons_iff in IH; destruct IH as [Hx Hrest]. cbn [List.map filter].
      assert (Ex : remove_node c (update_at root (append_child k) x) = x).
      { apply Hx. intros y Hy. apply Hkids. simpl. apply in_or_app. left. exact Hy. }
      rewrite Ex.
      assert (Hc : (c =? ref_of x) = false).
      { apply Nat.eqb_neq. intros E. apply (Hkids x); [|symmetry; exact E].
        simpl. apply in_or_app. left.
        destruct (subtrees_head x) as [l ->]. left. reflexivity. }
      rewrite Hc. cbn [negb]. f_equal.
      apply IHk; [exact Hrest|]. intros y Hy. apply Hkids.
      simpl. apply in_or_app. right. exact Hy.
Qed.

Lemma find_ref_appended c root k t :
  (forall x, In x (subtrees t) -> ref_of x <> c) ->
  ref_of k = c ->
  find (fun x => ref_of x =? c) (subtrees (update_at root (append_child k) t))
  = if has_element root t then Some k else None.
Proof.
  intros Hfresh Hk.
  assert (Hhead : find (fun x => ref_of x =? c) (subtrees k) = Some k).
  { destruct (subtrees_head k) as [l ->]. simpl. rewrite Hk, Nat.eqb_refl. reflexivity. }
  induction t as [r d|r e kids IH] using node_ind'.
  - assert (Hr : (r =? c) = false).
    { apply Nat.eqb_neq. apply (Hfresh (Text r d)). left. reflexivity. }
    unfold has_element. simpl. destruct (r =? root); simpl; rewrite Hr; reflexivity.
  - assert (Hr : (r =? c) = false).
    { apply Nat.eqb_neq. apply (Hfresh (Elem r e kids)). left. reflexivity. }
    assert (Hkids : forall x, In x (flat_map subtrees kids) -> ref_of x <> c).
    { intros x Hx. apply Hfresh. rewrite subtrees_elem. right. exact Hx. }
    unfold has_element. rewrite subtrees_elem.
    cbn [update_at ref_of existsb isElement andb].
    destruct (r =? root).
    + cbn [orb append_child]. rewrite subtrees_elem. cbn [find ref_of].
      rewrite Hr, flat_map_app. cbn [flat_map]. rewrite app_nil_r.
      rewrite find_app_none; [exact Hhead|].
      apply find_none_iff. intros x Hx. apply Nat.eqb_neq. apply Hkids. exact Hx.
    + cbn [orb]. rewrite subtrees_elem. cbn [find ref_of]. rewrite Hr.
      clear Hfresh Hr. induction kids as [|x kids IHk]; [reflexivity|].
      apply Forall_cons_iff in IH; destruct IH as [Hx Hrest]. cbn [List.map flat_map].
      rewrite existsb_app.
      assert (Ex := Hx (fun y Hy => Hkids y (in_or_app _ _ _ (or_introl Hy)))).
      unfold has_element in Ex.
      destruct (existsb (fun y => isElement y && (ref_of y =? root)) (subtrees x)).
      * rewrite (find_app_some _ _ _ _ Ex). reflexivity.
      * rewrite (find_app_none _ _ _ Ex). cbn [orb]. apply IHk; [exact Hrest|].
        intros y Hy. apply Hkids. simpl. apply in_or_app. right. exact Hy.
Qed.

Lemma find_element_has_element root t r e kids :
  find (fun x => ref_of x =? root) (subtrees t) = Some (Elem r e kids) ->
  has_element root t = true.
Proof.
  intros H. apply find_some in H. destruct H as [Hin Hr].
  unfold has_element. apply existsb_exists. exists (Elem r e kids).
  split; [exact Hin|]. cbn [isElement andb]. exact Hr.
Qed.

Lemma find_node_appended c root k f r e kids :
  (forall x, In x (forest_subtrees f) -> ref_of x <> c) ->
  ref_of k = c ->
  find_node f root = Some (Elem r e kids) ->
  find_node (List.map (update_at root (append_child k)) f) c = Some k.
Proof.
  unfold find_node, forest_subtrees. intros Hfresh Hk.
  induction f as [|t f IH]; intros Hroot; [discriminate|].
  assert (Ht : forall x, In x (subtrees t) -> ref_of x <> c).
  { intros x Hx. apply Hfresh. simpl. apply in_or_app. left. exact Hx. }
  cbn [List.map flat_map] in *.
  pose proof (find_ref_appended c root k t Ht Hk) as Hc.
  destruct (find (fun x => ref_of x =? root) (subtrees t)) as [x|] eqn:Et.
  - rewrite (find_app_some _ _ _ _ Et) in Hroot. injection Hroot as ->.
    rewrite (find_element_has_element _ _ _ _ _ Et) in Hc.
    apply find_app_some. exact Hc.
  - rewrite (find_app_none _ _ _ Et) in Hroot.
    assert (Hno : has_element root t = false).
    { unfold has_element. destruct (existsb _ (subtrees t)) eqn:E; [|reflexivity].
      apply existsb_exists in E. destruct E as (y & Hy & Hm).
      apply andb_true_iff in Hm. destruct Hm as [_ Hm].
      pose proof (find_none _ _ Et y Hy) as Hn. simpl in Hn.
      rewrite Hm in Hn. discriminate. }
    rewrite Hno in Hc. rewrite (find_app_none _ _ _ Hc).
    apply IH; [|exact Hroot].
    intros y Hy. apply Hfresh. simpl. apply in_or_app. right. exact Hy.
Qed.

Lemma inline_update_shape root c s :
  Inline.update root c s
  = dom_setTextContent c
      (rendered
         (selected_text (fun cac => isNodeInside (forest s) root (Some cac)) s)
         (text_of s root))
      (record CallRender s).
Proof.
  unfold Inline.update, rendered, countChars. cbv zeta.
  change (selected_text
            (fun cac => isNodeInside (forest (record CallRender s)) root (Some cac))
            (record CallRender s))
    with (selected_text (fun cac => isNodeInside (forest s) root (Some cac)) s).
  change (text_of (record CallRender s) root) with (text_of s root).
  destruct (0 <? js_length _); reflexivity.
Qed.

Lemma listeners_addEventListener_new tg ty h s :
  existsb (listener_eqb (mkListener tg ty h)) (listeners s) = false ->
  listeners (addEventListener tg ty h s) = listeners s ++ [mkListener tg ty h].
Proof. intros H. unfold addEventListener. rewrite H. reflexivity. Qed.

Lemma listener_eqb_other_type tg ty h tg' ty' h' :
  type_eqb ty ty' = false ->
  listener_eqb (mkListener tg ty h) (mkListener tg' ty' h') = false.
Proof.
  intros H. unfold listener_eqb. cbn [l_target l_type l_handler].
  rewrite H, andb_false_r. reflexivity.
Qed.

Lemma fresh_inline_handler s root ty tg :
  fresh_state s ->
  existsb (listener_eqb (mkListener tg ty (HInlineUpdate root (next_ref s))))
    (listeners s) = false.
Proof.
  intros (_ & Hl & _). apply existsb_other_handler. intros y Hy E.
  cbn [l_handler] in E.
  assert (H : next_ref s < next_ref s).
  { apply (Hl y (next_ref s) Hy). rewrite E. right. left. reflexivity. }
  lia.
Qed.

Lemma fresh_forest s x :
  fresh_state s -> In x (forest_subtrees (forest s)) -> ref_of x <> next_ref s.
Proof.
  intros (Hf & _) Hx.
  assert (H : ref_of x < next_ref s).
  { apply Hf. unfold refs. apply in_map. exact Hx. }
  lia.
Qed.

(** What one attachment does to a root that has no counter yet. *)
Lemma inline_attach_shape s root r e kids :
  fresh_state s ->
  find_node (forest s) root = Some (Elem r e kids) ->
  querySelector Inline.counter_selector (Elem r e kids) = None ->
  let c := next_ref s in
  let h := HInlineUpdate root c in
  let s1 := Inline.attachCharCounterToView root s in
  exists txt S,
    let k := Elem c (mkElement "div" "" [Inline.COUNTER_CLASS] []) txt in
    textContent k = rendered S (text_of s root)
    /\ forest s1 = List.map (update_at root (append_child k)) (forest s)
    /\ listeners s1
       = listeners s ++ [mkListener (OnNode root) keyup h;
                         mkListener (OnNode root) mouseup h;
                         mkListener OnDocument selectionchange h]
    /\ cleanupFns s1 = cleanupFns s ++ [DetachInline root c]
    /\ observing s1 = observing s /\ observer s1 = observer s
    /\ selection s1 = selection s.
Proof.
  intros Hf Hfind Hq. cbv zeta.
  unfold Inline.attachCharCounterToView. rewrite Hfind, Hq. cbv zeta.
  set (c := next_ref s).
  set (counter := Elem c (mkElement "div" "" [Inline.COUNTER_CLASS] []) []).
  set (y := dom_update root (append_child counter) (set_next_ref (S c) s)).
  set (h := HInlineUpdate root c).
  assert (Hy : forest y = List.map (update_at root (append_child counter)) (forest s)).
  { exact (forest_dom_update root (append_child counter) (set_next_ref (S c) s)
             (isElement_append_child counter)). }
  assert (Hyl : listeners y = listeners s /\ cleanupFns y = cleanupFns s
                /\ observing y = observing s /\ observer y = observer s
                /\ selection y = selection s /\ next_ref y = S c).
  { unfold y, dom_update. autorewrite with frame. repeat split. }
  destruct Hyl as (Hyl & Hyc & Hyg & Hyo & Hys & Hyn).
  set (a1 := addEventListener (OnNode root) keyup h y).
  set (a2 := addEventListener (OnNode root) mouseup h a1).
  set (a3 := addEventListener OnDocument selectionchange h a2).
  assert (L1 : listeners a1 = listeners s ++ [mkListener (OnNode root) keyup h]).
  { unfold a1. rewrite listeners_addEventListener_new; rewrite Hyl;
      [reflexivity | apply fresh_inline_handler; exact Hf]. }
  assert (L2 : listeners a2 = listeners s ++ [mkListener (OnNode root) keyup h;
                                              mkListener (OnNode root) mouseup h]).
  { unfold a2. rewrite listeners_addEventListener_new; rewrite L1.
    - rewrite <- app_assoc. reflexivity.
    - rewrite existsb_app. unfold h, c. rewrite (fresh_inline_handler s root _ _ Hf).
      cbn [existsb orb]. rewrite listener_eqb_other_type; reflexivity. }
  assert (L3 : listeners a3 = listeners s ++ [mkListener (OnNode root) keyup h;
                                              mkListener (OnNode root) mouseup h;
                                              mkListener OnDocument selectionchange h]).
  { unfold a3. rewrite listeners_addEventListener_new; rewrite L2.
    - rewrite <- app_assoc. reflexivity.
    - rewrite existsb_app. unfold h, c. rewrite (fresh_inline_handler s root _ _ Hf).
      cbn [existsb orb]. rewrite !listener_eqb_other_type; reflexivity. }
  assert (F3 : forest a3 = forest y
               /\ cleanupFns a3 = cleanupFns s /\ observing a3 = observing s
               /\ observer a3 = observer s /\ selection a3 = selection s
               /\ next_ref a3 = S c).
  { unfold a3, a2, a1. rewrite !forest_addEventListener.
    unfold addEventListener.
    repeat (match goal with |- context [if ?b then _ else _] => destruct b end);
      cbn [cleanupFns observing observer selection next_ref set_listeners];
      repeat split; assumption. }
  destruct F3 as (F3 & C3 & G3 & O3 & S3 & N3).
  rewrite inline_update_shape.
  set (str := rendered _ _).
  exists (match str with [] => [] | _ => [Text (S c) str] end),
    (selected_text (fun cac => isNodeInside (forest a3) root (Some cac)) a3).
  assert (Htext : text_of a3 root = text_of s root).
  { unfold text_of. rewrite F3, Hy.
    rewrite find_node_update by (intros x; destruct x; reflexivity).
    rewrite Hfind. cbn [option_map append_child textContent].
    rewrite flat_map_app. cbn. rewrite app_nil_r. reflexivity. }
  split; [|split; [|split; [|split; [|split; [|split]]]]].
  - change (textContent (put_text (S c) str counter) = rendered
              (selected_text (fun cac => isNodeInside (forest a3) root (Some cac)) a3)
              (text_of s root)).
    rewrite textContent_put_text. unfold str. rewrite Htext. reflexivity.
  - rewrite forest_push_cleanup, forest_setTextContent.
    change (forest (record CallRender a3)) with (forest a3).
    change (next_ref (record CallRender a3)) with (next_ref a3).
    rewrite F3, Hy, N3.
    apply (map_update_fresh_after_append c (put_text (S c) str) root counter (forest s)).
    + intros x Hx. apply (fresh_forest s x Hf Hx).
    + reflexivity.
  - unfold push_cleanup, dom_setTextContent, dom_update.
    autorewrite with frame. cbn [listeners set_cleanupFns set_next_ref record].
    autorewrite with frame. exact L3.
  - unfold push_cleanup, dom_setTextContent, dom_update.
    cbn [cleanupFns set_cleanupFns]. autorewrite with frame.
    cbn [cleanupFns set_next_ref record]. rewrite C3. reflexivity.
  - unfold push_cleanup, dom_setTextContent, dom_update.
    cbn [observing set_cleanupFns]. autorewrite with frame.
    cbn [observing set_next_ref record]. exact G3.
  - unfold push_cleanup, dom_setTextContent, dom_update.
    cbn [observer set_cleanupFns]. autorewrite with frame.
    cbn [observer set_next_ref record]. exact O3.
  - unfold push_cleanup, dom_setTextContent, dom_update.
    cbn [selection set_cleanupFns]. autorewrite with frame.
    cbn [selection set_next_ref record]. exact S3.
Qed.

Lemma ref_of_append_child k x : ref_of (append_child k x) = ref_of x.
Proof. destruct x; reflexivity. Qed.

Lemma querySelector_appended sel r e kids k :
  node_matches sel k = true ->
  querySelector sel (Elem r e (kids ++ [k])) <> None.
Proof.
  intros Hk H.
  assert (Hex : exists d, In d (descendants (Elem r e (kids ++ [k])))
                          /\ node_matches sel d = true).
  { exists k. split; [|exact Hk]. unfold descendants. cbn [children].
    rewrite flat_map_app. apply in_or_app. right. simpl. rewrite app_nil_r.
    destruct (subtrees_head k) as [l ->]. left. reflexivity. }
  apply querySelector_spec in Hex. destruct Hex as [x Hx].
  rewrite Hx in H. discriminate.
Qed.

Lemma doc_of_forest s s' g :
  forest s' = List.map g (forest s) -> doc s' = g (doc s).
Proof. unfold forest. cbn [List.map]. intros H. injection H as H _. exact H. Qed.

(** X11. Attaching a counter to a root is idempotent: a second call for the
    same root finds the counter of the first call and changes nothing, so no
    second counter, listener or teardown is created. *)
Theorem inline_attach_idempotent (s : state) (root : ref) :
  fresh_state s ->
  (forall t, find_node (forest s) root = Some t -> isElement t = true) ->
  Inline.attachCharCounterToView root (Inline.attachCharCounterToView root s)
  = Inline.attachCharCounterToView root s.
Proof.
  intros Hf Hel.
  destruct (find_node (forest s) root) as [t|] eqn:Hfind.
  2:{ unfold Inline.attachCharCounterToView. rewrite Hfind. cbv zeta.
      rewrite Hfind. reflexivity. }
  destruct t as [r d|r e kids]; [specialize (Hel _ eq_refl); discriminate|].
  destruct (querySelector Inline.counter_selector (Elem r e kids)) as [x|] eqn:Hq.
  { unfold Inline.attachCharCounterToView. rewrite Hfind, Hq.
    rewrite Hfind, Hq. reflexivity. }
  destruct (inline_attach_shape s root r e kids Hf Hfind Hq)
    as (txt & S & _ & Hforest & _).
  cbv zeta in Hforest.
  set (s1 := Inline.attachCharCounterToView root s) in *.
  set (k := Elem (next_ref s) (mkElement "div" "" [Inline.COUNTER_CLASS] []) txt) in *.
  assert (Hfind1 : find_node (forest s1) root = Some (Elem r e (kids ++ [k]))).
  { rewrite Hforest, find_node_update by (apply ref_of_append_child).
    rewrite Hfind. reflexivity. }
  unfold Inline.attachCharCounterToView at 1. rewrite Hfind1.
  destruct (querySelector Inline.counter_selector (Elem r e (kids ++ [k]))) eqn:Hq1;
    [reflexivity|].
  exfalso. apply (querySelector_appended Inline.counter_selector r e kids k);
    [reflexivity | exact Hq1].
Qed.

Lemma inline_attach_idempotent_witness :
  Inline.attachCharCounterToView 1 (Inline.attachCharCounterToView 1 (ex_page None))
  = Inline.attachCharCounterToView 1 (ex_page None).
Proof.
  apply (inline_attach_idempotent (ex_page None) 1 (ex_page_fresh None)).
  intros t H. vm_compute in H. injection H as <-. reflexivity.
Defined.

Lemma rendered_not_empty S T : 0 < js_length (rendered S T).
Proof.
  unfold rendered, msg_selected, msg_total, js_length.
  destruct (0 <? List.length S); rewrite length_app; simpl; lia.
Qed.

(** X12. In the inline variant the counter is the last child of its root,
    so the root's text is the page text followed by the counter's own text:
    the render after the first one reports a total that is the length of
    the page text plus the length of what the counter displayed before. *)
Theorem inline_total_counts_own_text (s : state) (root r : ref) (e : element)
    (kids : list node) :
  fresh_state s ->
  find_node (forest s) root = Some (Elem r e kids) ->
  querySelector Inline.counter_selector (Elem r e kids) = None ->
  let c := next_ref s in
  let s1 := Inline.attachCharCounterToView root s in
  text_of s1 root = text_of s root ++ text_of s1 c
  /\ 0 < js_length (text_of s1 c)
  /\ (exists S0, text_of s1 c = rendered S0 (text_of s root))
  /\ (forall S, qualifying_selection (forest s1) [root] (selection s1) S ->
        text_of (Inline.update root c s1) c
        = rendered S (text_of s root ++ text_of s1 c)).
Proof.
  intros Hf Hfind Hq. cbv zeta.
  destruct (inline_attach_shape s root r e kids Hf Hfind Hq)
    as (txt & S0 & Htxt & Hforest & _).
  cbv zeta in Htxt, Hforest.
  set (s1 := Inline.attachCharCounterToView root s) in *.
  set (k := Elem (next_ref s) (mkElement "div" "" [Inline.COUNTER_CLASS] []) txt) in *.
  assert (Hc : find_node (forest s1) (next_ref s) = Some k).
  { rewrite Hforest.
    apply (find_node_appended (next_ref s) root k (forest s) r e kids).
    - intros x Hx. apply (fresh_forest s x Hf Hx).
    - reflexivity.
    - exact Hfind. }
  assert (Htc : text_of s1 (next_ref s) = textContent k).
  { unfold text_of. rewrite Hc. reflexivity. }
  assert (Htr : text_of s1 root = text_of s root ++ text_of s1 (next_ref s)).
  { rewrite Htc. unfold text_of at 1 2.
    rewrite Hforest, find_node_update by (apply ref_of_append_child).
    rewrite Hfind. cbn [option_map append_child textContent].
    rewrite flat_map_app. cbn [flat_map]. rewrite app_nil_r. reflexivity. }
  split; [exact Htr|]. split; [|split].
  - rewrite Htc, Htxt. apply rendered_not_empty.
  - exists S0. rewrite Htc. exact Htxt.
  - intros S HS. rewrite <- Htr.
    apply inline_render_text; [|exact HS]. rewrite Hc. discriminate.
Qed.

Lemma inline_total_counts_own_text_witness :
  let s1 := Inline.attachCharCounterToView 1 (ex_page None) in
  text_of s1 5 = msg_total 11
  /\ text_of (Inline.update 1 5 s1) 5 = msg_total 23.
Proof.
  destruct (inline_total_counts_own_text (ex_page None) 1 1 (div ["wiki"%string])
              [Text 2 (js_of_string "hello world")]
              (ex_page_fresh None) eq_refl eq_refl)
    as (_ & _ & _ & H).
  split; [reflexivity|].
  exact (H [] (QS_null _ _ _ eq_refl)).
Defined.

Lemma doc_dom_remove n s : doc (dom_remove n s) = remove_node n (doc s).
Proof. reflexivity. Qed.

(** X13. The teardown closure that [attachCharCounterToView] registers
    undoes the attachment: run right after it, it gives back the document
    tree and the listener table of before the attachment. *)
Theorem inline_teardown_undoes_attach (s : state) (root r : ref) (e : element)
    (kids : list node) :
  fresh_state s ->
  find_node (forest s) root = Some (Elem r e kids) ->
  querySelector Inline.counter_selector (Elem r e kids) = None ->
  let s1 := Inline.attachCharCounterToView root s in
  cleanupFns s1 = cleanupFns s ++ [DetachInline root (next_ref s)]
  /\ doc (run_cleanup (DetachInline root (next_ref s)) s1) = doc s
  /\ listeners (run_cleanup (DetachInline root (next_ref s)) s1) = listeners s.
Proof.
  intros Hf Hfind Hq. cbv zeta.
  destruct (inline_attach_shape s root r e kids Hf Hfind Hq)
    as (txt & S0 & _ & Hforest & Hl & Hc & _).
  cbv zeta in Hforest, Hl.
  set (s1 := Inline.attachCharCounterToView root s) in *.
  set (k := Elem (next_ref s) (mkElement "div" "" [Inline.COUNTER_CLASS] []) txt) in *.
  split; [exact Hc|]. cbn [run_cleanup]. split.
  - rewrite doc_dom_remove.
    change (remove_node (next_ref s) (doc s1) = doc s).
    rewrite (doc_of_forest s s1 _ Hforest).
    apply prune_after_append; [|reflexivity].
    intros x Hx. apply (fresh_doc s x Hf Hx).
  - unfold dom_remove, removeEventListener. autorewrite with frame.
    cbn [listeners set_listeners]. rewrite Hl.
    rewrite remove_first_app by (apply fresh_inline_handler; exact Hf).
    rewrite remove_first_app by (apply fresh_inline_handler; exact Hf).
    rewrite (remove_first_app _ (listeners s) [])
      by (apply fresh_inline_handler; exact Hf).
    apply app_nil_r.
Qed.

Lemma inline_teardown_undoes_attach_witness :
  doc (run_cleanup (DetachInline 1 5) (Inline.attachCharCounterToView 1 (ex_page None)))
  = doc (ex_page None).
Proof.
  exact (proj1 (proj2 (inline_teardown_undoes_attach (ex_page None) 1 1
                         (div ["wiki"%string]) [Text 2 (js_of_string "hello world")]
                         (ex_page_fresh None) eq_refl eq_refl))).
Defined.

(** ** The locator and the selector of the observer callbacks *)

Lemma node_matches_group x :
  node_matches content_group x
  = node_matches sel_testid x || node_matches sel_wiki x
    || node_matches sel_page_content x || node_matches sel_content_main x.
Proof.
  destruct x as [r d|r e kids]; [reflexivity|]. simpl.
  rewrite !orb_false_r, !orb_assoc. reflexivity.
Qed.

Lemma qsa_nil_iff sel d :
  document_querySelectorAll sel d = []
  <-> forall x, In x (subtrees d) -> node_matches sel x = false.
Proof.
  unfold document_querySelectorAll. split.
  - intros H x Hx. destruct (node_matches sel x) eqn:E; [|reflexivity].
    assert (Hf : In x (filter (node_matches sel) (subtrees d)))
      by (apply filter_In; split; assumption).
    destruct (filter (node_matches sel) (subtrees d)); [destruct Hf | discriminate].
  - intros H.
    destruct (filter (node_matches sel) (subtrees d)) as [|x l] eqn:E; [reflexivity|].
    assert (Hx : In x (filter (node_matches sel) (subtrees d)))
      by (rewrite E; left; reflexivity).
    apply filter_In in Hx. destruct Hx as [Hin Hm].
    rewrite (H x Hin) in Hm. discriminate.
Qed.

Lemma qsa_member sel d v :
  In v (document_querySelectorAll sel d) ->
  exists x, In x (subtrees d) /\ ref_of x = v /\ node_matches sel x = true.
Proof.
  unfold document_querySelectorAll. intros H. apply in_map_iff in H.
  destruct H as (x & Hr & Hx). apply filter_In in Hx. exists x. tauto.
Qed.

Lemma first_match_member sels d v :
  In v (first_match sels d) ->
  exists sel, In sel sels /\ In v (document_querySelectorAll sel d).
Proof.
  induction sels as [|sel sels IH]; simpl; [intros []|].
  destruct (0 <? List.length (document_querySelectorAll sel d)).
  - intros H. exists sel. split; [left; reflexivity | exact H].
  - intros H. destruct (IH H) as (sel' & Hs & Hv). exists sel'. split; [right|]; assumption.
Qed.

Lemma first_match_nil sels d :
  first_match sels d = [] ->
  forall sel, In sel sels -> document_querySelectorAll sel d = [].
Proof.
  induction sels as [|sel sels IH]; simpl; [intros _ ? []|].
  destruct (document_querySelectorAll sel d) as [|a l] eqn:E; simpl.
  - intros H sel' [<-|Hs]; [exact E | apply IH; assumption].
  - discriminate.
Qed.

Lemma locator_agrees d :
  (findContentRoots d = []
   <-> forall x, In x (subtrees d) -> node_matches content_group x = false)
  /\ (forall v, In v (findContentRoots d) ->
        exists x, In x (subtrees d) /\ ref_of x = v
                  /\ node_matches content_group x = true).
Proof.
  split; [split|].
  - intros H x Hx. rewrite node_matches_group.
    pose proof (first_match_nil _ _ H) as Hn.
    rewrite (proj1 (qsa_nil_iff sel_testid d) (Hn _ (or_introl eq_refl)) x Hx).
    rewrite (proj1 (qsa_nil_iff sel_wiki d) (Hn _ (or_intror (or_introl eq_refl))) x Hx).
    rewrite (proj1 (qsa_nil_iff sel_page_content d)
               (Hn _ (or_intror (or_intror (or_introl eq_refl)))) x Hx).
    rewrite (proj1 (qsa_nil_iff sel_content_main d)
               (Hn _ (or_intror (or_intror (or_intror (or_introl eq_refl))))) x Hx).
    reflexivity.
  - intros H. unfold findContentRoots. apply first_match_none.
    intros sel Hsel. apply qsa_nil_iff. intros x Hx.
    specialize (H x Hx). rewrite node_matches_group in H.
    apply orb_false_iff in H. destruct H as [H H4].
    apply orb_false_iff in H. destruct H as [H H3].
    apply orb_false_iff in H. destruct H as [H1 H2].
    destruct Hsel as [<-|[<-|[<-|[<-|[]]]]]; assumption.
  - intros v Hv. destruct (first_match_member _ _ _ Hv) as (sel & Hsel & Hin).
    destruct (qsa_member _ _ _ Hin) as (x & Hx & Hr & Hm).
    exists x. repeat split; trivial. rewrite node_matches_group.
    destruct Hsel as [<-|[<-|[<-|[<-|[]]]]]; rewrite Hm;
      rewrite ?orb_true_r; reflexivity.
Qed.

(** X14. The root locator and the observer callbacks agree on what a content
    root is: the locator returns the empty list exactly when no element of
    the document matches the combined selector that the callbacks test, and
    every element it returns matches that selector. *)
Theorem locator_agrees_with_callback_selector (d : node) :
  (findContentRoots d = []
   <-> forall x, In x (subtrees d) -> node_matches content_group x = false)
  /\ (forall v, In v (findContentRoots d) ->
        exists x, In x (subtrees d) /\ ref_of x = v
                  /\ node_matches content_group x = true).
Proof.
  split; [split|].
  - intros H x Hx. rewrite node_matches_group.
    pose proof (first_match_nil _ _ H) as Hn.
    rewrite (proj1 (qsa_nil_iff sel_testid d) (Hn _ (or_introl eq_refl)) x Hx).
    rewrite (proj1 (qsa_nil_iff sel_wiki d) (Hn _ (or_intror (or_introl eq_refl))) x Hx).
    rewrite (proj1 (qsa_nil_iff sel_page_content d)
               (Hn _ (or_intror (or_intror (or_introl eq_refl)))) x Hx).
    rewrite (proj1 (qsa_nil_iff sel_content_main d)
               (Hn _ (or_intror (or_intror (or_intror (or_introl eq_refl))))) x Hx).
    reflexivity.
  - intros H. unfold findContentRoots. apply first_match_none.
    intros sel Hsel. apply qsa_nil_iff. intros x Hx.
    specialize (H x Hx). rewrite node_matches_group in H.
    apply orb_false_iff in H. destruct H as [H H4].
    apply orb_false_iff in H. destruct H as [H H3].
    apply orb_false_iff in H. destruct H as [H1 H2].
    destruct Hsel as [<-|[<-|[<-|[<-|[]]]]]; assumption.
  - intros v Hv. destruct (first_match_member _ _ _ Hv) as (sel & Hsel & Hin).
    destruct (qsa_member _ _ _ Hin) as (x & Hx & Hr & Hm).
    exists x. repeat split; trivial. rewrite node_matches_group.
    destruct Hsel as [<-|[<-|[<-|[<-|[]]]]]; rewrite Hm;
      rewrite ?orb_true_r; reflexivity.
Qed.

Lemma locator_agrees_with_callback_selector_witness :
  exists x, In x (subtrees (doc (ex_page None))) /\ ref_of x = 1
            /\ node_matches content_group x = true.
Proof.
  apply (proj2 (locator_agrees_with_callback_selector (doc (ex_page None))) 1).
  left. reflexivity.
Defined.

Lemma subtrees_trans t : forall d x,
  In t (subtrees d) -> In x (subtrees t) -> In x (subtrees d).
Proof.
  intros d. induction d as [r dd|r e kids IH] using node_ind'; intros x Ht Hx.
  - destruct Ht as [<-|[]]. exact Hx.
  - rewrite subtrees_elem in Ht. destruct Ht as [<-|Ht]; [exact Hx|].
    rewrite subtrees_elem. right.
    apply in_flat_map in Ht. destruct Ht as (k & Hk & Ht).
    apply in_flat_map. exists k. split; [exact Hk|].
    rewrite Forall_forall in IH. apply (IH k Hk); assumption.
Qed.

(** X15. When an added element that matches the content selectors, or
    contains a match, is in the document at the time the floating callback
    runs, the callback queries the locator exactly once, renders exactly
    once, and leaves a non-empty cached root set. *)
Theorem floating_callback_once_for_present_match (batch : list mutation)
    (s : state) (m : mutation) (n : ref) (t : node) :
  In m batch -> In n (addedNodes m) ->
  find_node (forest s) n = Some t -> isElement t = true ->
  In t (subtrees (doc s)) ->
  matches_or_contains content_group t ->
  log (Floating.observerCallback batch s)
  = log s ++ [CallFindContentRoots; CallRender]
  /\ contentRoots (Floating.observerCallback batch s) = findContentRoots (doc s)
  /\ findContentRoots (doc s) <> [].
Proof.
  intros Hm Hn Hfind Hel Hin Hmc.
  assert (Hne : findContentRoots (doc s) <> []).
  { intros E. pose proof (proj1 (proj1 (locator_agrees (doc s))) E) as Hnone.
    destruct Hmc as [Hmt|(x & Hx & Hmx)].
    - rewrite (Hnone t Hin) in Hmt. discriminate.
    - assert (Hxd : In x (subtrees (doc s))).
      { apply (subtrees_trans t); [exact Hin|].
        destruct t as [r d|r e kids]; [destruct Hx|].
        rewrite subtrees_elem. right. exact Hx. }
      rewrite (Hnone x Hxd) in Hmx. discriminate. }
  assert (Hflag : batch_flag (Floating.qualifies s) batch = true).
  { apply floating_qualifies_spec. exists m, n, t, content_group.
    repeat split; trivial. left. reflexivity. }
  unfold Floating.observerCallback. rewrite Hflag. cbn [call_findContentRoots].
  split; [|split; [|exact Hne]].
  - rewrite floating_log_updateCounter.
    cbn [log record contentRoots set_contentRoots].
    destruct (findContentRoots (doc s)); [contradiction|].
    cbn [List.length Nat.eqb]. rewrite <- app_assoc. reflexivity.
  - apply (proj1 (floating_cached_roots_kept
                    (set_contentRoots (findContentRoots (doc s))
                       (record CallFindContentRoots s)) Hne)).
Qed.

Lemma floating_callback_once_for_present_match_witness :
  log (Floating.observerCallback [mkMutation [1]] (ex_page None))
  = [CallFindContentRoots; CallRender].
Proof.
  refine (proj1 (floating_callback_once_for_present_match [mkMutation [1]]
            (ex_page None) (mkMutation [1]) 1
            (Elem 1 (div ["wiki"%string]) [Text 2 (js_of_string "hello world")])
            _ _ eq_refl eq_refl _ _)).
  - left. reflexivity.
  - left. reflexivity.
  - vm_compute. right. left. reflexivity.
  - left. reflexivity.
Defined.

(** ** A counter element that is already there *)

Lemma floating_measured_existing s c :
  getElementById Floating.COUNTER_ID (doc s) = Some c ->
  floating_measured s = (c, refresh_roots (record CallRender s)).
Proof.
  intros H. unfold floating_measured, Floating.ensureFloatingCounter.
  change (doc (record CallRender s)) with (doc s). rewrite H. reflexivity.
Qed.

Lemma cleanupFns_refresh_roots s : cleanupFns (refresh_roots s) = cleanupFns s.
Proof. unfold refresh_roots. destruct (_ =? 0); reflexivity. Qed.

Lemma floating_render_existing s c :
  getElementById Floating.COUNTER_ID (doc s) = Some c ->
  cleanupFns (Floating.updateCounter s) = cleanupFns s
  /\ next_ref (Floating.updateCounter s) = S (next_ref s)
  /\ 0 < js_length (text_of (Floating.updateCounter s) c).
Proof.
  intros H. pose proof (floating_counter_present s) as Hc.
  rewrite floating_updateCounter_measured. cbv zeta.
  rewrite (floating_measured_existing s c H) in *. cbn [fst snd] in *.
  set (s2 := refresh_roots (record CallRender s)) in *.
  assert (Hcl : cleanupFns s2 = cleanupFns s)
    by (unfold s2; rewrite cleanupFns_refresh_roots; reflexivity).
  assert (Hn : next_ref s2 = next_ref s)
    by (unfold s2, refresh_roots; destruct (_ =? 0); reflexivity).
  destruct (List.length (contentRoots s2) =? 0).
  - split; [|split].
    + unfold dom_setTextContent, dom_update. autorewrite with frame. exact Hcl.
    + unfold dom_setTextContent, dom_update. autorewrite with frame.
      cbn [next_ref set_next_ref]. rewrite Hn. reflexivity.
    + rewrite text_of_setTextContent by exact Hc. vm_compute. lia.
  - split; [|split].
    + unfold dom_setTextContent, dom_update. autorewrite with frame. exact Hcl.
    + unfold dom_setTextContent, dom_update. autorewrite with frame.
      cbn [next_ref set_next_ref]. rewrite Hn. reflexivity.
    + rewrite text_of_setTextContent by exact Hc.
      unfold rendered, msg_selected, msg_total, js_length.
      destruct (0 <? List.length _); rewrite length_app; simpl; lia.
Qed.

(** X16. When the document already has an element with the floating
    counter's id, [activate] writes into that element without creating a
    node or registering a teardown for it, so the following [deactivate]
    leaves the element, with the rendered text, in the document. *)
Theorem floating_existing_surface_survives (s : state) (c : ref) :
  has_window s = true ->
  cleanupFns s = [] ->
  getElementById Floating.COUNTER_ID (doc s) = Some c ->
  let s' := deactivate (Floating.activate s) in
  cleanupFns (Floating.activate s) = [RemoveDocumentListeners]
  /\ forest s' = forest (Floating.activate s)
  /\ 0 < js_length (text_of s' c).
Proof.
  intros Hw Hc Hid. cbv zeta.
  destruct (floating_render_existing
              (set_contentRoots (findContentRoots (doc s))
                 (record CallFindContentRoots s)) c Hid) as (Hcl & _ & Hlen).
  cbn [cleanupFns set_contentRoots record] in Hcl. rewrite Hc in Hcl.
  assert (HA : cleanupFns (Floating.activate s) = [RemoveDocumentListeners]).
  { unfold Floating.activate. rewrite Hw. cbn [negb].
    unfold Floating.startObserveView, call_findContentRoots, observe_body.
    cbv beta iota zeta.
    set (u := Floating.updateCounter _) in *.
    set (v := set_observer _ _).
    set (a1 := addEventListener OnDocument keyup HUpdateCounter v).
    set (a2 := addEventListener OnDocument mouseup HUpdateCounter a1).
    destruct (addEventListener_frame OnDocument keyup HUpdateCounter v)
      as (_ & _ & _ & _ & C1).
    destruct (addEventListener_frame OnDocument mouseup HUpdateCounter a1)
      as (_ & _ & _ & _ & C2).
    destruct (addEventListener_frame OnDocument selectionchange HUpdateCounter a2)
      as (_ & _ & _ & _ & C3).
    fold a1 in C1, C2. fold a2 in C2, C3.
    cbn [cleanupFns push_cleanup set_cleanupFns].
    rewrite C3, C2, C1. unfold v. cbn [cleanupFns set_observer set_observing].
    rewrite Hcl. reflexivity. }
  assert (HF : forest (deactivate (Floating.activate s))
               = forest (Floating.activate s)).
  { set (A := Floating.activate s) in *. unfold deactivate.
    destruct (observer A);
      cbn [cleanupFns set_observer disconnect set_observing];
      rewrite HA; reflexivity. }
  split; [exact HA|]. split; [exact HF|].
  rewrite (text_of_forest _ _ c HF).
  unfold Floating.activate. rewrite Hw. cbn [negb].
  rewrite (text_of_forest _ _ c (floating_startObserveView_forest s)).
  exact Hlen.
Qed.

Lemma floating_existing_surface_survives_witness :
  0 < js_length (text_of (deactivate (Floating.activate ex_leftover_counter)) 1)
  /\ text_of ex_leftover_counter 1 = [].
Proof.
  split; [|reflexivity].
  exact (proj2 (proj2 (floating_existing_surface_survives ex_leftover_counter 1
                         eq_refl eq_refl eq_refl))).
Defined.

(** ** Activation followed by deactivation (inline variant) *)

Lemma ref_of_prune p t : ref_of (prune p t) = ref_of t.
Proof. destruct t; reflexivity. Qed.

Lemma ref_of_update_at n g t :
  (forall x, ref_of (g x) = ref_of x) -> ref_of (update_at n g t) = ref_of t.
Proof.
  intros Hg. destruct t as [r d|r e kids]; simpl;
    (destruct (r =? n); [apply Hg | reflexivity]).
Qed.

Lemma filter_map_ref (p : ref -> bool) (g : node -> node) (l : list node) :
  (forall x, ref_of (g x) = ref_of x) ->
  filter (fun k => p (ref_of k)) (List.map g l)
  = List.map g (filter (fun k => p (ref_of k)) l).
Proof.
  intros Hg. induction l as [|x l IH]; [reflexivity|]. simpl.
  rewrite Hg. destruct (p (ref_of x)); simpl; rewrite IH; reflexivity.
Qed.

Lemma remove_update_commute c r k t :
  (forall x, In x (subtrees k) -> ref_of x <> c) ->
  remove_node c (update_at r (append_child k) t)
  = update_at r (append_child k) (remove_node c t).
Proof.
  intros Hk.
  assert (Hpk : remove_node c k = k).
  { apply prune_fresh. intros x Hx. apply Nat.eqb_neq. intros E.
    apply (Hk x Hx). symmetry. exact E. }
  assert (Hrk : (c =? ref_of k) = false).
  { apply Nat.eqb_neq. intros E. apply (Hk k); [|symmetry; exact E].
    destruct (subtrees_head k) as [l ->]. left. reflexivity. }
  induction t as [x d|x e kids IH] using node_ind'.
  - simpl. destruct (x =? r); reflexivity.
  - cbn [update_at ref_of remove_node prune]. destruct (x =? r).
    + cbn [append_child remove_node prune]. f_equal.
      rewrite map_app, filter_app. cbn [List.map filter].
      fold (remove_node c k). rewrite Hpk, Hrk. reflexivity.
    + cbn [remove_node prune]. f_equal.
      assert (E : List.map (remove_node c)
                    (List.map (update_at r (append_child k)) kids)
                  = List.map (update_at r (append_child k))
                      (List.map (remove_node c) kids)).
      { clear -IH. induction kids as [|y kids IHk]; [reflexivity|].
        apply Forall_cons_iff in IH. destruct IH as [Hy Hrest].
        cbn [List.map]. f_equal; [exact Hy | apply IHk; exact Hrest]. }
      rewrite E.
      apply (filter_map_ref (fun y => negb (c =? y))
               (update_at r (append_child k))).
      intros y. apply ref_of_update_at. apply ref_of_append_child.
Qed.

Lemma counter_node_refs a x :
  (forall y, In y (flat_map subtrees (snd a)) -> ref_of y = S (att_counter a)) ->
  In x (subtrees (counter_node a)) ->
  ref_of x = att_counter a \/ ref_of x = S (att_counter a).
Proof.
  intros Htxt Hx. unfold counter_node in Hx. rewrite subtrees_elem in Hx.
  destruct Hx as [<-|Hx]; [left; reflexivity | right; apply Htxt; exact Hx].
Qed.

Lemma spaced_bounds l : forall lo hi a x,
  spaced lo l hi -> In a l -> In x (subtrees (counter_node a)) -> lo <= ref_of x.
Proof.
  induction l as [|b l IH]; intros lo hi a x Hs Ha Hx; [destruct Ha|].
  cbn [spaced] in Hs. destruct Hs as (Hlo & Htxt & Hrest).
  destruct Ha as [<-|Ha].
  - destruct (counter_node_refs b x Htxt Hx) as [E|E]; rewrite E; lia.
  - pose proof (IH _ _ a x Hrest Ha Hx). lia.
Qed.

Lemma remove_attach_all_commute c l : forall d,
  (forall a x, In a l -> In x (subtrees (counter_node a)) -> ref_of x <> c) ->
  remove_node c (attach_all l d) = attach_all l (remove_node c d).
Proof.
  induction l as [|a l IH]; intros d H; [reflexivity|].
  unfold attach_all in *. cbn [fold_left].
  rewrite IH by (intros b x Hb Hx; apply (H b x); [right; exact Hb | exact Hx]).
  rewrite remove_update_commute; [reflexivity|].
  intros x Hx. apply (H a x); [left; reflexivity | exact Hx].
Qed.

Lemma attaches_removed l : forall lo hi d,
  spaced lo l hi ->
  (forall x, In x (subtrees d) -> ref_of x < lo) ->
  remove_all l (attach_all l d) = d.
Proof.
  induction l as [|a l IH]; intros lo hi d Hs Hd; [reflexivity|].
  cbn [spaced] in Hs. destruct Hs as (Hlo & Htxt & Hrest).
  change (remove_all (a :: l) (attach_all (a :: l) d))
    with (remove_all l (remove_node (att_counter a)
            (attach_all l (update_at (att_root a) (append_child (counter_node a)) d)))).
  rewrite remove_attach_all_commute.
  - rewrite prune_after_append.
    + apply (IH (S (S (att_counter a))) hi); [exact Hrest|].
      intros x Hx. pose proof (Hd x Hx). lia.
    + intros x Hx. pose proof (Hd x Hx). lia.
    + reflexivity.
  - intros b x Hb Hx. pose proof (spaced_bounds l _ _ b x Hrest Hb Hx). lia.
Qed.

Lemma remove_listeners_all l : forall L0,
  (forall a x, In a l -> In x (attachment_listeners a) ->
               existsb (listener_eqb x) L0 = false) ->
  remove_listeners l (L0 ++ flat_map attachment_listeners l) = L0.
Proof.
  induction l as [|a l IH]; intros L0 H.
  - simpl. apply app_nil_r.
  - unfold remove_listeners in *. cbn [fold_left flat_map].
    assert (Ha : forall x, In x (attachment_listeners a) ->
                           existsb (listener_eqb x) L0 = false).
    { intros x Hx. apply (H a x); [left; reflexivity | exact Hx]. }
    unfold attachment_listeners in *. cbn [fold_left app].
    rewrite remove_first_app by (apply Ha; left; reflexivity).
    rewrite remove_first_app by (apply Ha; right; left; reflexivity).
    rewrite remove_first_app by (apply Ha; right; right; left; reflexivity).
    apply IH. intros b x Hb Hx. apply (H b x); [right; exact Hb | exact Hx].
Qed.

Lemma drain_attachments l : forall s,
  let s' := fold_left drain_step (List.map attachment_cleanup l) s in
  doc s' = remove_all l (doc s)
  /\ listeners s' = remove_listeners l (listeners s).
Proof.
  induction l as [|a l IH]; intros s; [split; reflexivity|].
  cbn [List.map fold_left]. cbv zeta.
  destruct (IH (drain_step s (attachment_cleanup a))) as [Hd Hl].
  cbv zeta in Hd, Hl. rewrite Hd, Hl. split.
  - reflexivity.
  - unfold drain_step, attachment_cleanup. cbn [run_cleanup].
    unfold dom_remove, removeEventListener. autorewrite with frame.
    reflexivity.
Qed.

Lemma subtrees_update_append root k t x :
  In x (subtrees (update_at root (append_child k) t)) ->
  (exists y, In y (subtrees t) /\ ref_of y = ref_of x) \/ In x (subtrees k).
Proof.
  revert x. induction t as [r d|r e kids IH] using node_ind'; intros x Hx.
  - left. simpl in Hx. destruct (r =? root); simpl in Hx;
      destruct Hx as [<-|[]]; exists (Text r d); split;
      try reflexivity; left; reflexivity.
  - cbn [update_at ref_of] in Hx. destruct (r =? root).
    + cbn [append_child] in Hx. rewrite subtrees_elem in Hx.
      destruct Hx as [<-|Hx].
      * left. exists (Elem r e kids). split; [left; reflexivity | reflexivity].
      * rewrite flat_map_app in Hx. apply in_app_or in Hx. destruct Hx as [Hx|Hx].
        -- left. exists x. split; [|reflexivity]. rewrite subtrees_elem. right. exact Hx.
        -- right. simpl in Hx. rewrite app_nil_r in Hx. exact Hx.
    + rewrite subtrees_elem in Hx. destruct Hx as [<-|Hx].
      * left. exists (Elem r e kids). split; [left; reflexivity | reflexivity].
      * apply in_flat_map in Hx. destruct Hx as (k' & Hk' & Hx).
        apply in_map_iff in Hk'. destruct Hk' as (k0 & <- & Hk0).
        rewrite Forall_forall in IH.
        destruct (IH k0 Hk0 x Hx) as [(y & Hy & E)|Hk].
        -- left. exists y. split; [|exact E]. rewrite subtrees_elem. right.
           apply in_flat_map. exists k0. split; assumption.
        -- right. exact Hk.
Qed.

Lemma find_node_in f n t :
  find_node f n = Some t -> In t (forest_subtrees f) /\ ref_of t = n.
Proof.
  unfold find_node. intros H. apply find_some in H. destruct H as [Hin Hr].
  split; [exact Hin | apply Nat.eqb_eq; exact Hr].
Qed.

(** What one attachment does, whatever the root resolves to. *)
Lemma inline_attach_effect s root t :
  fresh_state s ->
  find_node (forest s) root = Some t ->
  querySelector Inline.counter_selector t = None ->
  let s1 := Inline.attachCharCounterToView root s in
  exists txt,
    let a : attachment := (root, next_ref s, txt) in
    (forall x, In x (flat_map subtrees txt) -> ref_of x = S (next_ref s))
    /\ forest s1 = List.map (update_at root (append_child (counter_node a))) (forest s)
    /\ listeners s1 = listeners s ++ attachment_listeners a
    /\ cleanupFns s1 = cleanupFns s ++ [attachment_cleanup a]
    /\ observing s1 = observing s /\ observer s1 = observer s
    /\ next_observer s1 = next_observer s
    /\ next_ref s1 = S (S (next_ref s)).
Proof.
  intros Hf Hfind Hq. cbv zeta.
  unfold Inline.attachCharCounterToView. rewrite Hfind, Hq. cbv zeta.
  set (c := next_ref s).
  set (counter := Elem c (mkElement "div" "" [Inline.COUNTER_CLASS] []) []).
  set (y := dom_update root (append_child counter) (set_next_ref (S c) s)).
  set (h := HInlineUpdate root c).
  assert (Hy : forest y = List.map (update_at root (append_child counter)) (forest s)).
  { exact (forest_dom_update root (append_child counter) (set_next_ref (S c) s)
             (isElement_append_child counter)). }
  assert (Hyl : listeners y = listeners s /\ cleanupFns y = cleanupFns s
                /\ observing y = observing s /\ observer y = observer s
                /\ next_observer y = next_observer s /\ next_ref y = S c).
  { unfold y, dom_update. autorewrite with frame. repeat split. }
  destruct Hyl as (Hyl & Hyc & Hyg & Hyo & Hyn' & Hyn).
  set (a1 := addEventListener (OnNode root) keyup h y).
  set (a2 := addEventListener (OnNode root) mouseup h a1).
  set (a3 := addEventListener OnDocument selectionchange h a2).
  assert (L1 : listeners a1 = listeners s ++ [mkListener (OnNode root) keyup h]).
  { unfold a1. rewrite listeners_addEventListener_new; rewrite Hyl;
      [reflexivity | apply fresh_inline_handler; exact Hf]. }
  assert (L2 : listeners a2 = listeners s ++ [mkListener (OnNode root) keyup h;
                                              mkListener (OnNode root) mouseup h]).
  { unfold a2. rewrite listeners_addEventListener_new; rewrite L1.
    - rewrite <- app_assoc. reflexivity.
    - rewrite existsb_app. unfold h, c. rewrite (fresh_inline_handler s root _ _ Hf).
      cbn [existsb orb]. rewrite listener_eqb_other_type; reflexivity. }
  assert (L3 : listeners a3 = listeners s ++ [mkListener (OnNode root) keyup h;
                                              mkListener (OnNode root) mouseup h;
                                              mkListener OnDocument selectionchange h]).
  { unfold a3. rewrite listeners_addEventListener_new; rewrite L2.
    - rewrite <- app_assoc. reflexivity.
    - rewrite existsb_app. unfold h, c. rewrite (fresh_inline_handler s root _ _ Hf).
      cbn [existsb orb]. rewrite !listener_eqb_other_type; reflexivity. }
  assert (F3 : forest a3 = forest y
               /\ cleanupFns a3 = cleanupFns s /\ observing a3 = observing s
               /\ observer a3 = observer s /\ next_observer a3 = next_observer s
               /\ next_ref a3 = S c).
  { unfold a3, a2, a1. rewrite !forest_addEventListener.
    unfold addEventListener.
    repeat (match goal with |- context [if ?b then _ else _] => destruct b end);
      cbn [cleanupFns observing observer next_observer next_ref set_listeners];
      repeat split; assumption. }
  destruct F3 as (F3 & C3 & G3 & O3 & N3' & N3).
  rewrite inline_update_shape.
  set (str := rendered _ _).
  exists (match str with [] => [] | _ => [Text (S c) str] end).
  split; [|split; [|split; [|split; [|split; [|split; [|split]]]]]].
  - intros x Hx. destruct str; [destruct Hx|].
    destruct Hx as [<-|[]]. reflexivity.
  - rewrite forest_push_cleanup, forest_setTextContent.
    change (forest (record CallRender a3)) with (forest a3).
    change (next_ref (record CallRender a3)) with (next_ref a3).
    rewrite F3, Hy, N3.
    apply (map_update_fresh_after_append c (put_text (S c) str) root counter (forest s)).
    + intros x Hx. apply (fresh_forest s x Hf Hx).
    + reflexivity.
  - unfold push_cleanup, dom_setTextContent, dom_update.
    autorewrite with frame. cbn [listeners set_cleanupFns set_next_ref record].
    autorewrite with frame. exact L3.
  - unfold push_cleanup, dom_setTextContent, dom_update.
    cbn [cleanupFns set_cleanupFns]. autorewrite with frame.
    cbn [cleanupFns set_next_ref record]. rewrite C3. reflexivity.
  - unfold push_cleanup, dom_setTextContent, dom_update.
    cbn [observing set_cleanupFns]. autorewrite with frame.
    cbn [observing set_next_ref record]. exact G3.
  - unfold push_cleanup, dom_setTextContent, dom_update.
    cbn [observer set_cleanupFns]. autorewrite with frame.
    cbn [observer set_next_ref record]. exact O3.
  - unfold push_cleanup, dom_setTextContent, dom_update.
    cbn [next_observer set_cleanupFns]. autorewrite with frame.
    cbn [next_observer set_next_ref record]. exact N3'.
  - unfold push_cleanup, dom_setTextContent, dom_update.
    cbn [next_ref set_cleanupFns]. autorewrite with frame.
    cbn [next_ref set_next_ref record]. rewrite N3. reflexivity.
Qed.

Lemma inline_attach_fresh s root t :
  fresh_state s ->
  find_node (forest s) root = Some t ->
  querySelector Inline.counter_selector t = None ->
  fresh_state (Inline.attachCharCounterToView root s).
Proof.
  intros Hf Hfind Hq.
  destruct (inline_attach_effect s root t Hf Hfind Hq)
    as (txt & Htxt & Hforest & Hl & _ & Hg & _ & Hn' & Hn).
  cbv zeta in *.
  set (s1 := Inline.attachCharCounterToView root s) in *.
  destruct (find_node_in _ _ _ Hfind) as [Hin Hroot].
  assert (Hrootlt : root < next_ref s).
  { destruct Hf as (Hr & _). rewrite <- Hroot. apply Hr. unfold refs.
    apply in_map. exact Hin. }
  split; [|split].
  - intros r Hr. rewrite Hn. unfold refs in Hr. rewrite Hforest in Hr.
    apply in_map_iff in Hr. destruct Hr as (x & <- & Hx).
    unfold forest_subtrees in Hx. apply in_flat_map in Hx.
    destruct Hx as (u & Hu & Hx). apply in_map_iff in Hu.
    destruct Hu as (u0 & <- & Hu0).
    destruct (subtrees_update_append _ _ _ _ Hx) as [(y & Hy & E)|Hk].
    + rewrite <- E. destruct Hf as (Hr & _).
      assert (H : ref_of y < next_ref s).
      { apply Hr. unfold refs. apply in_map. unfold forest_subtrees.
        apply in_flat_map. exists u0. split; assumption. }
      lia.
    + destruct (counter_node_refs (root, next_ref s, txt) x Htxt Hk) as [E|E];
        rewrite E; cbn; lia.
  - intros l r Hl' Hr. rewrite Hn. rewrite Hl in Hl'. apply in_app_or in Hl'.
    destruct Hl' as [Hold|Hnew].
    + destruct Hf as (_ & Hh & _). pose proof (Hh l r Hold Hr). lia.
    + unfold attachment_listeners in Hnew. cbn in Hnew.
      destruct Hnew as [<-|[<-|[<-|[]]]]; cbn in Hr;
        destruct Hr as [<-|[<-|[]]]; lia.
  - intros o Ho. rewrite Hn'. rewrite Hg in Ho. destruct Hf as (_ & _ & Hobs).
    apply Hobs. exact Ho.
Qed.

Lemma inline_attach_noop s root :
  (find_node (forest s) root = None
   \/ exists t x, find_node (forest s) root = Some t
                  /\ querySelector Inline.counter_selector t = Some x) ->
  Inline.attachCharCounterToView root s = s.
Proof.
  unfold Inline.attachCharCounterToView.
  intros [H|(t & x & H & Hq)]; rewrite H; [|rewrite Hq]; reflexivity.
Qed.

Lemma inline_attach_series roots : forall s,
  fresh_state s ->
  let s' := fold_left (fun st root => Inline.attachCharCounterToView root st) roots s in
  exists l,
    doc s' = attach_all l (doc s)
    /\ listeners s' = listeners s ++ flat_map attachment_listeners l
    /\ cleanupFns s' = cleanupFns s ++ List.map attachment_cleanup l
    /\ spaced (next_ref s) l (next_ref s')
    /\ observing s' = observing s /\ observer s' = observer s
    /\ next_observer s' = next_observer s.
Proof.
  induction roots as [|root roots IH]; intros s Hf; cbv zeta.
  - exists []. cbn. rewrite !app_nil_r. repeat split. lia.
  - cbn [fold_left].
    destruct (find_node (forest s) root) as [t|] eqn:Hfind.
    2:{ rewrite (inline_attach_noop s root) by (left; exact Hfind).
        exact (IH s Hf). }
    destruct (querySelector Inline.counter_selector t) as [x|] eqn:Hq.
    { rewrite (inline_attach_noop s root)
        by (right; exists t, x; split; assumption).
      exact (IH s Hf). }
    destruct (inline_attach_effect s root t Hf Hfind Hq)
      as (txt & Htxt & Hforest & Hl & Hc & Hg & Ho & Hn' & Hn).
    pose proof (inline_attach_fresh s root t Hf Hfind Hq) as Hf1.
    cbv zeta in *.
    set (s1 := Inline.attachCharCounterToView root s) in *.
    destruct (IH s1 Hf1) as (l & Hd' & Hl' & Hc' & Hs' & Hg' & Ho' & Hn'').
    cbv zeta in *.
    exists ((root, next_ref s, txt) :: l).
    split; [|split; [|split; [|split; [|split; [|split]]]]].
    + rewrite Hd', (doc_of_forest s s1 _ Hforest). reflexivity.
    + rewrite Hl', Hl. cbn [flat_map]. rewrite <- app_assoc. reflexivity.
    + rewrite Hc', Hc. cbn [List.map]. rewrite <- app_assoc. reflexivity.
    + cbn [spaced]. split; [cbn; lia|]. split; [exact Htxt|].
      rewrite Hn in Hs'. exact Hs'.
    + rewrite Hg'. exact Hg.
    + rewrite Ho'. exact Ho.
    + rewrite Hn''. exact Hn'.
Qed.

(** X17. In a browser, with the plugin idle, [activate] of the inline
    variant followed by [deactivate] gives back the document tree, the
    listener table and the set of connected observers of before, whatever
    the page contains: every counter attached by the activation is removed
    and every listener it added is taken off again. *)
Theorem inline_activate_deactivate_restores (s : state) :
  has_window s = true -> fresh_state s ->
  observer s = None -> cleanupFns s = [] ->
  let s' := deactivate (Inline.activate s) in
  doc s' = doc s /\ node_count (doc s') = node_count (doc s)
  /\ listeners s' = listeners s /\ observing s' = observing s
  /\ observer s' = None /\ cleanupFns s' = [].
Proof.
  intros Hw Hf Ho Hc. cbv zeta.
  unfold Inline.activate. rewrite Hw. cbn [negb].
  unfold Inline.startObserveView, observe_body. cbv beta iota zeta.
  destruct (inline_attach_series (findContentRoots (doc s))
              (record CallFindContentRoots s) Hf)
    as (l & Hd & Hl & Hcl & Hsp & Hg & Hob & Hn).
  cbv zeta in *.
  set (z := fold_left _ _ _) in *.
  cbn [doc body_ref body_el body_kids listeners cleanupFns next_ref observing
       observer next_observer record] in Hd, Hl, Hcl, Hsp, Hg, Hob, Hn.
  fold (doc s) in Hd. rewrite Hc in Hcl. cbn [app] in Hcl.
  set (A := set_observer (Some (next_observer z))
              (set_observing (observing z ++ [next_observer z])
                 (S (next_observer z)) z)).
  assert (HA : observer A = Some (next_observer z)
               /\ cleanupFns A = List.map attachment_cleanup l) by (split; [reflexivity | exact Hcl]).
  destruct HA as [HAo HAc].
  unfold deactivate. rewrite HAo.
  set (X := set_cleanupFns [] (set_observer None (disconnect (next_observer z) A))).
  assert (Hfns : cleanupFns (set_observer None (disconnect (next_observer z) A))
                 = List.map attachment_cleanup l) by exact HAc.
  cbv zeta. rewrite Hfns.
  destruct (drain_attachments l X) as [HdX HlX]. cbv zeta in HdX, HlX.
  destruct (drain_frame (List.map attachment_cleanup l) X) as (HoX & HcX & HgX & _).
  cbv zeta in HoX, HcX, HgX.
  change (fun st fn => run_cleanup fn (record (CallCleanup fn) st)) with drain_step.
  assert (Hdoc : doc (fold_left drain_step (List.map attachment_cleanup l) X) = doc s).
  { rewrite HdX. change (doc X) with (doc z). rewrite Hd.
    apply (attaches_removed l (next_ref s) (next_ref z)); [exact Hsp|].
    intros x Hx. destruct Hf as (Hr & _). apply Hr. unfold refs.
    apply in_map. unfold forest, forest_subtrees. cbn [flat_map].
    apply in_or_app. left. exact Hx. }
  split; [exact Hdoc|]. split; [rewrite Hdoc; reflexivity|].
  split; [|split; [|split]].
  - rewrite HlX. change (listeners X) with (listeners z). rewrite Hl.
    apply remove_listeners_all.
    intros a x Ha Hx. apply existsb_other_handler. intros y Hy E.
    assert (Hlo : next_ref s <= att_counter a).
    { apply (spaced_bounds l _ _ a (counter_node a) Hsp Ha).
      unfold counter_node. rewrite subtrees_elem. left. reflexivity. }
    assert (Hh : l_handler x = HInlineUpdate (att_root a) (att_counter a)).
    { unfold attachment_listeners in Hx.
      destruct Hx as [<-|[<-|[<-|[]]]]; reflexivity. }
    destruct Hf as (_ & Hh' & _).
    assert (Hlt : att_counter a < next_ref s).
    { apply (Hh' y (att_counter a) Hy). rewrite E, Hh. right. left. reflexivity. }
    lia.
  - rewrite HgX.
    change (observing X)
      with (filter (fun x => negb (x =? next_observer z))
              (observing z ++ [next_observer z])).
    rewrite Hg, Hn. apply filter_fresh_observer. apply Hf.
  - rewrite HoX. reflexivity.
  - rewrite HcX. reflexivity.
Qed.

Lemma inline_activate_deactivate_restores_witness :
  doc (deactivate (Inline.activate ex_two_pages)) = doc ex_two_pages
  /\ listeners (deactivate (Inline.activate ex_two_pages)) = [].
Proof.
  assert (Hf : fresh_state ex_two_pages).
  { split; [|split].
    - intros r Hr. vm_compute in Hr.
      repeat (destruct Hr as [<-|Hr]; [simpl; lia|]). destruct Hr.
    - intros l r [].
    - intros o []. }
  destruct (inline_activate_deactivate_restores ex_two_pages eq_refl Hf
              eq_refl eq_refl) as (Hd & _ & Hl & _).
  split; [exact Hd | exact Hl].
Defined.

(** ** Registration with the host *)







(** ** Every content root gets a counter (inline variant) *)

Lemma node_matches_append_child sel k x :
  node_matches sel (append_child k x) = node_matches sel x.
Proof. destruct x; reflexivity. Qed.

Lemma node_matches_update_append sel root k t :
  node_matches sel (update_at root (append_child k) t) = node_matches sel t.
Proof.
  destruct t as [r d|r e kids]; simpl; destruct (r =? root); reflexivity.
Qed.

(** Every node of a tree has an image with the same element after a
    counter has been appended somewhere. *)
Lemma subtree_image sel root k t : forall d,
  In d (subtrees t) ->
  exists d', In d' (subtrees (update_at root (append_child k) t))
             /\ node_matches sel d' = node_matches sel d.
Proof.
  induction t as [r dd|r e kids IH] using node_ind'; intros d Hd.
  - destruct Hd as [<-|[]]. exists (update_at root (append_child k) (Text r dd)).
    split; [|apply node_matches_update_append].
    destruct (subtrees_head (update_at root (append_child k) (Text r dd))) as [l ->].
    left. reflexivity.
  - rewrite subtrees_elem in Hd. destruct Hd as [<-|Hd].
    + exists (update_at root (append_child k) (Elem r e kids)).
      split; [|apply node_matches_update_append].
      destruct (subtrees_head (update_at root (append_child k) (Elem r e kids)))
        as [l ->]. left. reflexivity.
    + cbn [update_at ref_of]. destruct (r =? root).
      * exists d. split; [|reflexivity]. cbn [append_child].
        rewrite subtrees_elem. right. rewrite flat_map_app.
        apply in_or_app. left. exact Hd.
      * apply in_flat_map in Hd. destruct Hd as (c & Hc & Hd).
        rewrite Forall_forall in IH. destruct (IH c Hc d Hd) as (d' & Hd' & Hm).
        exists d'. split; [|exact Hm]. rewrite subtrees_elem. right.
        apply in_flat_map. exists (update_at root (append_child k) c).
        split; [apply in_map; exact Hc | exact Hd'].
Qed.

(** The node that a reference resolves to keeps its kind and its matching
    descendants when a counter is appended somewhere. *)
Lemma find_after_append sel r root k t :
  (forall x, In x (subtrees k) -> ref_of x <> r) ->
  match find (fun x => ref_of x =? r) (subtrees t) with
  | None =>
      find (fun x => ref_of x =? r) (subtrees (update_at root (append_child k) t))
      = None
  | Some x =>
      exists x',
        find (fun x => ref_of x =? r)
             (subtrees (update_at root (append_child k) t)) = Some x'
        /\ isElement x' = isElement x
        /\ ((exists d, In d (descendants x) /\ node_matches sel d = true) ->
            exists d', In d' (descendants x') /\ node_matches sel d' = true)
  end.
Proof.
  intros Hk.
  assert (Hknone : find (fun x => ref_of x =? r) (subtrees k) = None).
  { apply find_none_iff. intros x Hx. apply Nat.eqb_neq. apply Hk. exact Hx. }
  induction t as [r0 dd|r0 e kids IH] using node_ind'.
  - assert (E : update_at root (append_child k) (Text r0 dd) = Text r0 dd)
      by (simpl; destruct (r0 =? root); reflexivity).
    rewrite E. destruct (find _ (subtrees (Text r0 dd))) as [x|] eqn:F; [|reflexivity].
    exists x. split; [reflexivity|]. split; [reflexivity|]. trivial.
  - rewrite subtrees_elem. cbn [find ref_of update_at].
    destruct (r0 =? r) eqn:Er.
    + (* the tree itself is the node *)
      exists (update_at root (append_child k) (Elem r0 e kids)).
      split; [|split].
      * cbn [update_at ref_of].
        destruct (r0 =? root); cbn [append_child]; rewrite subtrees_elem;
          cbn [find ref_of]; rewrite Er; reflexivity.
      * cbn [update_at ref_of]. destruct (r0 =? root); reflexivity.
      * intros (d & Hd & Hm). unfold descendants in *. cbn [children] in Hd.
        cbn [update_at ref_of]. destruct (r0 =? root); cbn [append_child children].
        -- exists d. split; [|exact Hm]. rewrite flat_map_app.
           apply in_or_app. left. exact Hd.
        -- apply in_flat_map in Hd. destruct Hd as (c & Hc & Hd).
           destruct (subtree_image sel root k c d Hd) as (d' & Hd' & Hm').
           exists d'. split; [|rewrite Hm'; exact Hm].
           apply in_flat_map. exists (update_at root (append_child k) c).
           split; [apply in_map; exact Hc | exact Hd'].
    + destruct (r0 =? root).
      * cbn [append_child]. rewrite subtrees_elem. cbn [find ref_of]. rewrite Er.
        rewrite flat_map_app. cbn [flat_map]. rewrite app_nil_r.
        destruct (find (fun x => ref_of x =? r) (flat_map subtrees kids))
          as [x|] eqn:F.
        -- exists x. split; [apply find_app_some; exact F|].
           split; [reflexivity | trivial].
        -- rewrite find_app_none by exact F. exact Hknone.
      * rewrite subtrees_elem. cbn [find ref_of]. rewrite Er.
        clear Er. induction kids as [|c kids IHk]; [reflexivity|].
        apply Forall_cons_iff in IH. destruct IH as [Hc Hrest].
        cbn [List.map flat_map].
        destruct (find (fun x => ref_of x =? r) (subtrees c)) as [x|] eqn:Fc.
        -- rewrite (find_app_some _ _ _ _ Fc).
           destruct Hc as (x' & Fx' & Hx').
           exists x'. split; [apply find_app_some; exact Fx' | exact Hx'].
        -- rewrite (find_app_none _ _ _ Fc), (find_app_none _ _ _ Hc).
           apply IHk. exact Hrest.
Qed.

Lemma find_node_after_append sel r root k f x :
  (forall y, In y (subtrees k) -> ref_of y <> r) ->
  find_node f r = Some x ->
  exists x',
    find_node (List.map (update_at root (append_child k)) f) r = Some x'
    /\ isElement x' = isElement x
    /\ ((exists d, In d (descendants x) /\ node_matches sel d = true) ->
        exists d', In d' (descendants x') /\ node_matches sel d' = true).
Proof.
  unfold find_node, forest_subtrees. intros Hk.
  induction f as [|t f IH]; intros Hfind; [discriminate|].
  cbn [List.map flat_map] in *.
  pose proof (find_after_append sel r root k t Hk) as Ht.
  destruct (find (fun y => ref_of y =? r) (subtrees t)) as [y|] eqn:Ft.
  - rewrite (find_app_some _ _ _ _ Ft) in Hfind. injection Hfind as <-.
    destruct Ht as (x' & Fx' & Hx'). exists x'.
    split; [apply find_app_some; exact Fx' | exact Hx'].
  - rewrite (find_app_none _ _ _ Ft) in Hfind. rewrite (find_app_none _ _ _ Ht).
    apply IH. exact Hfind.
Qed.

(** "The reference resolves to an element that has a counter inside." *)
Lemma has_counter_after_attach s r root x :
  fresh_state s ->
  find_node (forest s) r = Some x -> isElement x = true ->
  exists x',
    find_node (forest (Inline.attachCharCounterToView root s)) r = Some x'
    /\ isElement x' = true
    /\ (querySelector Inline.counter_selector x <> None ->
        querySelector Inline.counter_selector x' <> None).
Proof.
  intros Hf Hfind Hel.
  destruct (find_node (forest s) root) as [t|] eqn:Hroot.
  2:{ rewrite (inline_attach_noop s root) by (left; exact Hroot).
      exists x. auto. }
  destruct (querySelector Inline.counter_selector t) as [y|] eqn:Hq.
  { rewrite (inline_attach_noop s root) by (right; exists t, y; split; assumption).
    exists x. auto. }
  destruct (inline_attach_effect s root t Hf Hroot Hq) as (txt & Htxt & Hforest & _).
  cbv zeta in *. rewrite Hforest.
  assert (Hr : r < next_ref s).
  { destruct (find_node_in _ _ _ Hfind) as [Hin <-]. destruct Hf as (Hrefs & _).
    apply Hrefs. unfold refs. apply in_map. exact Hin. }
  destruct (find_node_after_append Inline.counter_selector r root
              (counter_node (root, next_ref s, txt)) (forest s) x) as (x' & Fx' & He & Hm).
  - intros z Hz E.
    destruct (counter_node_refs (root, next_ref s, txt) z Htxt Hz) as [E'|E'];
      rewrite E in E'; cbn in E'; lia.
  - exact Hfind.
  - exists x'. split; [exact Fx'|]. split; [rewrite He; exact Hel|].
    intros Hc. destruct (querySelector Inline.counter_selector x) as [v|] eqn:Qx;
      [|contradiction].
    assert (Hex : exists d, In d (descendants x)
                            /\ node_matches Inline.counter_selector d = true)
      by (apply querySelector_spec; exists v; exact Qx).
    apply Hm in Hex. apply querySelector_spec in Hex. destruct Hex as [v' Qv'].
    rewrite Qv'. discriminate.
Qed.

Lemma attach_gives_counter s r x :
  fresh_state s ->
  find_node (forest s) r = Some x -> isElement x = true ->
  exists x',
    find_node (forest (Inline.attachCharCounterToView r s)) r = Some x'
    /\ isElement x' = true
    /\ querySelector Inline.counter_selector x' <> None.
Proof.
  intros Hf Hfind Hel.
  destruct (querySelector Inline.counter_selector x) as [y|] eqn:Hq.
  { rewrite (inline_attach_noop s r) by (right; exists x, y; split; assumption).
    exists x. split; [exact Hfind|]. split; [exact Hel|]. rewrite Hq. discriminate. }
  destruct x as [r0 d|r0 e kids]; [discriminate|].
  destruct (inline_attach_effect s r _ Hf Hfind Hq) as (txt & _ & Hforest & _).
  cbv zeta in *.
  exists (Elem r0 e (kids ++ [counter_node (r, next_ref s, txt)])).
  split; [|split; [reflexivity|]].
  - rewrite Hforest, find_node_update by (apply ref_of_append_child).
    rewrite Hfind. reflexivity.
  - apply querySelector_appended. reflexivity.
Qed.

Lemma attach_series_keeps_counter roots : forall s r x,
  fresh_state s ->
  find_node (forest s) r = Some x -> isElement x = true ->
  querySelector Inline.counter_selector x <> None ->
  exists x',
    find_node (forest (fold_left (fun st root => Inline.attachCharCounterToView root st)
                         roots s)) r = Some x'
    /\ querySelector Inline.counter_selector x' <> None.
Proof.
  induction roots as [|root roots IH]; intros s r x Hf Hfind Hel Hc.
  - exists x. split; assumption.
  - cbn [fold_left].
    destruct (has_counter_after_attach s r root x Hf Hfind Hel) as (x' & F' & E' & C').
    apply (IH _ r x'); trivial; [|apply C'; exact Hc].
    destruct (find_node (forest s) root) as [t|] eqn:Hroot.
    2:{ rewrite (inline_attach_noop s root) by (left; exact Hroot). exact Hf. }
    destruct (querySelector Inline.counter_selector t) as [y|] eqn:Hq.
    { rewrite (inline_attach_noop s root)
        by (right; exists t, y; split; assumption). exact Hf. }
    exact (inline_attach_fresh s root t Hf Hroot Hq).
Qed.

Lemma attach_series_fresh_step s root :
  fresh_state s -> fresh_state (Inline.attachCharCounterToView root s).
Proof.
  intros Hf.
  destruct (find_node (forest s) root) as [t|] eqn:Hroot.
  2:{ rewrite (inline_attach_noop s root) by (left; exact Hroot). exact Hf. }
  destruct (querySelector Inline.counter_selector t) as [y|] eqn:Hq.
  { rewrite (inline_attach_noop s root)
      by (right; exists t, y; split; assumption). exact Hf. }
  exact (inline_attach_fresh s root t Hf Hroot Hq).
Qed.

Lemma attach_series_reaches roots : forall s r x,
  fresh_state s -> In r roots ->
  find_node (forest s) r = Some x -> isElement x = true ->
  exists x',
    find_node (forest (fold_left (fun st root => Inline.attachCharCounterToView root st)
                         roots s)) r = Some x'
    /\ querySelector Inline.counter_selector x' <> None.
Proof.
  induction roots as [|root roots IH]; intros s r x Hf Hin Hfind Hel; [destruct Hin|].
  cbn [fold_left]. pose proof (attach_series_fresh_step s root Hf) as Hf1.
  destruct Hin as [->|Hin].
  - destruct (attach_gives_counter s r x Hf Hfind Hel) as (x' & F' & E' & C').
    exact (attach_series_keeps_counter roots _ r x' Hf1 F' E' C').
  - destruct (has_counter_after_attach s r root x Hf Hfind Hel) as (x' & F' & E' & _).
    exact (IH _ r x' Hf1 Hin F' E').
Qed.

(** X19. After [activate] of the inline variant, every element that the
    root locator returned contains a counter element: the attachment of a
    later root never takes away the counter of an earlier one. *)
Theorem inline_activate_attaches_every_root (s : state) (r : ref) (x : node) :
  has_window s = true -> fresh_state s ->
  In r (findContentRoots (doc s)) ->
  find_node (forest s) r = Some x -> isElement x = true ->
  exists x',
    find_node (forest (Inline.activate s)) r = Some x'
    /\ querySelector Inline.counter_selector x' <> None.
Proof.
  intros Hw Hf Hin Hfind Hel.
  unfold Inline.activate. rewrite Hw. cbn [negb].
  unfold Inline.startObserveView, observe_body. cbv beta iota zeta.
  rewrite forest_set_observer, forest_set_observing.
  exact (attach_series_reaches (findContentRoots (doc s))
           (record CallFindContentRoots s) r x Hf Hin Hfind Hel).
Qed.

Lemma inline_activate_attaches_every_root_witness :
  exists x',
    find_node (forest (Inline.activate ex_two_pages)) 1 = Some x'
    /\ querySelector Inline.counter_selector x' <> None.
Proof.
  assert (Hf : fresh_state ex_two_pages).
  { split; [|split].
    - intros r Hr. vm_compute in Hr.
      repeat (destruct Hr as [<-|Hr]; [simpl; lia|]). destruct Hr.
    - intros l r [].
    - intros o []. }
  refine (inline_activate_attaches_every_root ex_two_pages 1 _ eq_refl Hf _ eq_refl eq_refl).
  vm_compute. left. reflexivity.
Defined.

(** ** The observer callback of the inline variant *)

Lemma attach_run_trans s1 s2 s3 :
  attach_run s1 s2 -> attach_run s2 s3 -> attach_run s1 s3.
Proof.
  induction 1 as [s|s root s' _ IH]; intros H; [exact H|].
  apply (run_step s root). apply IH. exact H.
Qed.

Lemma attach_run_fold roots : forall s,
  attach_run s (fold_left (fun st root => Inline.attachCharCounterToView root st)
                  roots s).
Proof.
  induction roots as [|root roots IH]; intros s; [apply run_done|].
  cbn [fold_left]. apply (run_step s root). apply IH.
Qed.

Lemma attach_run_on_added n s : attach_run s (Inline.on_added n s).
Proof.
  unfold Inline.on_added.
  destruct (find_node (forest s) n) as [t|]; [|apply run_done].
  destruct (isElement t); [|apply run_done].
  set (s1 := if node_matches content_group t
             then Inline.attachCharCounterToView n s else s).
  assert (H1 : attach_run s s1).
  { unfold s1. destruct (node_matches content_group t);
      [apply (run_step s n); apply run_done | apply run_done]. }
  destruct (find_node (forest s1) n) as [t'|]; [|exact H1].
  apply (attach_run_trans _ _ _ H1). apply attach_run_fold.
Qed.

Lemma attach_run_callback batch : forall s,
  attach_run s (Inline.observerCallback batch s).
Proof.
  unfold Inline.observerCallback.
  induction batch as [|m batch IH]; intros s; [apply run_done|].
  cbn [fold_left].
  assert (Hm : forall nodes st,
            attach_run st (fold_left (fun st n => Inline.on_added n st) nodes st)).
  { induction nodes as [|n nodes IHn]; intros st; [apply run_done|].
    cbn [fold_left]. apply (attach_run_trans _ _ _ (attach_run_on_added n st)).
    apply IHn. }
  apply (attach_run_trans _ _ _ (Hm (addedNodes m) s)). apply IH.
Qed.

Lemma attach_run_series s s' :
  attach_run s s' -> fresh_state s ->
  exists l,
    doc s' = attach_all l (doc s)
    /\ listeners s' = listeners s ++ flat_map attachment_listeners l
    /\ cleanupFns s' = cleanupFns s ++ List.map attachment_cleanup l
    /\ spaced (next_ref s) l (next_ref s')
    /\ observing s' = observing s /\ observer s' = observer s.
Proof.
  induction 1 as [s|s root s' _ IH]; intros Hf.
  - exists []. cbn. rewrite !app_nil_r. repeat split. lia.
  - destruct (find_node (forest s) root) as [t|] eqn:Hfind.
    2:{ rewrite (inline_attach_noop s root) in IH by (left; exact Hfind).
        exact (IH Hf). }
    destruct (querySelector Inline.counter_selector t) as [x|] eqn:Hq.
    { rewrite (inline_attach_noop s root) in IH
        by (right; exists t, x; split; assumption).
      exact (IH Hf). }
    destruct (inline_attach_effect s root t Hf Hfind Hq)
      as (txt & Htxt & Hforest & Hl & Hc & Hg & Ho & _ & Hn).
    pose proof (inline_attach_fresh s root t Hf Hfind Hq) as Hf1.
    cbv zeta in *.
    set (s1 := Inline.attachCharCounterToView root s) in *.
    destruct (IH Hf1) as (l & Hd' & Hl' & Hc' & Hs' & Hg' & Ho').
    exists ((root, next_ref s, txt) :: l).
    split; [|split; [|split; [|split; [|split]]]].
    + rewrite Hd', (doc_of_forest s s1 _ Hforest). reflexivity.
    + rewrite Hl', Hl. cbn [flat_map]. rewrite <- app_assoc. reflexivity.
    + rewrite Hc', Hc. cbn [List.map]. rewrite <- app_assoc. reflexivity.
    + cbn [spaced]. split; [cbn; lia|]. split; [exact Htxt|].
      rewrite Hn in Hs'. exact Hs'.
    + rewrite Hg'. exact Hg.
    + rewrite Ho'. exact Ho.
Qed.

(** X20. Whatever batch it is given, the observer callback of the inline
    variant only attaches counters: it leaves the observer alone, and the
    teardown actions it adds to [cleanupFns], run in order, give back the
    document tree and the listener table of before the callback. *)
Theorem inline_callback_is_undone_by_its_teardowns (batch : list mutation)
    (s : state) :
  fresh_state s ->
  let s' := Inline.observerCallback batch s in
  exists fns,
    cleanupFns s' = cleanupFns s ++ fns
    /\ observer s' = observer s /\ observing s' = observing s
    /\ doc (fold_left drain_step fns s') = doc s
    /\ listeners (fold_left drain_step fns s') = listeners s.
Proof.
  intros Hf. cbv zeta.
  destruct (attach_run_series s _ (attach_run_callback batch s) Hf)
    as (l & Hd & Hl & Hc & Hsp & Hg & Ho).
  set (s' := Inline.observerCallback batch s) in *.
  exists (List.map attachment_cleanup l).
  destruct (drain_attachments l s') as [HdX HlX]. cbv zeta in HdX, HlX.
  split; [exact Hc|]. split; [exact Ho|]. split; [exact Hg|]. split.
  - rewrite HdX, Hd.
    apply (attaches_removed l (next_ref s) (next_ref s')); [exact Hsp|].
    intros x Hx. destruct Hf as (Hr & _). apply Hr. unfold refs.
    apply in_map. unfold forest, forest_subtrees. cbn [flat_map].
    apply in_or_app. left. exact Hx.
  - rewrite HlX, Hl. apply remove_listeners_all.
    intros a x Ha Hx. apply existsb_other_handler. intros y Hy E.
    assert (Hlo : next_ref s <= att_counter a).
    { apply (spaced_bounds l _ _ a (counter_node a) Hsp Ha).
      unfold counter_node. rewrite subtrees_elem. left. reflexivity. }
    assert (Hh : l_handler x = HInlineUpdate (att_root a) (att_counter a)).
    { unfold attachment_listeners in Hx.
      destruct Hx as [<-|[<-|[<-|[]]]]; reflexivity. }
    destruct Hf as (_ & Hh' & _).
    assert (Hlt : att_counter a < next_ref s).
    { apply (Hh' y (att_counter a) Hy). rewrite E, Hh. right. left. reflexivity. }
    lia.
Qed.

Lemma inline_callback_is_undone_by_its_teardowns_witness :
  exists fns,
    cleanupFns (Inline.observerCallback [mkMutation [1]; mkMutation [3]] ex_two_roots)
    = cleanupFns ex_two_roots ++ fns
    /\ doc (fold_left drain_step fns
              (Inline.observerCallback [mkMutation [1]; mkMutation [3]] ex_two_roots))
       = doc ex_two_roots.
Proof.
  assert (Hf : fresh_state ex_two_roots).
  { split; [|split].
    - intros r Hr. vm_compute in Hr.
      repeat (destruct Hr as [<-|Hr]; [simpl; lia|]). destruct Hr.
    - intros l r [].
    - intros o [<-|[]]. simpl. lia. }
  destruct (inline_callback_is_undone_by_its_teardowns
              [mkMutation [1]; mkMutation [3]] ex_two_roots Hf)
    as (fns & Hc & _ & _ & Hd & _).
  exists fns. split; [exact Hc | exact Hd].
Defined.

(** ** Activation followed by deactivation (anchored variant) *)

Lemma insert_first_elem k r e kids :
  insert_first k (Elem r e kids) = Elem r e (k :: kids).
Proof. destruct kids; reflexivity. Qed.

Lemma update_fresh_after_insert c g v k t :
  (forall x, In x (subtrees t) -> ref_of x <> c) ->
  ref_of k = c ->
  update_at c g (update_at v (insert_first k) t)
  = update_at v (insert_first (g k)) t.
Proof.
  intros Hfresh Hk.
  induction t as [r d|r e kids IH] using node_ind'.
  - assert (Hr : (r =? c) = false).
    { apply Nat.eqb_neq. apply (Hfresh (Text r d)). left. reflexivity. }
    simpl. destruct (r =? v); simpl; rewrite Hr; reflexivity.
  - assert (Hr : (r =? c) = false).
    { apply Nat.eqb_neq. apply (Hfresh (Elem r e kids)). left. reflexivity. }
    assert (Hkids : forall x, In x (flat_map subtrees kids) -> ref_of x <> c).
    { intros x Hx. apply Hfresh. rewrite subtrees_elem. right. exact Hx. }
    cbn [update_at ref_of]. destruct (r =? v).
    + rewrite !insert_first_elem. cbn [update_at ref_of]. rewrite Hr. f_equal.
      cbn [List.map]. rewrite (update_at_here c g k Hk).
      rewrite (map_update_fresh c g kids Hkids). reflexivity.
    + cbn [update_at ref_of]. rewrite Hr. f_equal. rewrite map_map.
      clear Hfresh Hr. induction kids as [|x kids IHk]; [reflexivity|].
      apply Forall_cons_iff in IH. destruct IH as [Hx Hrest].
      cbn [List.map]. f_equal.
      * apply Hx. intros y Hy. apply Hkids. simpl. apply in_or_app. left. exact Hy.
      * apply IHk; [exact Hrest|]. intros y Hy. apply Hkids.
        simpl. apply in_or_app. right. exact Hy.
Qed.

Lemma prune_after_insert c v k t :
  (forall x, In x (subtrees t) -> ref_of x <> c) ->
  ref_of k = c ->
  remove_node c (update_at v (insert_first k) t) = t.
Proof.
  intros Hfresh Hk.
  induction t as [r d|r e kids IH] using node_ind'.
  - simpl. destruct (r =? v); reflexivity.
  - assert (Hkids : forall x, In x (flat_map subtrees kids) -> ref_of x <> c).
    { intros x Hx. apply Hfresh. rewrite subtrees_elem. right. exact Hx. }
    cbn [update_at ref_of]. destruct (r =? v).
    + rewrite insert_first_elem. cbn [remove_node prune]. f_equal.
      cbn [List.map filter].
      assert (Ec : ref_of (remove_node c k) = c) by (destruct k; exact Hk).
      rewrite Ec, Nat.eqb_refl. cbn [negb].
      apply (prune_kids_fresh (Nat.eqb c) kids).
      intros x Hx. apply Nat.eqb_neq. intros E. apply (Hkids x Hx). symmetry. exact E.
    + cbn [remove_node prune]. f_equal. clear Hfresh.
      induction kids as [|x kids IHk]; [reflexivity|].
      apply Forall_cons_iff in IH. destruct IH as [Hx Hrest].
      cbn [List.map filter].
      assert (Ex : remove_node c (update_at v (insert_first k) x) = x).
      { apply Hx. intros y Hy. apply Hkids. simpl. apply in_or_app. left. exact Hy. }
      rewrite Ex.
      assert (Hc : (c =? ref_of x) = false).
      { apply Nat.eqb_neq. intros E. apply (Hkids x); [|symmetry; exact E].
        simpl. apply in_or_app. left.
        destruct (subtrees_head x) as [l ->]. left. reflexivity. }
      rewrite Hc. cbn [negb]. f_equal.
      apply IHk; [exact Hrest|]. intros y Hy. apply Hkids.
      simpl. apply in_or_app. right. exact Hy.
Qed.


Lemma update_body_shape v g b e k :
  (forall r el kids, exists kids', g (Elem r el kids) = Elem r el kids') ->
  exists k1, update_at v g (Elem b e k) = Elem b e k1.
Proof.
  intros Hg. cbn [update_at ref_of]. destruct (b =? v).
  - apply Hg.
  - eexists. reflexivity.
Qed.

Lemma insert_first_shape c r el kids :
  exists kids', insert_first c (Elem r el kids) = Elem r el kids'.
Proof. rewrite insert_first_elem. eexists. reflexivity. Qed.

(** What a render of the anchored variant does to a state that holds no
    element with the counter's id: nothing but bookkeeping when there is no
    usable anchor, and otherwise one new first child of the anchor, with one
    closure that removes it. *)
Lemma anchored_updateCounter_shape s :
  fresh_state s ->
  getElementById Anchored.COUNTER_ID (doc s) = None ->
  exists kids' det' nr' roots lg fns,
    Anchored.updateCounter s
    = mkState (has_window s) (body_ref s) (body_el s) kids' det' nr'
        (selection s) (listeners s) (observing s) (next_observer s) (observer s)
        (cleanupFns s ++ fns) roots lg
    /\ ((fns = [] /\ kids' = body_kids s)
        \/ (exists v txt,
              fns = [RemoveCounter (next_ref s)]
              /\ Elem (body_ref s) (body_el s) kids'
                 = update_at v
                     (insert_first
                        (Elem (next_ref s)
                           (mkElement "span" Anchored.COUNTER_ID [] []) txt))
                     (doc s))).
Proof.
  intros Hf Hid.
  assert (Hfresh : forall x, In x (subtrees (doc s)) -> ref_of x <> next_ref s).
  { intros x Hx. apply (fresh_doc s x Hf Hx). }
  clear Hf.
  destruct s as [w b e k det nr sl L obs no ov fns cr lg].
  cbn [has_window body_ref body_el body_kids detached next_ref selection listeners
       observing next_observer observer cleanupFns] in *.
  unfold doc in Hid, Hfresh. cbn [body_ref body_el body_kids] in Hid, Hfresh.
  unfold Anchored.updateCounter. rewrite record_mk.
  assert (Hr : exists roots lg',
    refresh_roots (mkState w b e k det nr sl L obs no ov fns cr (lg ++ [CallRender]))
    = mkState w b e k det nr sl L obs no ov fns roots lg').
  { unfold refresh_roots. cbn [contentRoots].
    destruct (List.length cr =? 0); eexists; eexists; reflexivity. }
  destruct Hr as (roots & lg' & ->).
  unfold Anchored.ensureCounterElement, doc. cbn [body_ref body_el body_kids].
  rewrite Hid.
  destruct (Anchored.findSystemVersionElement (Elem b e k)) as [v|].
  2:{ exists k, det, nr, roots, lg', []. rewrite app_nil_r. split; [reflexivity|].
      left. split; reflexivity. }
  destruct (Anchored.has_parentElement _ v); cbn [negb].
  2:{ exists k, det, nr, roots, lg', []. rewrite app_nil_r. split; [reflexivity|].
      left. split; reflexivity. }
  cbn [next_ref]. cbv zeta.
  set (counter := Elem nr (mkElement "span" Anchored.COUNTER_ID [] []) []).
  destruct (update_body_shape v (insert_first counter) b e k
              (insert_first_shape counter)) as [k1 E1].
  assert (Hset : forall str, exists k2 det2 txt,
    dom_setTextContent nr str
      (push_cleanup (RemoveCounter nr)
         (dom_update v (insert_first counter)
            (set_next_ref (S nr)
               (mkState w b e k det nr sl L obs no ov fns roots lg'))))
    = mkState w b e k2 det2 (S (S nr)) sl L obs no ov
        (fns ++ [RemoveCounter nr]) roots lg'
    /\ Elem b e k2
       = update_at v
           (insert_first (Elem nr (mkElement "span" Anchored.COUNTER_ID [] []) txt))
           (Elem b e k)).
  { intros str.
    pose proof (update_fresh_after_insert nr (put_text (S nr) str) v counter
                  (Elem b e k) Hfresh eq_refl) as E2.
    destruct (update_body_shape v
                (insert_first (put_text (S nr) str counter)) b e k
                (insert_first_shape _)) as [k2 E3].
    exists k2. eexists. eexists.
    unfold dom_setTextContent, dom_update, doc, set_next_ref.
    cbn [body_ref body_el body_kids detached next_ref has_window selection listeners
         observing next_observer observer cleanupFns contentRoots log].
    rewrite E1. cbn [set_dom push_cleanup set_cleanupFns
         body_ref body_el body_kids detached next_ref has_window selection listeners
         observing next_observer observer cleanupFns contentRoots log].
    rewrite <- E1, E2, E3. cbn [set_dom
         body_ref body_el body_kids detached next_ref has_window selection listeners
         observing next_observer observer cleanupFns contentRoots log].
    split; [reflexivity|]. rewrite <- E3. reflexivity. }
  set (s3 := push_cleanup _ _) in *.
  destruct (List.length (contentRoots s3) =? 0).
  - destruct (Hset msg_zero) as (k2 & det2 & txt & E & Hk2).
    exists k2, det2, (S (S nr)), roots, lg', [RemoveCounter nr].
    split; [exact E|]. right. exists v, txt. split; [reflexivity | exact Hk2].
  - match goal with |- context [0 <? ?n] => destruct (0 <? n) end.
    + match goal with |- context [dom_setTextContent _ ?str _] =>
        destruct (Hset str) as (k2 & det2 & txt & E & Hk2) end.
      exists k2, det2, (S (S nr)), roots, lg', [RemoveCounter nr].
      split; [exact E|]. right. exists v, txt. split; [reflexivity | exact Hk2].
    + match goal with |- context [dom_setTextContent _ ?str _] =>
        destruct (Hset str) as (k2 & det2 & txt & E & Hk2) end.
      exists k2, det2, (S (S nr)), roots, lg', [RemoveCounter nr].
      split; [exact E|]. right. exists v, txt. split; [reflexivity | exact Hk2].
Qed.

Lemma ex_span_before_div_fresh : fresh_state ex_span_before_div.
Proof.
  split; [|split].
  - intros r Hr. vm_compute in Hr.
    repeat (destruct Hr as [<-|Hr]; [simpl; lia|]). destruct Hr.
  - intros l r [].
  - intros o [].
Qed.

Lemma ex_span_before_div_idle : idle ex_span_before_div.
Proof. split; [reflexivity | split; [reflexivity | intros l []]]. Qed.

(** X21. In a browser, on a page that has no element with the anchored
    counter's id, and with the plugin idle, [activate] followed by
    [deactivate] gives back the document tree, the listener table and the
    set of connected observers of before, and leaves the plugin idle,
    whether or not the page has a version element to anchor the counter. *)
Theorem anchored_activate_deactivate_restores (s : state) :
  has_window s = true -> fresh_state s -> idle s ->
  getElementById Anchored.COUNTER_ID (doc s) = None ->
  let s' := deactivate (Anchored.activate s) in
  doc s' = doc s /\ listeners s' = listeners s /\ observing s' = observing s
  /\ observer s' = None /\ cleanupFns s' = [].
Proof.
  intros Hw Hf (Ho & Hc & Hl) Hid.
  assert (E0 : forall ty, existsb (listener_eqb (mkListener OnDocument ty HUpdateCounter))
                            (listeners s) = false).
  { intros ty. apply existsb_other_handler. exact Hl. }
  unfold Anchored.activate. rewrite Hw. cbn [negb].
  unfold Anchored.startObserveView, call_findContentRoots.
  destruct (anchored_updateCounter_shape
              (set_contentRoots (findContentRoots (doc s))
                 (record CallFindContentRoots s)) Hf Hid)
    as (kids' & det' & nr' & roots & lg & fns & HU & Hcase).
  cbn [has_window body_ref body_el body_kids detached next_ref selection listeners
       observing next_observer observer cleanupFns set_contentRoots record] in HU.
  change (doc (set_contentRoots (findContentRoots (doc s))
                 (record CallFindContentRoots s))) with (doc s) in Hcase.
  cbn [has_window body_ref body_el body_kids detached next_ref selection listeners
       observing next_observer observer cleanupFns set_contentRoots record] in Hcase.
  rewrite HU, Ho, Hc. clear HU.
  rewrite observe_body_mk, set_observer_mk.
  rewrite addEventListener_mk by apply E0.
  rewrite addEventListener_mk
    by (rewrite existsb_app, E0; reflexivity).
  rewrite addEventListener_mk
    by (rewrite !existsb_app, E0; reflexivity).
  rewrite push_cleanup_mk.
  unfold deactivate. cbn [observer].
  rewrite disconnect_mk, set_observer_mk. cbv zeta. cbn [cleanupFns].
  rewrite set_cleanupFns_mk.
  destruct Hcase as [[-> ->]|(v & txt & -> & Hk)].
  - cbn [app fold_left run_cleanup].
    rewrite record_mk, !removeEventListener_mk.
    cbn [doc body_ref body_el body_kids listeners observing observer cleanupFns].
    rewrite filter_fresh_observer by (apply Hf).
    rewrite <- !app_assoc. cbn [app].
    rewrite remove_first_app by apply E0.
    rewrite remove_first_app by apply E0.
    rewrite (remove_first_app _ (listeners s) []) by apply E0.
    rewrite app_nil_r. repeat split.
  - assert (Hrm : filter (fun x => negb (next_ref s =? ref_of x))
                    (List.map (remove_node (next_ref s)) kids')
                  = body_kids s).
    { pose proof (prune_after_insert (next_ref s) v
                    (Elem (next_ref s) (mkElement "span" Anchored.COUNTER_ID [] []) txt)
                    (doc s) (fun x Hx => fresh_doc s x Hf Hx) eq_refl) as E.
      rewrite <- Hk in E. unfold doc in E. cbn [remove_node prune] in E.
      injection E as E. exact E. }
    cbn [app fold_left run_cleanup].
    rewrite record_mk.
    match goal with |- context [dom_remove ?n (mkState ?a1 ?a2 ?a3 ?a4 ?a5 ?a6 ?a7 ?a8
                                  ?a9 ?a10 ?a11 ?a12 ?a13 ?a14)] =>
      destruct (dom_remove_mk a1 a2 a3 a4 a5 a6 a7 a8 a9 a10 a11 a12 a13 a14 n)
        as [gone ->] end.
    rewrite record_mk, !removeEventListener_mk.
    cbn [doc body_ref body_el body_kids listeners observing observer cleanupFns].
    rewrite Hrm.
    rewrite filter_fresh_observer by (apply Hf).
    rewrite <- !app_assoc. cbn [app].
    rewrite remove_first_app by apply E0.
    rewrite remove_first_app by apply E0.
    rewrite (remove_first_app _ (listeners s) []) by apply E0.
    rewrite app_nil_r. repeat split.
Qed.

Lemma anchored_activate_deactivate_restores_witness :
  doc (deactivate (Anchored.activate ex_span_before_div)) = doc ex_span_before_div
  /\ doc (Anchored.activate ex_span_before_div) <> doc ex_span_before_div.
Proof.
  split.
  - exact (proj1 (anchored_activate_deactivate_restores ex_span_before_div eq_refl
                    ex_span_before_div_fresh ex_span_before_div_idle eq_refl)).
  - vm_compute. discriminate.
Defined.

(** ** The surface routines create their node once *)

Lemma table_refs_kids (kids : list node) (up : option ref) :
  Forall (fun t => forall up, List.map fst (parent_table up t)
                              = List.map ref_of (subtrees t)) kids ->
  List.map fst (flat_map (parent_table up) kids)
  = List.map ref_of (flat_map subtrees kids).
Proof.
  induction kids as [|x kids IH]; intros H; [reflexivity|].
  apply Forall_cons_iff in H. destruct H as [Hx Hrest].
  cbn [flat_map]. rewrite !map_app, Hx, (IH Hrest). reflexivity.
Qed.

Lemma table_refs t : forall up,
  List.map fst (parent_table up t) = List.map ref_of (subtrees t).
Proof.
  induction t as [r d|r e kids IH] using node_ind'; intros up; [reflexivity|].
  cbn [parent_table subtrees List.map fst ref_of]. f_equal.
  apply table_refs_kids. exact IH.
Qed.

Lemma table_parents_some t : forall u p,
  In p (parent_table (Some u) t) -> snd p <> None.
Proof.
  induction t as [r d|r e kids IH] using node_ind'; intros u p Hp.
  - destruct Hp as [<-|[]]. discriminate.
  - cbn [parent_table] in Hp. destruct Hp as [<-|Hp]; [discriminate|].
    apply in_flat_map in Hp. destruct Hp as (x & Hx & Hp).
    rewrite Forall_forall in IH. exact (IH x Hx _ _ Hp).
Qed.

(** An element found below [document.body] has a parent element, and the
    parent of [document.body] itself is the html element. *)
Lemma found_has_parent s v :
  has_element v (doc s) = true -> Anchored.has_parentElement s v = true.
Proof.
  unfold Anchored.has_parentElement. intros Hv.
  destruct (v =? body_ref s) eqn:Eb; [reflexivity|]. cbn [orb].
  unfold has_element in Hv. apply existsb_exists in Hv.
  destruct Hv as (x & Hx & Hxv). apply andb_true_iff in Hxv.
  destruct Hxv as [_ Hxv]. apply Nat.eqb_eq in Hxv.
  unfold doc in Hx. rewrite subtrees_elem in Hx. destruct Hx as [<-|Hx].
  { cbn [ref_of] in Hxv. rewrite Hxv, Nat.eqb_refl in Eb. discriminate. }
  unfold parentNode, forest_parents, forest, doc.
  cbn [flat_map parent_table find fst ref_of app].
  rewrite Nat.eqb_sym, Eb.
  destruct (find (fun p => fst p =? v)
              (flat_map (parent_table (Some (body_ref s))) (body_kids s)))
    as [[y up]|] eqn:Ef.
  - rewrite (find_app_some _ _ _ _ Ef).
    apply find_some in Ef. destruct Ef as [Hin _].
    apply in_flat_map in Hin. destruct Hin as (k & _ & Hin).
    pose proof (table_parents_some _ _ _ Hin) as Hup. cbn [snd] in Hup.
    destruct up; [reflexivity | contradiction].
  - exfalso.
    assert (Hin : In v (List.map fst
                          (flat_map (parent_table (Some (body_ref s))) (body_kids s)))).
    { rewrite table_refs_kids.
      - rewrite <- Hxv. apply in_map. exact Hx.
      - apply Forall_forall. intros t _. apply table_refs. }
    apply in_map_iff in Hin. destruct Hin as (p & Hp & Hin).
    pose proof (find_none _ _ Ef p Hin) as Hn. cbn beta in Hn.
    apply Nat.eqb_neq in Hn. contradiction.
Qed.

Lemma find_hd_filter {A} (p : A -> bool) l : find p l = hd_error (filter p l).
Proof.
  induction l as [|a l IH]; [reflexivity|]. simpl. destruct (p a); [reflexivity | exact IH].
Qed.

Lemma getElementById_count i d :
  match getElementById i d with
  | None => id_count i d = 0
  | Some _ => 1 <= id_count i d
  end.
Proof.
  unfold getElementById, id_count. rewrite find_hd_filter.
  destruct (filter (has_id i) (subtrees d)); simpl; [reflexivity | lia].
Qed.

Lemma id_count_elem i r e kids :
  id_count i (Elem r e kids)
  = (if String.eqb (idAttr e) i then 1 else 0)
    + List.length (filter (has_id i) (flat_map subtrees kids)).
Proof.
  unfold id_count. rewrite subtrees_elem. cbn [filter has_id].
  destruct (String.eqb (idAttr e) i); reflexivity.
Qed.

Lemma NoDup_app_disjoint {A} (l1 l2 : list A) :
  NoDup (l1 ++ l2) -> forall a, In a l1 -> ~ In a l2.
Proof.
  induction l1 as [|x l1 IH]; intros Hnd a Ha; [destruct Ha|].
  cbn [app] in Hnd. apply NoDup_cons_iff in Hnd. destruct Hnd as [Hx Hrest].
  destruct Ha as [<-|Ha].
  - intros H2. apply Hx. apply in_or_app. right. exact H2.
  - exact (IH Hrest a Ha).
Qed.

Lemma id_count_kids_inserted i v g kids :
  Forall (fun t => NoDup (List.map ref_of (subtrees t)) ->
                   id_count i (update_at v g t)
                   = id_count i t + (if has_element v t then 1 else 0)) kids ->
  NoDup (List.map ref_of (flat_map subtrees kids)) ->
  List.length (filter (has_id i) (flat_map subtrees (List.map (update_at v g) kids)))
  = List.length (filter (has_id i) (flat_map subtrees kids))
    + (if existsb (fun x => isElement x && (ref_of x =? v)) (flat_map subtrees kids)
       then 1 else 0).
Proof.
  induction kids as [|x kids IH]; intros HF Hnd; [reflexivity|].
  apply Forall_cons_iff in HF. destruct HF as [Hx Hrest].
  cbn [flat_map List.map] in *. rewrite map_app in Hnd.
  pose proof (NoDup_app_remove_l _ _ Hnd) as Hnd2.
  pose proof (NoDup_app_remove_r _ _ Hnd) as Hnd1.
  specialize (Hx Hnd1). specialize (IH Hrest Hnd2).
  unfold id_count, has_element in Hx.
  rewrite !filter_app, !length_app, existsb_app, Hx, IH.
  destruct (existsb (fun y => isElement y && (ref_of y =? v)) (subtrees x)) eqn:E1.
  - cbn [orb].
    destruct (existsb (fun y => isElement y && (ref_of y =? v))
                (flat_map subtrees kids)) eqn:E2; [|lia].
    exfalso.
    apply existsb_exists in E1. destruct E1 as (a & Ha & Hav).
    apply existsb_exists in E2. destruct E2 as (b & Hb & Hbv).
    apply andb_true_iff in Hav. destruct Hav as [_ Hav]. apply Nat.eqb_eq in Hav.
    apply andb_true_iff in Hbv. destruct Hbv as [_ Hbv]. apply Nat.eqb_eq in Hbv.
    apply (NoDup_app_disjoint _ _ Hnd v).
    + rewrite <- Hav. apply in_map. exact Ha.
    + rewrite <- Hbv. apply in_map. exact Hb.
  - cbn [orb]. lia.
Qed.

(** Inserting a childless element that carries the id as the first child of
    the element [v] adds one to the number of elements with that id when [v]
    is in the tree, and nothing otherwise. *)
Lemma id_count_inserted i v k t :
  has_id i k = true -> subtrees k = [k] ->
  NoDup (List.map ref_of (subtrees t)) ->
  id_count i (update_at v (insert_first k) t)
  = id_count i t + (if has_element v t then 1 else 0).
Proof.
  intros Hk Hsub.
  induction t as [r d|r e kids IH] using node_ind'; intros Hnd.
  - unfold has_element. simpl. destruct (r =? v); simpl; reflexivity.
  - cbn [update_at ref_of]. unfold has_element. rewrite subtrees_elem.
    cbn [existsb isElement andb ref_of].
    destruct (r =? v) eqn:Erv.
    + cbn [orb]. rewrite insert_first_elem, !id_count_elem.
      cbn [flat_map]. rewrite Hsub. cbn [app filter]. rewrite Hk. cbn [List.length]. lia.
    + cbn [orb]. rewrite !id_count_elem.
      rewrite (id_count_kids_inserted i v (insert_first k) kids IH).
      * lia.
      * rewrite subtrees_elem in Hnd. cbn [List.map] in Hnd.
        apply NoDup_cons_iff in Hnd. exact (proj2 Hnd).
Qed.

Lemma floating_ensure_count s :
  id_count Floating.COUNTER_ID (doc (snd (Floating.ensureFloatingCounter s)))
  = Nat.max 1 (id_count Floating.COUNTER_ID (doc s)).
Proof.
  pose proof (getElementById_count Floating.COUNTER_ID (doc s)) as Hc.
  unfold Floating.ensureFloatingCounter.
  destruct (getElementById Floating.COUNTER_ID (doc s)) as [c|].
  - cbn [snd]. lia.
  - cbn [snd]. rewrite Hc. cbn [Nat.max].
    unfold doc in *. cbn [body_appendChild push_cleanup set_cleanupFns set_next_ref
      set_dom append_child doc body_ref body_el body_kids].
    rewrite id_count_elem in *. rewrite flat_map_app, filter_app, length_app.
    cbn [flat_map subtrees app filter has_id idAttr]. 
    assert (E : String.eqb Floating.COUNTER_ID Floating.COUNTER_ID = true)
      by apply String.eqb_refl.
    rewrite E. cbn [List.length]. lia.
Qed.

Lemma anchored_ensure_returns s :
  fst (Anchored.ensureCounterElement s) = None
  <-> getElementById Anchored.COUNTER_ID (doc s) = None
      /\ Anchored.findSystemVersionElement (doc s) = None.
Proof.
  unfold Anchored.ensureCounterElement.
  destruct (getElementById Anchored.COUNTER_ID (doc s)) as [c|].
  { cbn [fst]. split; [discriminate | intros [H _]; discriminate]. }
  destruct (Anchored.findSystemVersionElement (doc s)) as [v|] eqn:Ev.
  - rewrite (found_has_parent s v (first_element_has_element _ _ _ Ev)).
    cbn [negb fst]. split; [discriminate | intros [_ H]; discriminate].
  - cbn [fst]. split; [intros _; split; reflexivity | reflexivity].
Qed.

Lemma anchored_ensure_count s :
  NoDup (refs [doc s]) ->
  fst (Anchored.ensureCounterElement s) <> None ->
  id_count Anchored.COUNTER_ID (doc (snd (Anchored.ensureCounterElement s)))
  = Nat.max 1 (id_count Anchored.COUNTER_ID (doc s)).
Proof.
  intros Hnd Hsome.
  pose proof (getElementById_count Anchored.COUNTER_ID (doc s)) as Hc.
  unfold Anchored.ensureCounterElement in *.
  destruct (getElementById Anchored.COUNTER_ID (doc s)) as [c|].
  { cbn [snd]. lia. }
  destruct (Anchored.findSystemVersionElement (doc s)) as [v|] eqn:Ev;
    [|contradiction].
  destruct (negb (Anchored.has_parentElement s v)); [contradiction|].
  cbn [snd]. rewrite Hc. cbn [Nat.max].
  set (counter := Elem (next_ref s) (mkElement "span" Anchored.COUNTER_ID [] []) []).
  change (doc (push_cleanup (RemoveCounter (next_ref s))
                 (dom_update v (insert_first counter)
                    (set_next_ref (S (next_ref s)) s))))
    with (doc (dom_update v (insert_first counter) (set_next_ref (S (next_ref s)) s))).
  rewrite (proj1 (doc_dom_update v (insert_first counter)
                    (set_next_ref (S (next_ref s)) s)
                    (isElement_insert_first counter))).
  change (doc (set_next_ref (S (next_ref s)) s)) with (doc s).
  rewrite (id_count_inserted Anchored.COUNTER_ID v counter (doc s)).
  - rewrite (first_element_has_element _ _ _ Ev), Hc. reflexivity.
  - reflexivity.
  - reflexivity.
  - unfold refs, forest_subtrees in Hnd. cbn [flat_map] in Hnd.
    rewrite app_nil_r in Hnd. exact Hnd.
Qed.

Lemma anchored_ensure_none s :
  fst (Anchored.ensureCounterElement s) = None ->
  snd (Anchored.ensureCounterElement s) = s.
Proof.
  unfold Anchored.ensureCounterElement.
  destruct (getElementById Anchored.COUNTER_ID (doc s)); [discriminate|].
  destruct (Anchored.findSystemVersionElement (doc s)); [|reflexivity].
  destruct (negb (Anchored.has_parentElement s r)); [reflexivity | discriminate].
Qed.

Lemma inline_attach_twice s root x :
  fresh_state s -> find_node (forest s) root = Some x -> isElement x = true ->
  let s1 := Inline.attachCharCounterToView root s in
  Inline.attachCharCounterToView root s1 = s1
  /\ exists x', find_node (forest s1) root = Some x'
                /\ querySelector Inline.counter_selector x' <> None.
Proof.
  intros Hf Hfind Hel. cbv zeta.
  destruct (attach_gives_counter s root x Hf Hfind Hel) as (x' & Hx' & _ & Hq).
  split; [|exists x'; split; assumption].
  apply inline_attach_noop. right.
  destruct (querySelector Inline.counter_selector x') as [y|] eqn:Ey;
    [|contradiction].
  exists x', y. split; [exact Hx' | exact Ey].
Qed.

(** C5. Calling a surface routine a second time right after the first
    returns the same node and leaves the state as the first call left it.
    The floating routine always returns a node, which the document then
    holds under the fixed id; it adds one element with that id when there
    was none and no element otherwise.  The anchored routine returns no
    node exactly when the document has neither an element with the fixed id
    nor a version element, and then it changes nothing; otherwise the node
    it returns is found under the fixed id and, again, one element with the
    id is added only when there was none.  The inline routine leaves in the
    root a counter that the scoped class lookup finds, so that the second
    call changes nothing. *)
Theorem ensure_surface_idempotent :
  (forall s,
     let r := Floating.ensureFloatingCounter s in
     Floating.ensureFloatingCounter (snd r) = r
     /\ getElementById Floating.COUNTER_ID (doc (snd r)) = Some (fst r)
     /\ id_count Floating.COUNTER_ID (doc (snd r))
        = Nat.max 1 (id_count Floating.COUNTER_ID (doc s)))
  /\ (forall s,
     let r := Anchored.ensureCounterElement s in
     Anchored.ensureCounterElement (snd r) = r
     /\ (fst r = None <->
           getElementById Anchored.COUNTER_ID (doc s) = None
           /\ Anchored.findSystemVersionElement (doc s) = None)
     /\ (fst r = None -> snd r = s)
     /\ (forall c, fst r = Some c ->
           getElementById Anchored.COUNTER_ID (doc (snd r)) = Some c
           /\ (NoDup (refs [doc s]) ->
               id_count Anchored.COUNTER_ID (doc (snd r))
               = Nat.max 1 (id_count Anchored.COUNTER_ID (doc s)))))
  /\ (forall s root x,
     fresh_state s -> find_node (forest s) root = Some x -> isElement x = true ->
     let s1 := Inline.attachCharCounterToView root s in
     Inline.attachCharCounterToView root s1 = s1
     /\ exists x', find_node (forest s1) root = Some x'
                   /\ querySelector Inline.counter_selector x' <> None).
Proof.
  split; [|split].
  - intros s. cbv zeta. pose proof (floating_ensure_twice s) as H.
    pose proof (floating_ensure_count s) as Hc.
    destruct (Floating.ensureFloatingCounter s) as [c s1].
    destruct H as [H1 H2]. cbn [fst snd] in *. repeat split; assumption.
  - intros s. cbv zeta. pose proof (anchored_ensure_twice s) as H.
    pose proof (anchored_ensure_returns s) as Hr.
    pose proof (anchored_ensure_none s) as Hn.
    pose proof (anchored_ensure_count s) as Hc.
    destruct (Anchored.ensureCounterElement s) as [c s1].
    destruct H as [H1 H2]. cbn [fst snd] in *.
    split; [exact H1|]. split; [exact Hr|]. split; [exact Hn|].
    intros r Hsome. split; [apply H2; exact Hsome|].
    intros Hnd. apply Hc; [exact Hnd|]. rewrite Hsome. discriminate.
  - intros s root x Hf Hfind Hel. exact (inline_attach_twice s root x Hf Hfind Hel).
Qed.

Lemma ensure_surface_idempotent_witness :
  fst (Anchored.ensureCounterElement ex_span_before_div) = Some 5
  /\ id_count Anchored.COUNTER_ID
       (doc (snd (Anchored.ensureCounterElement ex_span_before_div))) = 1
  /\ fst (Anchored.ensureCounterElement (ex_page None)) = None
  /\ Inline.attachCharCounterToView 1 (Inline.attachCharCounterToView 1 (ex_page None))
     = Inline.attachCharCounterToView 1 (ex_page None).
Proof.
  destruct ensure_surface_idempotent as (_ & Ha & Hi).
  split; [reflexivity|]. split; [|split].
  - destruct (Ha ex_span_before_div) as (_ & _ & _ & Hs).
    destruct (Hs 5 eq_refl) as [_ Hc]. rewrite Hc; [reflexivity|].
    vm_compute. repeat (constructor; [simpl; intuition discriminate|]). constructor.
  - destruct (Ha (ex_page None)) as (_ & Hr & _).
    apply Hr. split; reflexivity.
  - exact (proj1 (Hi (ex_page None) 1 _ (ex_page_fresh None) eq_refl eq_refl)).
Defined.
